(** * HiCT_Library: a shallow embedding of the query and editing core

    The development follows the Python sources
    - [hict/core/chunked_file.py]      (class [ChunkedFile]),
    - [hict/api/ContactMatrixFacet.py] (the facade),
    - [hict/core/AGPProcessor.py]      (the AGP parser),
    and states the properties of the specification over them.

    Conventions.
    - Python integers and the [np.int64] coordinates are unbounded [Z]; the
      coordinates handled here stay far below 2^63.  The elements of an
      array are of a type with the operations of its dtype: [int64] with
      wrap-around, [float64] with IEEE rounding.
    - A [str] is a [string] whose characters are the code points below 256;
      text with other characters is outside the model.
    - A Python exception is a value [Raise e] of the [result] type.
    - A [dict] is a [gmap]; a [list] or a one-dimensional array is a [list];
      a two-dimensional array is an [ndarray] that carries its shape.
    - The modules [hict/core/common.py], [hict/core/contig_tree.py] and
      [hict/core/scaffold_tree.py] are not part of the sources at hand; what is
      needed of them is modelled from the specification and marked so. *)

From Stdlib Require Import ZArith Lia Bool Ascii SpecFloat.
From stdpp Require Import base option list gmap strings.

Open Scope Z_scope.

(** ** Exceptions and the error monad *)

Inductive exn : Type :=
  | AssertionError (msg : string)
  | IndexError
  | KeyError
  | TypeError
  | ValueError
  | UnboundLocalError (var : string)
  | PyException (msg : string)
  | RuntimeError (msg : string)
  | IncorrectResolution
  | IncorrectFileStateError.

Inductive result (A : Type) : Type :=
  | Ok (a : A)
  | Raise (e : exn).
Arguments Ok {A} a.
Arguments Raise {A} e.

#[global] Instance result_ret : MRet result := fun A a => Ok a.
#[global] Instance result_bind : MBind result :=
  fun A B f m => match m with Ok a => f a | Raise e => Raise e end.
#[global] Instance result_fmap : FMap result :=
  fun A B f m => match m with Ok a => Ok (f a) | Raise e => Raise e end.

(** [assert cond, msg] *)
Definition py_assert (cond : bool) (msg : string) : result unit :=
  if cond then Ok tt else Raise (AssertionError msg).

Definition is_ok {A} (r : result A) : bool :=
  match r with Ok _ => true | Raise _ => false end.

(** [d[k]] on a dict *)
Definition py_getitem `{Countable K} {V} (d : gmap K V) (k : K) : result V :=
  match d !! k with Some v => Ok v | None => Raise KeyError end.

(** Monadic map over a list, left to right. *)
Fixpoint mapM {A B} (f : A -> result B) (l : list A) : result (list B) :=
  match l with
  | [] => Ok []
  | x :: xs => y ← f x; ys ← mapM f xs; Ok (y :: ys)
  end.

(** ** Python sequences *)

(** [l[i]] with Python's negative indices; out of range raises [IndexError]. *)
Definition py_index {A} (l : list A) (i : Z) : result A :=
  let n := Z.of_nat (length l) in
  let j := if i <? 0 then i + n else i in
  if (0 <=? j) && (j <? n)
  then match l !! Z.to_nat j with Some x => Ok x | None => Raise IndexError end
  else Raise IndexError.

(** A slice bound [b] of a sequence of length [n], as Python normalises it. *)
Definition py_bound (n b : Z) : Z :=
  let b' := if b <? 0 then b + n else b in
  Z.max 0 (Z.min b' n).

(** [l[lo:hi]], [l[lo:]] and [l[:hi]] *)
Definition py_slice {A} (l : list A) (lo hi : Z) : list A :=
  let n := Z.of_nat (length l) in
  let a := py_bound n lo in
  let b := py_bound n hi in
  take (Z.to_nat (b - a)) (drop (Z.to_nat a) l).
Definition py_slice_from {A} (l : list A) (lo : Z) : list A :=
  py_slice l lo (Z.of_nat (length l)).
Definition py_slice_to {A} (l : list A) (hi : Z) : list A :=
  py_slice l 0 hi.

(** [l[i] = x] on a list; out of range raises [IndexError]. *)
Definition py_setitem {A} (l : list A) (i : Z) (x : A) : result (list A) :=
  let n := Z.of_nat (length l) in
  let j := if i <? 0 then i + n else i in
  if (0 <=? j) && (j <? n) then Ok (<[Z.to_nat j := x]> l) else Raise IndexError.

(** [sum(l)] *)
Definition py_sum (l : list Z) : Z := foldr Z.add 0 l.
Arguments py_sum : simpl never.

(** [np.cumsum] *)
Fixpoint cumsum_from (acc : Z) (l : list Z) : list Z :=
  match l with
  | [] => []
  | x :: xs => (acc + x) :: cumsum_from (acc + x) xs
  end.
Definition np_cumsum (l : list Z) : list Z := cumsum_from 0 l.

(** [np.searchsorted(a, v, side)] on a sorted array [a]: the number of leading
    elements that are [<= v] (side [right]) or [< v] (side [left]).  On the
    sorted arrays numpy requires, this is the insertion point it returns. *)
Fixpoint searchsorted_right (a : list Z) (v : Z) : Z :=
  match a with
  | [] => 0
  | x :: xs => if x <=? v then 1 + searchsorted_right xs v else 0
  end.
Fixpoint searchsorted_left (a : list Z) (v : Z) : Z :=
  match a with
  | [] => 0
  | x :: xs => if x <? v then 1 + searchsorted_left xs v else 0
  end.

(** The orientation adjustment of a prefix-sum array [ps]:
    [ps = ps.copy(); ps[:-1] = ps[-1] - np.flip(ps)[1:]]. *)
Definition flip_prefix_sum (ps : list Z) : result (list Z) :=
  total ← py_index ps (-1);
  Ok (map (fun x => total - x) (py_slice_from (rev ps) 1) ++ [total]).

(** ** Array element types *)

(** What the code needs of the element type of its arrays ([self.dtype] for the
    matrix, [float64] for the weights): the constants of [np.zeros] and
    [np.ones], the sum of duplicate entries of a sparse block, the product of
    the balancing step and the truth value [np.where] tests. *)
Class Dtype (F : Type) := {
  dzero : F;
  dunit : F;
  dadd : F -> F -> F;
  dmul : F -> F -> F;
  truthy : F -> bool;
  dtype_eq_dec :: EqDecision F;
}.

(** [np.int64]: a sum or a product that leaves the range wraps around. *)
Definition wrap64 (z : Z) : Z := (z + 2 ^ 63) mod 2 ^ 64 - 2 ^ 63.

#[global] Instance int64_dtype : Dtype Z := {
  dzero := 0;
  dunit := 1;
  dadd := fun x y => wrap64 (x + y);
  dmul := fun x y => wrap64 (x * y);
  truthy := fun x => negb (x =? 0);
}.

(** [np.float64], the dtype of the weights: IEEE 754 binary64 with rounding
    to nearest even.  Zero of either sign is false, a NaN is true. *)
#[global] Instance spec_float_eq_dec : EqDecision spec_float.
Proof. solve_decision. Defined.

#[global] Instance float64_dtype : Dtype spec_float := {
  dzero := S754_zero false;
  dunit := S754_finite false 4503599627370496 (-52);
  dadd := SFadd 53 1024;
  dmul := SFmul 53 1024;
  truthy := fun x => match x with S754_zero _ => false | _ => true end;
}.

(** ** Two-dimensional arrays *)

Section NDArray.
Context {F : Type} `{Dtype F}.

(** An array of shape [(shape0, shape1)], stored by rows. *)
Record ndarray : Type := mk_ndarray {
  shape0 : nat;
  shape1 : nat;
  rows : list (list F);
}.

Definition wf_ndarray (m : ndarray) : Prop :=
  length (rows m) = shape0 m /\ Forall (fun r => length r = shape1 m) (rows m).

Definition wf_ndarrayb (m : ndarray) : bool :=
  (length (rows m) =? shape0 m)%nat
  && forallb (fun r => (length r =? shape1 m)%nat) (rows m).

(** [m[i, j]], for indices within the shape *)
Definition entry (m : ndarray) (i j : nat) : F :=
  default dzero (r ← rows m !! i; r !! j).

(** [np.zeros(shape=(r, c))]: a negative dimension raises [ValueError]. *)
Definition np_zeros (r c : Z) : result ndarray :=
  if (r <? 0) || (c <? 0) then Raise ValueError
  else Ok (mk_ndarray (Z.to_nat r) (Z.to_nat c)
             (replicate (Z.to_nat r) (replicate (Z.to_nat c) dzero))).

(** [np.ones(shape=n)] *)
Definition np_ones (n : Z) : result (list F) :=
  if n <? 0 then Raise ValueError else Ok (replicate (Z.to_nat n) dunit).

(** [m.T] *)
Definition transpose (m : ndarray) : ndarray :=
  mk_ndarray (shape1 m) (shape0 m)
    (map (fun j => map (fun r => default dzero (r !! j)) (rows m))
         (seq 0 (shape1 m))).

(** [m[r0:r1, c0:c1]] *)
Definition slice2 (m : ndarray) (r0 r1 c0 c1 : Z) : ndarray :=
  let rs := py_slice (rows m) r0 r1 in
  let a := py_bound (Z.of_nat (shape1 m)) c0 in
  let b := py_bound (Z.of_nat (shape1 m)) c1 in
  mk_ndarray (length rs) (Z.to_nat (b - a))
    (map (fun r => py_slice r c0 c1) rs).

(** [np.flip(m, axis=0)] and [np.flip(m, axis=1)] *)
Definition flip0 (m : ndarray) : ndarray :=
  mk_ndarray (shape0 m) (shape1 m) (rev (rows m)).
Definition flip1 (m : ndarray) : ndarray :=
  mk_ndarray (shape0 m) (shape1 m) (map (@rev F) (rows m)).

(** [np.where(c, x, y)] for three arrays of one shape.  Arrays of different
    shapes raise [ValueError]; numpy would still broadcast a shape with a
    dimension 1, which the square blocks this is applied to do not have. *)
Definition np_where (c x y : ndarray) : result ndarray :=
  if (shape0 c =? shape0 x)%nat && (shape1 c =? shape1 x)%nat
     && (shape0 c =? shape0 y)%nat && (shape1 c =? shape1 y)%nat
  then Ok (mk_ndarray (shape0 c) (shape1 c)
             (map (fun i => map (fun j =>
                     if truthy (entry c i j) then entry x i j else entry y i j)
                   (seq 0 (shape1 c)))
                (seq 0 (shape0 c))))
  else Raise ValueError.

(** Two blocks side by side, and one above the other. *)
Definition happ (a b : ndarray) : ndarray :=
  mk_ndarray (shape0 a) (shape1 a + shape1 b) (zip_with app (rows a) (rows b)).
Definition vapp (a b : ndarray) : ndarray :=
  mk_ndarray (shape0 a + shape0 b) (shape1 a) (rows a ++ rows b).

(** [np.hstack(ms)] on two-dimensional arrays: an empty list and arrays of
    different heights raise [ValueError]. *)
Fixpoint np_hstack (ms : list ndarray) : result ndarray :=
  match ms with
  | [] => Raise ValueError
  | [m] => Ok m
  | m :: ms' =>
      r ← np_hstack ms';
      if (shape0 m =? shape0 r)%nat then Ok (happ m r) else Raise ValueError
  end.

(** [np.vstack(ms)] *)
Fixpoint np_vstack (ms : list ndarray) : result ndarray :=
  match ms with
  | [] => Raise ValueError
  | [m] => Ok m
  | m :: ms' =>
      r ← np_vstack ms';
      if (shape1 m =? shape1 r)%nat then Ok (vapp m r) else Raise ValueError
  end.

(** [np.hstack(vs)] on one-dimensional arrays *)
Definition np_hstack1 (vs : list (list F)) : result (list F) :=
  match vs with
  | [] => Raise ValueError
  | _ => Ok (concat vs)
  end.

(** [m * v] for a two-dimensional [m] and a one-dimensional [v], with
    numpy's broadcasting of the last axis. *)
Definition np_mul_2d_1d (m : ndarray) (v : list F) : result ndarray :=
  if (shape1 m =? length v)%nat then
    Ok (mk_ndarray (shape0 m) (shape1 m) (map (fun r => zip_with dmul r v) (rows m)))
  else match v with
  | [x] => Ok (mk_ndarray (shape0 m) (shape1 m)
                 (map (fun r => map (fun y => dmul y x) r) (rows m)))
  | _ =>
      if (shape1 m =? 1)%nat then
        Ok (mk_ndarray (shape0 m) (length v)
              (map (fun r => map (fun x => dmul (default dzero (r !! 0%nat)) x) v)
                   (rows m)))
      else Raise ValueError
  end.

End NDArray.
Arguments ndarray F : clear implicits.

(** ** A heap of numpy arrays

    Arrays are objects with identity: a buffer on the heap, and array objects
    that view a buffer, possibly transposed ([x.T] shares the buffer of [x]).
    Allocation appends to the heap, so a location is an index into it. *)

Section Heap.
Context {F : Type} `{Dtype F}.

Inductive buffer : Type :=
  | Buf1 (v : list F)
  | Buf2 (m : ndarray F).

Local Abbreviation heap := (list buffer).

Record aref : Type := mk_aref {
  base : nat;
  transposed : bool;
}.

Definition alloc (h : heap) (b : buffer) : aref * heap :=
  (mk_aref (length h) false, h ++ [b]).

(** The two-dimensional array an object denotes. *)
Definition deref2 (h : heap) (a : aref) : result (ndarray F) :=
  match h !! base a with
  | Some (Buf2 m) => Ok (if transposed a then transpose m else m)
  | Some (Buf1 _) => Raise TypeError
  | None => Raise KeyError
  end.

(** The one-dimensional array an object denotes ([v.T] is [v]). *)
Definition deref1 (h : heap) (a : aref) : result (list F) :=
  match h !! base a with
  | Some (Buf1 v) => Ok v
  | Some (Buf2 _) => Raise TypeError
  | None => Raise KeyError
  end.

(** [x.T]: a view, nothing is allocated. *)
Definition array_T (a : aref) : aref :=
  mk_aref (base a) (negb (transposed a)).

(** [np.copy(x)]: a fresh buffer with the contents of [x]. *)
Definition np_copy (a : aref) (h : heap) : result (aref * heap) :=
  m ← deref2 h a;
  Ok (alloc h (Buf2 m)).

(** [x * w]: the product is a new array; neither operand is written. *)
Definition np_multiply (a w : aref) (h : heap) : result (aref * heap) :=
  m ← deref2 h a;
  v ← deref1 h w;
  r ← np_mul_2d_1d m v;
  Ok (alloc h (Buf2 r)).

(** [ContactMatrixFacet.apply_cooler_balance_to_dense_matrix] *)
Definition apply_cooler_balance_to_dense_matrix
    (dense_matrix row_weights col_weights : aref) (inplace : bool)
    (h : heap) : result (aref * heap) :=
  '(result, h) ← (if inplace then Ok (dense_matrix, h) else np_copy dense_matrix h);
  '(result, h) ← np_multiply result col_weights h;
  '(result, h) ← np_multiply (array_T result) row_weights h;
  Ok (array_T result, h).

(** The contents of the returned array, when the call returns. *)
Definition returned_matrix (r : result (aref * heap)) : result (ndarray F) :=
  '(a, h) ← r; deref2 h a.

(** The array the call computes, read off the code: the two products and the
    two transpositions, on the contents of the three arguments. *)
Definition balance (m : ndarray F) (wr wc : list F) : result (ndarray F) :=
  r1 ← np_mul_2d_1d m wc;
  r2 ← np_mul_2d_1d (transpose r1) wr;
  Ok (transpose r2).

End Heap.
Arguments buffer F : clear implicits.
Abbreviation heap F := (list (buffer F)).

(** ** Enumerations of [hict/core/common.py] *)

(** Modelled from the spec: [common.py] is not among the sources.  The code
    flips a direction with [ATUDirection(1 - d.value)] and builds
    [ContigDirection(1)] for the AGP symbol [+], which the specification reads
    as Forward; so Forward has value 1 and Reversed value 0. *)
Inductive ATUDirection : Type := ATU_REVERSED | ATU_FORWARD.
Inductive ContigDirection : Type := CTG_REVERSED | CTG_FORWARD.

Definition ATUDirection_value (d : ATUDirection) : Z :=
  match d with ATU_REVERSED => 0 | ATU_FORWARD => 1 end.
Definition ATUDirection_of_value (v : Z) : result ATUDirection :=
  if v =? 0 then Ok ATU_REVERSED
  else if v =? 1 then Ok ATU_FORWARD else Raise ValueError.
Definition ContigDirection_of_value (v : Z) : result ContigDirection :=
  if v =? 0 then Ok CTG_REVERSED
  else if v =? 1 then Ok CTG_FORWARD else Raise ValueError.

(** Modelled from the spec: the four presence values of a contig at a
    resolution. *)
Inductive ContigHideType : Type :=
  | AUTO_HIDDEN | AUTO_SHOWN | FORCED_HIDDEN | FORCED_SHOWN.

Inductive QueryLengthUnit : Type := BASE_PAIRS | BINS | PIXELS.

Inductive FileState : Type := CLOSED | OPENED | INCORRECT.

#[global] Instance ATUDirection_eq_dec : EqDecision ATUDirection.
Proof. solve_decision. Defined.
#[global] Instance ContigDirection_eq_dec : EqDecision ContigDirection.
Proof. solve_decision. Defined.
#[global] Instance ContigHideType_eq_dec : EqDecision ContigHideType.
Proof. solve_decision. Defined.
#[global] Instance QueryLengthUnit_eq_dec : EqDecision QueryLengthUnit.
Proof. solve_decision. Defined.
#[global] Instance FileState_eq_dec : EqDecision FileState.
Proof. solve_decision. Defined.

(** A value stored in a per-resolution length dictionary.  Python does not type
    the dictionary, and [split_contig_at_bin] stores both integers and
    [ContigHideType] members in it. *)
Inductive pyval : Type :=
  | PyInt (z : Z)
  | PyHide (h : ContigHideType).

#[global] Instance pyval_eq_dec : EqDecision pyval.
Proof. solve_decision. Defined.

(** An integer read from such a dictionary; arithmetic on an enum member
    raises [TypeError]. *)
Definition py_as_int (v : pyval) : result Z :=
  match v with PyInt z => Ok z | PyHide _ => Raise TypeError end.

(** ** Descriptors *)

Section Descriptors.
Context {F : Type} `{Dtype F}.

(** Modelled from the spec: the stripe record of [common.py]. *)
Record StripeDescriptor : Type := mk_stripe {
  stripe_id : Z;
  stripe_length_bins : Z;
  bin_weights : list F;
}.

(** Modelled from the spec: the ATU record of [common.py]. *)
Record ATUDescriptor : Type := make_atu_descriptor {
  stripe_descriptor : StripeDescriptor;
  start_index_in_stripe_incl : Z;
  end_index_in_stripe_excl : Z;
  direction : ATUDirection;
}.

#[global] Instance StripeDescriptor_eq_dec : EqDecision StripeDescriptor.
Proof. solve_decision. Defined.
#[global] Instance ATUDescriptor_eq_dec : EqDecision ATUDescriptor.
Proof. solve_decision. Defined.

(** [atu.end_index_in_stripe_excl - atu.start_index_in_stripe_incl] *)
Definition atu_length (a : ATUDescriptor) : Z :=
  end_index_in_stripe_excl a - start_index_in_stripe_incl a.

Definition atus_length (l : list ATUDescriptor) : Z :=
  py_sum (map atu_length l).

(** [ATUDirection(1 - atu.direction.value)] *)
Definition flip_direction (d : ATUDirection) : result ATUDirection :=
  ATUDirection_of_value (1 - ATUDirection_value d).

(** Modelled from the spec: "two ATUs are fusible when they reference the same
    stripe in the same direction and their index intervals are contiguous". *)
Definition fusible (a b : ATUDescriptor) : bool :=
  (stripe_id (stripe_descriptor a) =? stripe_id (stripe_descriptor b))
  && bool_decide (direction a = direction b)
  && (end_index_in_stripe_excl a =? start_index_in_stripe_incl b).

Definition fuse (a b : ATUDescriptor) : ATUDescriptor :=
  make_atu_descriptor (stripe_descriptor a) (start_index_in_stripe_incl a)
    (end_index_in_stripe_excl b) (direction a).

(** Modelled from the spec: [ATUDescriptor.reduce], "walk the list once; merge
    two adjacent ATUs iff they reference the same stripe with the same
    direction and are index-contiguous". *)
Fixpoint reduce_from (cur : ATUDescriptor) (l : list ATUDescriptor)
    : list ATUDescriptor :=
  match l with
  | [] => [cur]
  | b :: l' =>
      if fusible cur b then reduce_from (fuse cur b) l'
      else cur :: reduce_from b l'
  end.
Definition ATUDescriptor_reduce (l : list ATUDescriptor) : list ATUDescriptor :=
  match l with
  | [] => []
  | a :: l' => reduce_from a l'
  end.

(** Modelled from the spec: the contig record of [common.py].  The lengths carry
    the length in base pairs under resolution 0, as the code reads it
    ([contig_length_at_resolution[0]]). *)
Record ContigDescriptor : Type := mk_contig {
  contig_id : Z;
  contig_name : string;
  contig_length_at_resolution : gmap Z pyval;
  presence_in_resolution : gmap Z ContigHideType;
  atus : gmap Z (list ATUDescriptor);
  atu_prefix_sum_length_bins : gmap Z (list Z);
  contig_name_in_source_fasta : string;
  offset_inside_fasta_contig : Z;
}.

(** Modelled from the spec: [ContigDescriptor.make_contig_descriptor], with the
    arguments in the order [split_contig_at_bin] passes them.  The prefix sums
    are "cumulative ATU lengths in source order". *)
Definition make_contig_descriptor
    (contig_id : Z) (contig_name : string) (contig_length_bp : pyval)
    (contig_length_at_resolution : gmap Z pyval)
    (contig_presence_in_resolution : gmap Z ContigHideType)
    (atus : gmap Z (list ATUDescriptor))
    (contig_name_in_source_fasta : string) (offset_inside_fasta_contig : Z)
    : ContigDescriptor :=
  mk_contig contig_id contig_name
    (<[0 := contig_length_bp]> contig_length_at_resolution)
    contig_presence_in_resolution
    atus
    ((fun l => np_cumsum (map atu_length l)) <$> atus)
    contig_name_in_source_fasta offset_inside_fasta_contig.

(** ** The contig tree *)

(** Modelled from the spec: [contig_tree.py] is not among the sources.  The tree
    is "an implicit-key order-statistic tree keyed by position", whose i-th
    in-order node is the contig at position i; the model is that in-order
    sequence, with every lazy reversal pushed, so that a node "reads its own
    direction directly".  An empty subtree is Python's [None]. *)
Record Node : Type := make_new_node_from_descriptor {
  contig_descriptor : ContigDescriptor;
  node_direction : ContigDirection;
}.

Local Abbreviation ContigTree := (list Node).

(** [node.true_direction()] *)
Definition true_direction (n : Node) : ContigDirection := node_direction n.

(** Modelled from the spec: a contig is hidden at a resolution when its presence
    there is AutoHidden ("skipping nodes whose presence-at-resolution is
    AutoHidden"; a pixel is "a bin that is currently shown (not
    auto-hidden)"). *)
Definition is_hidden (p : ContigHideType) : bool :=
  bool_decide (p = AUTO_HIDDEN).

(** The contribution of one node to the size in bins (hidden contigs
    included; resolution 0 holds base pairs). *)
Definition node_length_bins (resolution : Z) (n : Node) : result Z :=
  v ← py_getitem (contig_length_at_resolution (contig_descriptor n)) resolution;
  py_as_int v.

(** The contribution of one node to the size in pixels: hidden contigs
    "contribute to bin counts but not pixel counts". *)
Definition node_length_px (resolution : Z) (n : Node) : result Z :=
  p ← py_getitem (presence_in_resolution (contig_descriptor n)) resolution;
  if is_hidden p then Ok 0 else node_length_bins resolution n.

Definition node_length (units : QueryLengthUnit) (resolution : Z) (n : Node)
    : result Z :=
  match units with
  | PIXELS => node_length_px resolution n
  | _ => node_length_bins resolution n
  end.

(** The cached aggregate of a subtree in one unit: "own contribution + left +
    right". *)
Definition subtree_length (units : QueryLengthUnit) (resolution : Z)
    (t : ContigTree) : result Z :=
  sizes ← mapM (node_length units resolution) t;
  Ok (py_sum sizes).

(** [t.get_sizes()[0][resolution]] and [t.get_sizes()[2][resolution]], chosen as
    the code does by [2 if exclude_hidden_contigs else 0]. *)
Definition get_sizes_at (exclude_hidden_contigs : bool) (resolution : Z)
    (t : ContigTree) : result Z :=
  subtree_length (if exclude_hidden_contigs then PIXELS else BINS) resolution t.

(** [t.get_sizes()[1]]: the number of nodes of the subtree, which
    [split_contig_at_bin] compares with 1. *)
Definition get_sizes_count (t : ContigTree) : Z := Z.of_nat (length t).

Record ExposedSegment : Type := mk_exposed {
  less : ContigTree;
  segment : ContigTree;
  greater : ContigTree;
}.

(** The longest prefix of the contigs that ends at or before [start]; returns
    it with the rest and the position at which the rest begins. *)
Fixpoint split_less (start acc : Z) (l : list (Node * Z))
    : list Node * list (Node * Z) * Z :=
  match l with
  | [] => ([], [], acc)
  | (n, sz) :: l' =>
      if acc + sz <=? start then
        let '(a, b, c) := split_less start (acc + sz) l' in (n :: a, b, c)
      else ([], l, acc)
  end.

(** The contigs of [l], which begins at [acc], that begin before [end_]. *)
Fixpoint split_segment (end_ acc : Z) (l : list (Node * Z))
    : list Node * list Node :=
  match l with
  | [] => ([], [])
  | (n, sz) :: l' =>
      if acc <? end_ then
        let '(a, b) := split_segment end_ (acc + sz) l' in (n :: a, b)
      else ([], map fst l)
  end.

(** Modelled from the spec: [ContigTree.expose_segment], "two splits; segment
    exposes exactly the contigs covering [start, end) in the chosen unit".
    Contigs wholly before [start] go to [less], those that begin at or after
    [end] to [greater]; an empty range covers no contig. *)
Definition expose_segment (t : ContigTree) (resolution start_incl end_excl : Z)
    (units : QueryLengthUnit) : result ExposedSegment :=
  sizes ← mapM (node_length units resolution) t;
  let '(l, rest, pos) := split_less start_incl 0 (zip t sizes) in
  if end_excl <=? start_incl then Ok (mk_exposed l [] (map fst rest))
  else
    let '(s, g) := split_segment end_excl pos rest in
    Ok (mk_exposed l s g).

(** Modelled from the spec: [commit_exposed_segment], "two merges, restoring the
    tree". *)
Definition commit_exposed_segment (es : ExposedSegment) : ContigTree :=
  less es ++ segment es ++ greater es.

(** Modelled from the spec: [traverse_nodes_at_resolution], "in-order visit,
    pushing lazy reversals, skipping nodes whose presence-at-resolution is
    AutoHidden when exclude_hidden is true".  Returns the visited nodes. *)
Definition node_visited (resolution : Z) (exclude_hidden : bool) (n : Node)
    : result bool :=
  if exclude_hidden then
    p ← py_getitem (presence_in_resolution (contig_descriptor n)) resolution;
    Ok (negb (is_hidden p))
  else Ok true.

Fixpoint traverse_nodes_at_resolution (t : ContigTree) (resolution : Z)
    (exclude_hidden : bool) : result (list Node) :=
  match t with
  | [] => Ok []
  | n :: t' =>
      keep ← node_visited resolution exclude_hidden n;
      rest ← traverse_nodes_at_resolution t' resolution exclude_hidden;
      Ok (if keep : bool then n :: rest else rest)
  end.

(** [t.leftmost()] and [t.rightmost()] of a subtree *)
Definition leftmost (t : ContigTree) : option Node := head t.
Definition rightmost (t : ContigTree) : option Node := last t.

End Descriptors.
Arguments StripeDescriptor F : clear implicits.
Arguments ATUDescriptor F : clear implicits.
Arguments ContigDescriptor F : clear implicits.
Arguments Node F : clear implicits.
Abbreviation ContigTree F := (list (Node F)).
Arguments ExposedSegment F : clear implicits.

(** ** The block store and the file object *)

(** Modelled from the spec: [scaffold_tree.py] is not among the sources.  The
    tree covers "disjoint, adjacent bp intervals totaling the assembly
    length"; the model is the in-order list of (scaffold name or gap, length in
    bp). *)
Abbreviation ScaffoldTree := (list (option string * Z)).

Section ChunkedFile.
Context {F : Type} `{Dtype F}.

(** The group [/resolutions/{R}/treap_coo] of the opened HDF5 file: the
    attribute [stripes_count] and the datasets the code reads.  The
    four-dimensional dataset [dense_blocks] is read only as
    [dense_blocks[i, 0, :, :]], so it is the list of those planes. *)
Record TreapCOO : Type := mk_treap_coo {
  stripes_count : Z;
  block_length : list Z;
  block_offset : list Z;
  block_rows : list Z;
  block_cols : list Z;
  block_vals : list F;
  dense_blocks : list (ndarray F);
}.

Definition total_assembly_length_bp (t : ScaffoldTree) : Z :=
  py_sum (map snd t).

(** The fields of [ChunkedFile] the modelled methods read or write. *)
Record ChunkedFile : Type := mk_chunked_file {
  state : FileState;
  resolutions : list Z;
  contig_tree : option (ContigTree F);
  scaffold_tree : option ScaffoldTree;
  contig_id_to_contig_descriptor : gmap Z (ContigDescriptor F);
  opened_hdf_file : gmap Z TreapCOO;
}.

(** [constrain_coordinate] *)
Definition constrain_coordinate (x_bins lower upper : Z) : Z :=
  Z.max (Z.min x_bins upper) lower.

(** [es.less.get_sizes()[...][resolution] if es.less is not None else 0] *)
Definition sizes_or_zero (exclude_hidden_contigs : bool) (resolution : Z)
    (t : ContigTree F) : result Z :=
  match t with
  | [] => Ok 0
  | _ => get_sizes_at exclude_hidden_contigs resolution t
  end.

(** The local function [traverse_fn] of [get_atus_for_range]: the ATUs of one
    visited node in assembly order. *)
Definition traverse_fn (resolution : Z) (node : Node F)
    : result (list (ATUDescriptor F)) :=
  contig_atus ← py_getitem (atus (contig_descriptor node)) resolution;
  match true_direction node with
  | CTG_REVERSED =>
      mapM (fun atu =>
              d ← flip_direction (direction atu);
              Ok (make_atu_descriptor (stripe_descriptor atu)
                    (start_index_in_stripe_incl atu)
                    (end_index_in_stripe_excl atu) d))
           (rev contig_atus)
  | CTG_FORWARD => Ok contig_atus
  end.

Definition atu_nonempty (a : ATUDescriptor F) : bool :=
  start_index_in_stripe_incl a <? end_index_in_stripe_excl a.

(** The left trim of [get_atus_for_range], in two steps: the prefix sums of the
    leftmost contig, adjusted to its orientation; then the ATU that holds the
    start of the query is cut and the ATUs before it are dropped. *)
Definition first_contig_prefix_sum (resolution : Z)
    (first_contig_node_in_segment : Node F) : result (list Z) :=
  let first_contig_in_segment := contig_descriptor first_contig_node_in_segment in
  ps ← py_getitem (atu_prefix_sum_length_bins first_contig_in_segment) resolution;
  match node_direction first_contig_node_in_segment with
  | CTG_REVERSED => flip_prefix_sum ps
  | CTG_FORWARD => Ok ps
  end.

Definition cut_left (ps : list Z) (delta : Z) (atus_ : list (ATUDescriptor F))
    : result (list (ATUDescriptor F)) :=
  let index_of_atu_containing_start := searchsorted_right ps delta in
  _ ← py_assert (index_of_atu_containing_start <? Z.of_nat (length ps))
        "Start of query does not fall into exposed leftmost contig??";
  length_of_atus_before ←
    (if 0 <? index_of_atu_containing_start
     then py_index ps (index_of_atu_containing_start - 1) else Ok 0);
  old_first_atu ← py_index atus_ index_of_atu_containing_start;
  _ ← py_assert (atu_nonempty old_first_atu) "Incorrect old first ATU??";
  new_first_atu ←
    (match direction old_first_atu with
     | ATU_FORWARD =>
         let a := make_atu_descriptor (stripe_descriptor old_first_atu)
                    (start_index_in_stripe_incl old_first_atu
                     + (delta - length_of_atus_before))
                    (end_index_in_stripe_excl old_first_atu)
                    (direction old_first_atu) in
         _ ← py_assert ((0 <=? start_index_in_stripe_incl a)
                         && (start_index_in_stripe_incl a
                             <? stripe_length_bins (stripe_descriptor a)))
               "Incorrect first ATU left border??";
         _ ← py_assert (atu_nonempty a) "Incorrect new first ATU??";
         Ok a
     | ATU_REVERSED =>
         let a := make_atu_descriptor (stripe_descriptor old_first_atu)
                    (start_index_in_stripe_incl old_first_atu)
                    (end_index_in_stripe_excl old_first_atu
                     - (delta - length_of_atus_before))
                    (direction old_first_atu) in
         _ ← py_assert (0 <=? end_index_in_stripe_excl a)
               "Negative right border of new reversed ATU??";
         _ ← py_assert ((0 <=? start_index_in_stripe_incl a)
                         && (start_index_in_stripe_incl a
                             <? stripe_length_bins (stripe_descriptor a)))
               "Incorrect first ATU left border??";
         _ ← py_assert (atu_nonempty a) "Incorrect new first ATU??";
         Ok a
     end);
  atus_ ← py_setitem atus_ index_of_atu_containing_start new_first_atu;
  Ok (py_slice_from atus_ index_of_atu_containing_start).

Definition trim_left (resolution : Z) (first_contig_node_in_segment : Node F)
    (delta : Z) (atus_ : list (ATUDescriptor F))
    : result (list (ATUDescriptor F)) :=
  ps ← first_contig_prefix_sum resolution first_contig_node_in_segment;
  cut_left ps delta atus_.

(** The right trim of [get_atus_for_range], in the same two steps. *)
Definition last_contig_prefix_sum (resolution : Z) (last_contig_node : Node F)
    : result (list Z) :=
  ps ← py_getitem (atu_prefix_sum_length_bins (contig_descriptor last_contig_node))
         resolution;
  match node_direction last_contig_node with
  | CTG_FORWARD => flip_prefix_sum ps
  | CTG_REVERSED => Ok ps
  end.

Definition cut_right (ps : list Z) (delta_between_right_px_and_exposed_segment : Z)
    (atus_ : list (ATUDescriptor F)) : result (list (ATUDescriptor F)) :=
  let right_offset_atus :=
    searchsorted_right ps (- delta_between_right_px_and_exposed_segment) in
  '(atus_, deleted_atus_length) ←
    (if 0 <? right_offset_atus then
       d ← py_index ps (right_offset_atus - 1);
       Ok (py_slice_to atus_ (- right_offset_atus), d)
     else Ok (atus_, 0));
  old_last_atu ← py_index atus_ (-1);
  _ ← py_assert (atu_nonempty old_last_atu) "Incorrect old last ATU??";
  match direction old_last_atu with
  | ATU_FORWARD =>
      let a := make_atu_descriptor (stripe_descriptor old_last_atu)
                 (start_index_in_stripe_incl old_last_atu)
                 (end_index_in_stripe_excl old_last_atu
                  + (deleted_atus_length + delta_between_right_px_and_exposed_segment))
                 (direction old_last_atu) in
      _ ← py_assert ((end_index_in_stripe_excl a
                       <=? stripe_length_bins (stripe_descriptor a))
                      && (start_index_in_stripe_incl a <? end_index_in_stripe_excl a))
            "Incorrect ATU right border??";
      atus_ ← py_setitem atus_ (-1) a;
      _ ← py_assert (atu_nonempty a) "Incorrect new last ATU??";
      Ok atus_
  | ATU_REVERSED =>
      let a := make_atu_descriptor (stripe_descriptor old_last_atu)
                 (start_index_in_stripe_incl old_last_atu
                  - (deleted_atus_length + delta_between_right_px_and_exposed_segment))
                 (end_index_in_stripe_excl old_last_atu)
                 (direction old_last_atu) in
      _ ← py_assert (0 <=? start_index_in_stripe_incl a)
            "Negative left border of new reversed last ATU??";
      _ ← py_assert ((end_index_in_stripe_excl a
                       <=? stripe_length_bins (stripe_descriptor a))
                      && (start_index_in_stripe_incl a <? end_index_in_stripe_excl a))
            "Incorrect reversed ATU borders??";
      atus_ ← py_setitem atus_ (-1) a;
      _ ← py_assert (atu_nonempty a) "Incorrect new reversed last ATU??";
      Ok atus_
  end.

Definition trim_right (resolution : Z) (last_contig_node : Node F)
    (delta_between_right_px_and_exposed_segment : Z)
    (atus_ : list (ATUDescriptor F)) : result (list (ATUDescriptor F)) :=
  ps ← last_contig_prefix_sum resolution last_contig_node;
  cut_right ps delta_between_right_px_and_exposed_segment atus_.

(** [ChunkedFile.get_atus_for_range] *)
Definition get_atus_for_range (f : ChunkedFile) (resolution : Z)
    (start_px_incl end_px_excl : Z) (exclude_hidden_contigs : bool)
    : result (list (ATUDescriptor F)) :=
  match state f, contig_tree f with
  | OPENED, Some tree =>
      total_assembly_length ← get_sizes_at exclude_hidden_contigs resolution tree;
      let start_px_incl := constrain_coordinate start_px_incl 0 total_assembly_length in
      let end_px_excl := constrain_coordinate end_px_excl 0 total_assembly_length in
      es ← expose_segment tree resolution start_px_incl end_px_excl
             (if exclude_hidden_contigs then PIXELS else BINS);
      let query_length := end_px_excl - start_px_incl in
      if query_length <=? 0 then Ok []
      else
        '(result_atus, expected_total_length) ←
          (match segment es with
           | [] =>
               _ ← py_assert (query_length <=? 0)
                     "Query is not zero-length, but no ATUs were found?";
               Ok ([], None)
           | _ =>
               segment_size ← get_sizes_at exclude_hidden_contigs resolution (segment es);
               less_size ← sizes_or_zero exclude_hidden_contigs resolution (less es);
               let delta := start_px_incl - less_size in
               _ ← py_assert (0 <=? delta) "";
               total_segment_length_px ←
                 get_sizes_at exclude_hidden_contigs resolution (segment es);
               visited ← traverse_nodes_at_resolution (segment es) resolution
                           exclude_hidden_contigs;
               per_node ← mapM (traverse_fn resolution) visited;
               let atus_ := concat per_node in
               let total_exposed_atu_length := atus_length atus_ in
               _ ← py_assert (total_exposed_atu_length =? total_segment_length_px)
                     "ATUs total length is not equal to exposed segment length??";
               first_contig_node_in_segment ←
                 (match leftmost (segment es) with
                  | Some n => Ok n
                  | None => Raise (AssertionError
                              "Segment is not empty but has no leftmost contig??")
                  end);
               atus_ ← trim_left resolution first_contig_node_in_segment delta atus_;
               let delta_r := end_px_excl - (less_size + segment_size) in
               last_contig_node ←
                 (match rightmost (segment es) with
                  | Some n => Ok n
                  | None => Raise TypeError
                  end);
               atus_ ← trim_right resolution last_contig_node delta_r atus_;
               _ ← py_assert (forallb atu_nonempty atus_) "Incorrect ATUs before reduce??";
               let total_atu_length := atus_length atus_ in
               let expected_total_length :=
                 Z.min end_px_excl total_assembly_length - Z.max 0 start_px_incl in
               _ ← py_assert (total_atu_length =? expected_total_length)
                     "ATUs total length is not equal to the requested query's??";
               let result_atus := ATUDescriptor_reduce atus_ in
               _ ← py_assert (forallb atu_nonempty result_atus)
                     "Incorrect ATUs after reduce??";
               Ok (result_atus, Some expected_total_length)
           end);
        _ ← py_assert (bool_decide ((length result_atus <=? 0)%nat
                                     = (end_px_excl <=? start_px_incl)))
              "No row ATUs were fetched but query is correct??";
        let total_result_atu_length := atus_length result_atus in
        match expected_total_length with
        | None => Raise (UnboundLocalError "expected_total_length")
        | Some expected =>
            _ ← py_assert (total_result_atu_length =? expected)
                  "Resulting ATUs total length is not equal to the requested query??";
            Ok result_atus
        end
  | _, _ => Raise (AssertionError "File must be opened for reading ATUs")
  end.

End ChunkedFile.
Arguments TreapCOO F : clear implicits.
Arguments ChunkedFile F : clear implicits.

(** ** The submatrix assembler *)

Section Submatrix.
Context {F : Type} `{Dtype F}.

(** [process_flips] *)
Definition process_flips (mx_as_array : ndarray F)
    (row_atu col_atu : ATUDescriptor F) : ndarray F :=
  let mx_as_array :=
    match direction row_atu with
    | ATU_REVERSED => flip0 mx_as_array
    | ATU_FORWARD => mx_as_array
    end in
  match direction col_atu with
  | ATU_REVERSED => flip1 mx_as_array
  | ATU_FORWARD => mx_as_array
  end.

(** One more entry [(i, j, v)] of a sparse block: duplicates add up. *)
Definition coo_add (m : ndarray F) (i j : nat) (v : F) : ndarray F :=
  mk_ndarray (shape0 m) (shape1 m)
    (alter (alter (fun x => dadd x v) j) i (rows m)).

Fixpoint coo_fill (m : ndarray F) (triples : list (F * (Z * Z)))
    : result (ndarray F) :=
  match triples with
  | [] => Ok m
  | (v, (i, j)) :: rest =>
      if (0 <=? i) && (i <? Z.of_nat (shape0 m))
         && (0 <=? j) && (j <? Z.of_nat (shape1 m))
      then coo_fill (coo_add m (Z.to_nat i) (Z.to_nat j) v) rest
      else Raise ValueError
  end.

(** [coo_array((vals, (rows, cols)), shape=...).todense()]: the three arrays
    must have one length and the indices must lie within the shape, else scipy
    raises [ValueError]. *)
Definition coo_todense (vals : list F) (rows_ cols_ : list Z) (shape : Z * Z)
    : result (ndarray F) :=
  if negb ((length vals =? length rows_)%nat && (length vals =? length cols_)%nat)
  then Raise ValueError
  else
    z ← np_zeros (fst shape) (snd shape);
    coo_fill z (zip vals (zip rows_ cols_)).

(** The diagonal fix-up [np.where(mx, mx, mx.T)]. *)
Definition symmetrize (mx : ndarray F) : result (ndarray F) :=
  np_where mx mx (transpose mx).

(** The block of the store a pair of stripes is read from: [None] for an empty
    block, else the dense or the densified sparse block.  The stripes are
    given in the order the code has put them ([r <= c]). *)
Definition fetch_block (blocks_dir : TreapCOO F)
    (row_stripe col_stripe : StripeDescriptor F) : result (option (ndarray F)) :=
  let r := stripe_id row_stripe in
  let c := stripe_id col_stripe in
  let block_index_in_datasets := r * stripes_count blocks_dir + c in
  len ← py_index (block_length blocks_dir) block_index_in_datasets;
  if len =? 0 then Ok None
  else
    off ← py_index (block_offset blocks_dir) block_index_in_datasets;
    if off <? 0 then
      mx ← py_index (dense_blocks blocks_dir) (- (off + 1));
      Ok (Some mx)
    else
      let block_finish := off + len in
      mx ← coo_todense (py_slice (block_vals blocks_dir) off block_finish)
             (py_slice (block_rows blocks_dir) off block_finish)
             (py_slice (block_cols blocks_dir) off block_finish)
             (stripe_length_bins row_stripe, stripe_length_bins col_stripe);
      Ok (Some mx).

(** [get_stripe_intersection_for_atus_as_raw_dense_matrix] *)
Definition get_stripe_intersection_for_atus_as_raw_dense_matrix
    (f : ChunkedFile F) (resolution : Z) (row_atu col_atu : ATUDescriptor F)
    : result (ndarray F) :=
  let row_stripe := stripe_descriptor row_atu in
  let col_stripe := stripe_descriptor col_atu in
  let needs_transpose := stripe_id col_stripe <? stripe_id row_stripe in
  let '(row_stripe, col_stripe) :=
    if needs_transpose then (col_stripe, row_stripe) else (row_stripe, col_stripe) in
  blocks_dir ← py_getitem (opened_hdf_file f) resolution;
  block ← fetch_block blocks_dir row_stripe col_stripe;
  match block with
  | None =>
      np_zeros (end_index_in_stripe_excl row_atu - start_index_in_stripe_incl row_atu)
               (end_index_in_stripe_excl col_atu - start_index_in_stripe_incl col_atu)
  | Some mx_as_array =>
      mx_as_array ←
        (if stripe_id (stripe_descriptor row_atu) =? stripe_id (stripe_descriptor col_atu)
         then
           _ ← py_assert (bool_decide (stripe_descriptor row_atu = stripe_descriptor col_atu))
                 "Fetched stripe descriptors have the same ids, but are not equal??";
           symmetrize mx_as_array
         else Ok mx_as_array);
      let mx_as_array := if needs_transpose then transpose mx_as_array else mx_as_array in
      let mx_as_array :=
        slice2 mx_as_array
          (start_index_in_stripe_incl row_atu) (end_index_in_stripe_excl row_atu)
          (start_index_in_stripe_incl col_atu) (end_index_in_stripe_excl col_atu) in
      Ok (process_flips mx_as_array row_atu col_atu)
  end.

(** The weights of one ATU: [bin_weights[start:end]], flipped when reversed. *)
Definition atu_weights (atu : ATUDescriptor F) : list F :=
  let w := py_slice (bin_weights (stripe_descriptor atu))
             (start_index_in_stripe_incl atu) (end_index_in_stripe_excl atu) in
  match direction atu with
  | ATU_REVERSED => rev w
  | ATU_FORWARD => w
  end.

(** [get_atu_intersection] *)
Definition get_atu_intersection (f : ChunkedFile F) (resolution : Z)
    (row_atu col_atu : ATUDescriptor F)
    : result (ndarray F * list F * list F) :=
  atu_intersection_dense ←
    get_stripe_intersection_for_atus_as_raw_dense_matrix f resolution row_atu col_atu;
  Ok (atu_intersection_dense, atu_weights row_atu, atu_weights col_atu).

(** The state of the loop over [row_atus] in [get_submatrix]. *)
Record row_loop_state : Type := mk_row_loop {
  row_matrices : list (ndarray F);
  row_subweights : list (list F);
  row_subtotals : list (ndarray F * list F * list F);
}.

(** One iteration of the loop over [row_atus]. *)
Definition row_loop_body (f : ChunkedFile F) (resolution : Z)
    (col_atus : list (ATUDescriptor F)) (query_cols_count : Z)
    (st : row_loop_state) (row_atu : ATUDescriptor F) : result row_loop_state :=
  subtotals ← mapM (get_atu_intersection f resolution row_atu) col_atus;
  let row_submatrices := map (fun t => t.1.1) subtotals in
  if (0 <? length col_atus)%nat then
    _ ← py_assert (0 <? length subtotals)%nat "There were ATUs but no intersection??";
    first ← py_index row_submatrices 0;
    _ ← py_assert (forallb (fun sbm => (shape0 sbm =? shape0 first)%nat) row_submatrices)
          "Not all submatrices in row have the same row count??";
    _ ← py_assert (Z.of_nat (shape0 first) =? atu_length row_atu)
          "Row height is not equal to what ATU describes??";
    row ← np_hstack row_submatrices;
    first_total ← py_index subtotals 0;
    Ok (mk_row_loop (row_matrices st ++ [row])
          (row_subweights st ++ [first_total.1.2]) subtotals)
  else
    _ ← py_assert (query_cols_count <=? 0)
          "No column ATUs are present, but query is non-trivial for columns??";
    row ← np_zeros (atu_length row_atu) 0;
    Ok (mk_row_loop (row_matrices st ++ [row]) (row_subweights st) subtotals).

Fixpoint row_loop (f : ChunkedFile F) (resolution : Z)
    (col_atus : list (ATUDescriptor F)) (query_cols_count : Z)
    (st : row_loop_state) (row_atus : list (ATUDescriptor F))
    : result row_loop_state :=
  match row_atus with
  | [] => Ok st
  | row_atu :: rest =>
      st ← row_loop_body f resolution col_atus query_cols_count st row_atu;
      row_loop f resolution col_atus query_cols_count st rest
  end.

(** [ChunkedFile.get_submatrix] *)
Definition get_submatrix (f : ChunkedFile F) (resolution : Z)
    (start_row_incl start_col_incl end_row_excl end_col_excl : Z)
    (exclude_hidden_contigs : bool) : result (ndarray F * list F * list F) :=
  match contig_tree f with
  | None => Raise (AssertionError "Contig tree is not present?")
  | Some tree =>
      total_assembly_length ← get_sizes_at exclude_hidden_contigs resolution tree;
      let start_row_incl := constrain_coordinate start_row_incl 0 total_assembly_length in
      let end_row_excl := constrain_coordinate end_row_excl 0 total_assembly_length in
      let start_col_incl := constrain_coordinate start_col_incl 0 total_assembly_length in
      let end_col_excl := constrain_coordinate end_col_excl 0 total_assembly_length in
      row_atus ← get_atus_for_range f resolution start_row_incl end_row_excl
                   exclude_hidden_contigs;
      col_atus ← get_atus_for_range f resolution start_col_incl end_col_excl
                   exclude_hidden_contigs;
      let query_rows_count := end_row_excl - start_row_incl in
      let query_cols_count := end_col_excl - start_col_incl in
      _ ← (if (start_row_incl <? end_row_excl) && (0 <=? start_row_incl)
              && (start_row_incl <? total_assembly_length)
           then py_assert (0 <? length row_atus)%nat
                  "Query is correct but no rows were found??"
           else Ok tt);
      _ ← (if (start_col_incl <? end_col_excl) && (0 <=? start_col_incl)
              && (start_col_incl <? total_assembly_length)
           then py_assert (0 <? length col_atus)%nat
                  "Query is correct but no columns were found??"
           else Ok tt);
      st ← row_loop f resolution col_atus query_cols_count (mk_row_loop [] [] []) row_atus;
      row_weights ←
        (if (0 <? length (row_subweights st))%nat then np_hstack1 (row_subweights st)
         else np_ones (Z.max 0 query_rows_count));
      let col_subweights := map (fun t => t.2) (row_subtotals st) in
      col_weights ←
        (if (0 <? length col_subweights)%nat then np_hstack1 col_subweights
         else np_ones (Z.max 0 query_cols_count));
      res ←
        (if (0 <? query_rows_count) && (0 <? query_cols_count) then
           r ← np_vstack (row_matrices st);
           _ ← py_assert (0 <? length (row_subweights st))%nat
                 "No row weights were fetched, but query is non-trivial for rows??";
           _ ← py_assert (0 <? length col_subweights)%nat
                 "No column weights were fetched, but query is non-trivial for columns??";
           Ok r
         else np_zeros (Z.max 0 query_rows_count) (Z.max 0 query_cols_count));
      _ ← py_assert (Z.of_nat (shape0 res) =? end_row_excl - start_row_incl)
            "Row count is not as queried??";
      _ ← py_assert (Z.of_nat (shape1 res) =? end_col_excl - start_col_incl)
            "Column count is not as queried??";
      _ ← py_assert (Z.of_nat (length row_weights) =? end_row_excl - start_row_incl)
            "Row weights count is not as queried??";
      _ ← py_assert (Z.of_nat (length col_weights) =? end_col_excl - start_col_incl)
            "Column weights count is not as queried??";
      Ok (res, row_weights, col_weights)
  end.

End Submatrix.

(** ** The facade: [ContactMatrixFacet] *)

Section Facade.
Context {F : Type} `{Dtype F}.

(** [ContigTree.expose_segment_by_length] is not among the sources and the
    specification does not describe it; the facade is stated for any such
    method. *)
Variable expose_segment_by_length :
  ContigTree F -> Z -> Z -> Z -> result (ExposedSegment F).

(** [resolution in f.resolutions] *)
Definition resolution_stored (f : ChunkedFile F) (resolution : Z) : bool :=
  bool_decide (resolution ∈ resolutions f).

(** [a // b] *)
Definition py_floordiv (a b : Z) : result Z :=
  if b =? 0 then Raise (PyException "ZeroDivisionError") else Ok (a / b).

(** [get_px_by_bp], of whose result the caller reads [global_position_px];
    the exposed segment is committed back to the tree. *)
Definition get_px_by_bp (f : ChunkedFile F) (x0_bp resolution : Z)
    : result (Z * ChunkedFile F) :=
  match contig_tree f with
  | None => Raise (AssertionError "Contig tree is not present?")
  | Some ct =>
      es_x0 ← expose_segment_by_length ct x0_bp x0_bp 0;
      less_bp ← sizes_or_zero false 0 (less es_x0);
      let x0_in_contig_position_bp := x0_bp - less_bp in
      x0_in_contig_position_bins ← py_floordiv (x0_in_contig_position_bp - 1) resolution;
      ls_size_bins ← sizes_or_zero false resolution (less es_x0);
      ls_size_px ← sizes_or_zero true resolution (less es_x0);
      let x0_position_px := ls_size_px + x0_in_contig_position_bins in
      _ ← sizes_or_zero false resolution (greater es_x0);
      _ ← sizes_or_zero true resolution (greater es_x0);
      Ok (x0_position_px,
          mk_chunked_file (state f) (resolutions f)
            (Some (commit_exposed_segment es_x0)) (scaffold_tree f)
            (contig_id_to_contig_descriptor f) (opened_hdf_file f))
  end.

(** [ContactMatrixFacet.get_dense_submatrix]; the file object is returned with
    the result because the base-pair branch commits to the contig tree. *)
Definition get_dense_submatrix (f : ChunkedFile F) (resolution x0 y0 x1 y1 : Z)
    (units : QueryLengthUnit) (exclude_hidden_contigs : bool)
    : result (ndarray F * list F * list F * ChunkedFile F) :=
  if negb (resolution_stored f resolution) then Raise IncorrectResolution
  else
    match units with
    | BASE_PAIRS =>
        '(x0_px, f) ← get_px_by_bp f x0 resolution;
        '(x1_px, f) ← get_px_by_bp f x1 resolution;
        '(y0_px, f) ← get_px_by_bp f y0 resolution;
        '(y1_px, f) ← get_px_by_bp f y1 resolution;
        r ← get_submatrix f resolution x0_px y0_px (1 + x1_px) (1 + y1_px)
              exclude_hidden_contigs;
        Ok (r, f)
    | _ =>
        r ← get_submatrix f resolution x0 y0 x1 y1
              (exclude_hidden_contigs || bool_decide (units = PIXELS));
        Ok (r, f)
    end.

End Facade.

(** ** Unit conversion and contig split *)

Section Split.
Context {F : Type} `{Dtype F}.

(** [t.get_sizes()[i][resolution]] as [convert_units] indexes it, with
    [i = {BASE_PAIRS: 0, BINS: 1, PIXELS: 2}[units]].  Component 0 holds the
    sizes in bins (base pairs under resolution 0) and component 2 the sizes in
    pixels; component 1 is the node count ([split_contig_at_bin] asserts
    [segment_sizes[1] == 1] and reports it as a number of nodes), and
    subscripting a number raises. *)
Definition get_sizes_item (t : ContigTree F) (units : QueryLengthUnit)
    (resolution : Z) : result Z :=
  match units with
  | BASE_PAIRS => get_sizes_at false resolution t
  | BINS => Raise TypeError
  | PIXELS => get_sizes_at true resolution t
  end.

(** [ChunkedFile.convert_units] *)
Definition convert_units (f : ChunkedFile F) (position from_resolution : Z)
    (from_units : QueryLengthUnit) (to_resolution : Z) (to_units : QueryLengthUnit)
    : result Z :=
  match state f, contig_tree f with
  | OPENED, Some tree =>
      _ ← py_assert (bool_decide (bool_decide (from_units = BASE_PAIRS)
                                   = (from_resolution =? 0)))
            "If converting from base pairs, set from_resolution=0";
      _ ← py_assert (bool_decide (bool_decide (to_units = BASE_PAIRS)
                                   = (to_resolution =? 0)))
            "If converting to base pairs, set to_resolution=0";
      es ← expose_segment tree from_resolution position (position + 1) from_units;
      '(left_from_units, left_to_units) ←
        (match less es with
         | [] => Ok (0, 0)
         | _ =>
             a ← get_sizes_item (less es) from_units from_resolution;
             b ← get_sizes_item (less es) to_units to_resolution;
             Ok (a, b)
         end);
      let delta_from_units := position - left_from_units in
      let delta_bp :=
        if bool_decide (from_units = BASE_PAIRS) then delta_from_units
        else delta_from_units * from_resolution in
      delta_to_units ←
        (if bool_decide (to_units = BASE_PAIRS) then Ok delta_bp
         else py_floordiv delta_bp to_resolution);
      Ok (left_to_units + delta_to_units)
  | _, _ => Raise (AssertionError "Operation requires file to be opened")
  end.

(** [min(l)] and [max(l)] of a list; an empty list raises [ValueError]. *)
Definition py_min (l : list Z) : result Z :=
  match l with [] => Raise ValueError | x :: xs => Ok (foldr Z.min x xs) end.
Definition py_max (l : list Z) : result Z :=
  match l with [] => Raise ValueError | x :: xs => Ok (foldr Z.max x xs) end.

(** Python's [+], [-], [*] and [>=] on values that should be integers. *)
Definition py_sub (a b : pyval) : result pyval :=
  x ← py_as_int a; y ← py_as_int b; Ok (PyInt (x - y)).
Definition py_ge (a : pyval) (b : Z) : result bool :=
  x ← py_as_int a; Ok (b <=? x).

(** The local function [copy_true_atu] of [split_contig_at_bin]. *)
Definition copy_true_atu (atu : ATUDescriptor F) (contig_direction : ContigDirection)
    : result (ATUDescriptor F) :=
  match contig_direction with
  | CTG_REVERSED =>
      d ← flip_direction (direction atu);
      Ok (make_atu_descriptor (stripe_descriptor atu) (start_index_in_stripe_incl atu)
            (end_index_in_stripe_excl atu) d)
  | CTG_FORWARD => Ok atu
  end.

(** What one iteration of the loop over [self.resolutions] stores under the
    key [resolution]: the two length entries, the two presence entries (absent
    when the branch does not assign them) and the two ATU lists. *)
Record split_entry : Type := mk_split_entry {
  new_length_l : pyval;
  new_length_r : pyval;
  new_presence_l : option ContigHideType;
  new_presence_r : option ContigHideType;
  new_atus_l : list (ATUDescriptor F);
  new_atus_r : list (ATUDescriptor F);
}.

(** The body of the loop over [self.resolutions] in [split_contig_at_bin]. *)
Definition split_at_resolution (f : ChunkedFile F) (node : Node F)
    (min_resolution delta_from_contig_start : Z)
    (new_contig_length_bps : pyval * pyval) (resolution : Z) : result split_entry :=
  let old_contig := contig_descriptor node in
  delta_from_start_at_resolution ←
    convert_units f delta_from_contig_start min_resolution BINS resolution BINS;
  old_length ← py_getitem (contig_length_at_resolution old_contig) resolution;
  '(len_l, len_r) ←
    (if resolution =? min_resolution then
       r ← py_sub old_length (PyInt delta_from_contig_start);
       r ← py_sub r (PyInt 1);
       Ok (PyInt delta_from_contig_start, r)
     else
       r ← py_sub old_length (PyInt delta_from_start_at_resolution);
       Ok (PyInt delta_from_start_at_resolution, r));
  old_atus ← py_getitem (atus old_contig) resolution;
  source_atus ← mapM (fun a => copy_true_atu a (node_direction node)) old_atus;
  source_atus_prefix_sum ← py_getitem (atu_prefix_sum_length_bins old_contig) resolution;
  '(source_atus_prefix_sum, source_atus) ←
    (match node_direction node with
     | CTG_REVERSED =>
         ps ← flip_prefix_sum source_atus_prefix_sum;
         Ok (ps, rev source_atus)
     | CTG_FORWARD => Ok (source_atus_prefix_sum, source_atus)
     end);
  let index_of_atu_where_split_occurs :=
    searchsorted_left source_atus_prefix_sum delta_from_start_at_resolution in
  old_join_atu ← py_index source_atus index_of_atu_where_split_occurs;
  let atus_l := py_slice_to source_atus index_of_atu_where_split_occurs in
  let atus_r := py_slice_from source_atus (-1 + 1 + index_of_atu_where_split_occurs) in
  atus_l_length_bins ←
    (if 0 <? index_of_atu_where_split_occurs
     then py_index source_atus_prefix_sum (index_of_atu_where_split_occurs - 1)
     else Ok 0);
  let delta_l := delta_from_start_at_resolution - atus_l_length_bins in
  let forward := bool_decide (direction old_join_atu = ATU_FORWARD) in
  let atus_l :=
    if 0 <? delta_l then
      atus_l ++ [make_atu_descriptor (stripe_descriptor old_join_atu)
                   (if forward then start_index_in_stripe_incl old_join_atu
                    else end_index_in_stripe_excl old_join_atu - delta_l)
                   (if forward then start_index_in_stripe_incl old_join_atu + delta_l
                    else end_index_in_stripe_excl old_join_atu)
                   (direction old_join_atu)]
    else atus_l in
  _ ← py_assert (bool_decide (PyInt (atus_l_length_bins + delta_l) = len_l))
        "Unexpected length of left part";
  let consumed := if resolution =? min_resolution then 1 else 0 in
  let new_r_atu_start :=
    if forward then start_index_in_stripe_incl old_join_atu + delta_l + consumed
    else start_index_in_stripe_incl old_join_atu in
  let new_r_atu_end :=
    if forward then end_index_in_stripe_excl old_join_atu
    else end_index_in_stripe_excl old_join_atu - delta_l + consumed in
  atus_r ←
    (if 0 <? new_r_atu_end - new_r_atu_start then
       py_setitem atus_r 0
         (make_atu_descriptor (stripe_descriptor old_join_atu)
            new_r_atu_start new_r_atu_end (direction old_join_atu))
     else Ok (py_slice_from atus_r 1));
  _ ← py_assert (bool_decide (PyInt (atus_length atus_r) = len_r))
        "Unexpected length of right part";
  old_presence ← py_getitem (presence_in_resolution old_contig) resolution;
  if bool_decide (old_presence = FORCED_HIDDEN) || bool_decide (old_presence = FORCED_SHOWN)
  then
    Ok (mk_split_entry (PyHide old_presence) (PyHide old_presence) None None atus_l atus_r)
  else
    shown_l ← py_ge new_contig_length_bps.1 resolution;
    shown_r ← py_ge new_contig_length_bps.2 resolution;
    Ok (mk_split_entry len_l len_r
          (Some (if shown_l : bool then AUTO_SHOWN else AUTO_HIDDEN))
          (Some (if shown_r : bool then AUTO_SHOWN else AUTO_HIDDEN))
          atus_l atus_r).

(** The six dictionaries the loop fills. *)
Record split_dicts : Type := mk_split_dicts {
  new_contig_length_at_resolution : gmap Z pyval * gmap Z pyval;
  new_contig_presence_in_resolution : gmap Z ContigHideType * gmap Z ContigHideType;
  new_atus : gmap Z (list (ATUDescriptor F)) * gmap Z (list (ATUDescriptor F));
}.

Definition store_presence (resolution : Z) (p : option ContigHideType)
    (d : gmap Z ContigHideType) : gmap Z ContigHideType :=
  match p with Some v => <[resolution := v]> d | None => d end.

Definition store_split_entry (resolution : Z) (e : split_entry) (d : split_dicts)
    : split_dicts :=
  mk_split_dicts
    (<[resolution := new_length_l e]> (new_contig_length_at_resolution d).1,
     <[resolution := new_length_r e]> (new_contig_length_at_resolution d).2)
    (store_presence resolution (new_presence_l e) (new_contig_presence_in_resolution d).1,
     store_presence resolution (new_presence_r e) (new_contig_presence_in_resolution d).2)
    (<[resolution := new_atus_l e]> (new_atus d).1,
     <[resolution := new_atus_r e]> (new_atus d).2).

Fixpoint split_loop (f : ChunkedFile F) (node : Node F)
    (min_resolution delta_from_contig_start : Z)
    (new_contig_length_bps : pyval * pyval)
    (d : split_dicts) (rs : list Z) : result split_dicts :=
  match rs with
  | [] => Ok d
  | resolution :: rest =>
      e ← split_at_resolution f node min_resolution delta_from_contig_start
            new_contig_length_bps resolution;
      split_loop f node min_resolution delta_from_contig_start new_contig_length_bps
        (store_split_entry resolution e d) rest
  end.

(** Modelled from the spec: adjacent scaffold-tree nodes of the same descriptor
    are merged. *)
Fixpoint coalesce (t : ScaffoldTree) : ScaffoldTree :=
  match t with
  | [] => []
  | (d, len) :: t' =>
      match coalesce t' with
      | (d', len') :: t'' =>
          if bool_decide (d = d') then (d, len + len') :: t''
          else (d, len) :: (d', len') :: t''
      | [] => [(d, len)]
      end
  end.

(** What is left of the nodes of [t], which begins at [pos], once the range
    [[l, r)] is cut out; no zero-length node is kept. *)
Fixpoint cut_range (l r pos : Z) (t : ScaffoldTree) : ScaffoldTree :=
  match t with
  | [] => []
  | (d, len) :: t' =>
      let overlap := Z.max 0 (Z.min (pos + len) r - Z.max pos l) in
      (if 0 <? len - overlap then [(d, len - overlap)] else [])
      ++ cut_range l r (pos + len) t'
  end.

(** Modelled from the spec: [ScaffoldTree.remove_segment_from_assembly],
    "shrinks the total assembly length by r - l". *)
Definition remove_segment_from_assembly (t : ScaffoldTree)
    (start_bp_incl end_bp_excl : Z) : ScaffoldTree :=
  coalesce (cut_range start_bp_incl end_bp_excl 0 t).

(** [ChunkedFile.split_contig_at_bin] *)
Definition split_contig_at_bin (f : ChunkedFile F) (split_position split_resolution : Z)
    (split_units : QueryLengthUnit) : result (ChunkedFile F) :=
  match state f, contig_tree f, scaffold_tree f with
  | OPENED, Some tree, Some stree =>
      _ ← (if bool_decide (split_units = BASE_PAIRS)
           then py_assert (split_resolution =? 0)
                  "In bp query resolution should be set to 0"
           else Ok tt);
      min_resolution ← py_min (resolutions f);
      split_position_bins ←
        convert_units f split_position split_resolution split_units min_resolution BINS;
      es ← expose_segment tree min_resolution split_position_bins
             (split_position_bins + 1) BINS;
      left_bins ← sizes_or_zero false min_resolution (less es);
      split_position_bp ←
        convert_units f split_position split_resolution split_units 0 BASE_PAIRS;
      _ ← py_assert (negb (bool_decide (segment es = [])))
            "Split position does not fall into any contig?";
      _ ← py_assert (get_sizes_count (segment es) =? 1)
            "Split position should fall into exactly one contig";
      node ← py_index (segment es) 0;
      let old_contig := contig_descriptor node in
      let delta_from_contig_start := split_position_bins - left_bins in
      max_contig_id ←
        py_max (map (fun kv => contig_id kv.2)
                  (map_to_list (contig_id_to_contig_descriptor f)));
      let new_contig_ids := (1 + max_contig_id, 2 + max_contig_id) in
      let new_contig_names :=
        (contig_name old_contig +:+ "_hictsplit_1",
         contig_name old_contig +:+ "_hictsplit_2") in
      old_length_bp ← py_getitem (contig_length_at_resolution old_contig) 0;
      right_bp ← py_sub old_length_bp (PyInt ((1 + delta_from_contig_start) * min_resolution));
      let new_contig_length_bps :=
        (PyInt (delta_from_contig_start * min_resolution), right_bp) in
      let new_offsets_inside_fasta_contig :=
        match node_direction node with
        | CTG_FORWARD =>
            (offset_inside_fasta_contig old_contig,
             offset_inside_fasta_contig old_contig
             + (1 + delta_from_contig_start) * min_resolution)
        | CTG_REVERSED =>
            (offset_inside_fasta_contig old_contig
             + (1 + delta_from_contig_start) * min_resolution,
             offset_inside_fasta_contig old_contig)
        end in
      d ← split_loop f node min_resolution delta_from_contig_start new_contig_length_bps
            (mk_split_dicts (∅, ∅) (∅, ∅) (∅, ∅)) (resolutions f);
      let new_l :=
        make_contig_descriptor new_contig_ids.1 new_contig_names.1
          new_contig_length_bps.1 (new_contig_length_at_resolution d).1
          (new_contig_presence_in_resolution d).1 (new_atus d).1
          (contig_name_in_source_fasta old_contig) new_offsets_inside_fasta_contig.1 in
      let new_r :=
        make_contig_descriptor new_contig_ids.2 new_contig_names.2
          new_contig_length_bps.2 (new_contig_length_at_resolution d).2
          (new_contig_presence_in_resolution d).2 (new_atus d).2
          (contig_name_in_source_fasta old_contig) new_offsets_inside_fasta_contig.2 in
      let new_segment_part :=
        [make_new_node_from_descriptor new_l (node_direction node);
         make_new_node_from_descriptor new_r (node_direction node)] in
      let new_exposed_segment := mk_exposed (less es) new_segment_part (greater es) in
      Ok (mk_chunked_file (state f) (resolutions f)
            (Some (commit_exposed_segment new_exposed_segment))
            (Some (remove_segment_from_assembly stree split_position_bp
                     (split_position_bp + min_resolution)))
            (contig_id_to_contig_descriptor f) (opened_hdf_file f))
  | _, _, _ => Raise (AssertionError "Operation requires file to be opened")
  end.

(** [ChunkedFile.get_ordered_contigs] *)
Definition get_ordered_contigs (f : ChunkedFile F)
    : result (list (ContigDescriptor F * ContigDirection)) :=
  match contig_tree f with
  | None => Raise (AssertionError "No contig tree is present?")
  | Some tree => Ok (map (fun n => (contig_descriptor n, true_direction n)) tree)
  end.

End Split.

(** ** The AGP parser: [AGPProcessor.AGPparser] *)

(** The whitespace [str.split()] separates on, among the code points below
    256: U+0009 to U+000D, U+001C to U+0020, U+0085 and U+00A0. *)
Definition is_space (c : ascii) : bool :=
  let n := nat_of_ascii c in
  ((9 <=? n) && (n <=? 13) || (28 <=? n) && (n <=? 32)
   || (n =? 133) || (n =? 160))%nat.

(** [line.split()]: the maximal runs of non-whitespace characters.
    [cur] is the run being read, in reverse. *)
Fixpoint split_ws (cur : list ascii) (s : string) : list string :=
  let flush := match cur with [] => [] | _ => [String.string_of_list_ascii (rev cur)] end in
  match s with
  | EmptyString => flush
  | String c s' =>
      if is_space c then flush ++ split_ws [] s'
      else split_ws (c :: cur) s'
  end.
Definition py_split (line : string) : list string := split_ws [] line.

(** The value of a decimal digit. *)
Definition digit_value (c : ascii) : option Z :=
  let n := nat_of_ascii c in
  if ((48 <=? n) && (n <=? 57))%nat then Some (Z.of_nat n - 48) else None.

(** The digits of a decimal literal as [int] reads them, a single underscore
    allowed between two digits: the value and the number of digits. *)
Fixpoint parse_digits (acc : Z) (count : nat) (s : string) : option (Z * nat) :=
  match s with
  | EmptyString => Some (acc, count)
  | String c s' =>
      if Ascii.eqb c "_" then
        match s' with
        | String c' _ =>
            match digit_value c' with
            | Some _ => parse_digits acc count s'
            | None => None
            end
        | EmptyString => None
        end
      else
        match digit_value c with
        | Some d => parse_digits (10 * acc + d) (S count) s'
        | None => None
        end
  end.

(** [sys.int_info.default_max_str_digits] *)
Definition max_str_digits : nat := 4300.

(** [int(tok)] on a token without whitespace: an optional sign, then decimal
    digits, with single underscores allowed between digits.  Anything else
    raises [ValueError], and so does a literal of more than
    [max_str_digits] digits. *)
Definition py_int (tok : string) : result Z :=
  let parse s :=
    match s with
    | EmptyString => None
    | String c _ => if Ascii.eqb c "_" then None else parse_digits 0 0 s
    end in
  let r :=
    match tok with
    | String "-" s => (fun p : Z * nat => (- p.1, p.2)) <$> parse s
    | String "+" s => parse s
    | _ => parse tok
    end in
  match r with
  | Some (z, count) =>
      if (max_str_digits <? count)%nat then Raise ValueError else Ok z
  | None => Raise ValueError
  end.

Record AGPScaffoldRecord : Type := mk_agp_scaffold {
  agp_scaffold_name : string;
  start_ctg : string;
  end_ctg : string;
}.

Record AGPContigRecord : Type := mk_agp_contig {
  agp_contig_name : string;
  agp_contig_direction : ContigDirection;
  start_position : Z;
  end_position : Z;
}.

(** [AGPparser.parseAGPLine] *)
Definition parseAGPLine (line : string) : result (string * string * string * Z * Z) :=
  let toks := py_split line in
  component_type ← py_index toks 4;
  if String.eqb component_type "N" then
    gap_len ← py_index toks 5;
    Ok ("N_spacer", gap_len, "", 0, 0)
  else if String.eqb component_type "W" then
    seq_object_name ← py_index toks 0;
    component_name ← py_index toks 5;
    component_direction ← py_index toks 8;
    tok6 ← py_index toks 6;
    component_beg ← py_int tok6;
    tok7 ← py_index toks 7;
    component_end ← py_int tok7;
    Ok (seq_object_name, component_name, component_direction, component_beg, component_end)
  else
    Raise (PyException "unexpected symbol in agp component_type column").

(** The parser object and the local variables of [parseAGP]; a local that has
    not been assigned yet is [None]. *)
Record agp_state : Type := mk_agp_state {
  contig_records_list : list AGPContigRecord;
  scaffold_records_list : list AGPScaffoldRecord;
  cur_scaf_name : option string;
  cur_start_ctg : option string;
  cur_end_ctg : option string;
  ctg_dir : option ContigDirection;
}.

(** Reading a local variable: unbound raises [UnboundLocalError]. *)
Definition py_local {A} (name : string) (v : option A) : result A :=
  match v with Some x => Ok x | None => Raise (UnboundLocalError name) end.

(** The body of the loop [for i, line in enumerate(agp_file)]. *)
Definition parseAGP_step (i : nat) (line : string) (st : agp_state) : result agp_state :=
  '(scaf_name, ctg_name, ctg_dir_str, ctg_start_position, ctg_end_position) ←
    parseAGPLine line;
  if String.eqb scaf_name "N_spacer" then Ok st
  else if negb (String.eqb ctg_dir_str "+" || String.eqb ctg_dir_str "-") then
    _ ← py_local "ctg_dir" (ctg_dir st);
    Raise (RuntimeError "unexpected symbol in agp direction column")
  else
    d ← ContigDirection_of_value (if String.eqb ctg_dir_str "+" then 1 else 0);
    let contigs :=
      contig_records_list st
      ++ [mk_agp_contig ctg_name d ctg_start_position ctg_end_position] in
    if (i =? 0)%nat then
      Ok (mk_agp_state contigs (scaffold_records_list st)
            (Some scaf_name) (Some ctg_name) (Some ctg_name) (Some d))
    else
      cur ← py_local "cur_scaf_name" (cur_scaf_name st);
      if String.eqb scaf_name cur then
        Ok (mk_agp_state contigs (scaffold_records_list st)
              (cur_scaf_name st) (cur_start_ctg st) (Some ctg_name) (Some d))
      else
        s ← py_local "start_ctg" (cur_start_ctg st);
        e ← py_local "end_ctg" (cur_end_ctg st);
        Ok (mk_agp_state contigs
              (scaffold_records_list st ++ [mk_agp_scaffold cur s e])
              (Some scaf_name) (Some ctg_name) (Some ctg_name) (Some d)).

Fixpoint parseAGP_loop (i : nat) (lines : list string) (st : agp_state)
    : result agp_state :=
  match lines with
  | [] => Ok st
  | line :: rest =>
      st ← parseAGP_step i line st;
      parseAGP_loop (S i) rest st
  end.

(** [AGPparser.parseAGP] on the lines of the file; returns the contig records
    and the scaffold records. *)
Definition parseAGP (lines : list string)
    : result (list AGPContigRecord * list AGPScaffoldRecord) :=
  st ← parseAGP_loop 0 lines (mk_agp_state [] [] None None None None);
  cur ← py_local "cur_scaf_name" (cur_scaf_name st);
  s ← py_local "start_ctg" (cur_start_ctg st);
  e ← py_local "end_ctg" (cur_end_ctg st);
  Ok (contig_records_list st,
      scaffold_records_list st ++ [mk_agp_scaffold cur s e]).

(** * Example inputs *)

(** A heap with a 2 x 3 matrix and two weight vectors. *)
Definition example_heap : list (buffer Z) :=
  [Buf2 (mk_ndarray 2 3 [[1; 2; 3]; [4; 5; 6]]); Buf1 [10; 20]; Buf1 [1; 2; 3]].


(** An AGP line: the fields joined by tabs, with the final newline. *)
Definition agp_line (fields : list string) : string :=
  foldr (fun a b => a +:+ String.String (ascii_of_nat 9) b)
        (String.String (ascii_of_nat 10) "") fields.

Definition agp_w1 : string :=
  agp_line ["scaf1"; "1"; "100"; "1"; "W"; "ctg1"; "1"; "100"; "+"].
Definition agp_gap : string :=
  agp_line ["scaf1"; "101"; "200"; "2"; "N"; "100"; "scaffold"; "yes";
            "proximity_ligation"].
Definition agp_w2 : string :=
  agp_line ["scaf1"; "201"; "300"; "3"; "W"; "ctg2"; "1"; "100"; "-"].
(** A component line of an object that is named [N_spacer]. *)
Definition agp_w_spacer : string :=
  agp_line ["N_spacer"; "1"; "50"; "1"; "W"; "ctg4"; "1"; "50"; "+"].

(** A file with one contig of 8 bins at resolution 10 (one bin at resolution
    100), whose presence at resolution 10 is [p]. *)
Definition split_stripe_10 : StripeDescriptor Z := mk_stripe 0 8 [1; 1; 1; 1; 1; 1; 1; 1].
Definition split_stripe_100 : StripeDescriptor Z := mk_stripe 0 1 [1].
Definition split_contig (p : ContigHideType) : ContigDescriptor Z :=
  make_contig_descriptor 0 "ctg" (PyInt 80)
    {[10 := PyInt 8; 100 := PyInt 1]}
    {[0 := FORCED_SHOWN; 10 := p; 100 := AUTO_HIDDEN]}
    {[10 := [make_atu_descriptor split_stripe_10 0 8 ATU_FORWARD];
      100 := [make_atu_descriptor split_stripe_100 0 1 ATU_FORWARD]]}
    "ctg" 0.
Definition split_file (p : ContigHideType) : ChunkedFile Z :=
  mk_chunked_file OPENED [10; 100]
    (Some [make_new_node_from_descriptor (split_contig p) CTG_FORWARD])
    (Some [(None, 80)]) {[0 := split_contig p]} ∅.

(** What the claims on the split read of the file after it: per contig, the
    name, the length and the presence at resolution 10, the length at
    resolution 100, and the total length of the scaffold tree. *)
Definition split_summary (r : result (ChunkedFile Z))
    : result (list (string * option pyval * option ContigHideType * option pyval)
              * option Z) :=
  f ← r;
  l ← get_ordered_contigs f;
  Ok (map (fun cd => (contig_name cd.1,
                      contig_length_at_resolution cd.1 !! 10,
                      presence_in_resolution cd.1 !! 10,
                      contig_length_at_resolution cd.1 !! 100)) l,
      total_assembly_length_bp <$> scaffold_tree f).

(** A store with two stripes of two bins: the diagonal block (0, 0) is sparse
    and holds the upper triangle, the block (0, 1) is dense, the block (1, 1)
    is empty. *)
Definition example_stripe_0 : StripeDescriptor Z := mk_stripe 0 2 [1; 2].
Definition example_stripe_1 : StripeDescriptor Z := mk_stripe 1 2 [3; 4].
Definition example_store : TreapCOO Z :=
  mk_treap_coo 2 [2; 1; 0; 0] [0; -1; 0; 0] [0; 0] [0; 1] [5; 7]
    [mk_ndarray 2 2 [[1; 2]; [3; 4]]].
Definition example_contig : ContigDescriptor Z :=
  make_contig_descriptor 0 "c0" (PyInt 40) {[10 := PyInt 4]}
    {[0 := FORCED_SHOWN; 10 := AUTO_SHOWN]}
    {[10 := [make_atu_descriptor example_stripe_0 0 2 ATU_FORWARD;
             make_atu_descriptor example_stripe_1 0 2 ATU_FORWARD]]} "c0" 0.
Definition example_file : ChunkedFile Z :=
  mk_chunked_file OPENED [10]
    (Some [make_new_node_from_descriptor example_contig CTG_FORWARD])
    (Some [(None, 40)]) {[0 := example_contig]} {[10 := example_store]}.

(** ** Well-formed descriptors *)

Section WellFormed.
Context {F : Type} `{Dtype F}.

(** The invariant of an ATU: [0 <= start < end <= stripe.length_bins]. *)
Definition wf_atu (a : ATUDescriptor F) : Prop :=
  0 <= start_index_in_stripe_incl a
  /\ start_index_in_stripe_incl a < end_index_in_stripe_excl a
  /\ end_index_in_stripe_excl a <= stripe_length_bins (stripe_descriptor a).

Definition wf_atub (a : ATUDescriptor F) : bool :=
  (0 <=? start_index_in_stripe_incl a)
  && (start_index_in_stripe_incl a <? end_index_in_stripe_excl a)
  && (end_index_in_stripe_excl a <=? stripe_length_bins (stripe_descriptor a)).

(** An ATU with [r] bins cut off at its logical start, or at its logical end:
    a Forward ATU moves [start_incl] (resp. [end_excl]), a Reversed one the
    other border. *)
Definition shorten_left (a : ATUDescriptor F) (r : Z) : ATUDescriptor F :=
  match direction a with
  | ATU_FORWARD =>
      make_atu_descriptor (stripe_descriptor a) (start_index_in_stripe_incl a + r)
        (end_index_in_stripe_excl a) (direction a)
  | ATU_REVERSED =>
      make_atu_descriptor (stripe_descriptor a) (start_index_in_stripe_incl a)
        (end_index_in_stripe_excl a - r) (direction a)
  end.
Definition shorten_right (a : ATUDescriptor F) (r : Z) : ATUDescriptor F :=
  match direction a with
  | ATU_FORWARD =>
      make_atu_descriptor (stripe_descriptor a) (start_index_in_stripe_incl a)
        (end_index_in_stripe_excl a - r) (direction a)
  | ATU_REVERSED =>
      make_atu_descriptor (stripe_descriptor a) (start_index_in_stripe_incl a + r)
        (end_index_in_stripe_excl a) (direction a)
  end.

End WellFormed.

(** ** Well-formed files *)

Section WellFormedFile.
Context {F : Type} `{Dtype F}.

(** The invariant of a contig at one resolution: it has ATUs there, each
    within its stripe; the cached prefix sums are the cumulative lengths of
    these ATUs in source order; the length of the contig is their total; its
    presence is recorded. *)
Definition wf_contig (resolution : Z) (c : ContigDescriptor F) : bool :=
  match atus c !! resolution, atu_prefix_sum_length_bins c !! resolution,
        contig_length_at_resolution c !! resolution,
        presence_in_resolution c !! resolution with
  | Some l, Some ps, Some (PyInt n), Some _ =>
      negb (bool_decide (l = [])) && forallb wf_atub l
      && bool_decide (ps = np_cumsum (map atu_length l))
      && (n =? atus_length l)
  | _, _, _, _ => false
  end.

Definition wf_tree (resolution : Z) (t : ContigTree F) : bool :=
  forallb (fun n => wf_contig resolution (contig_descriptor n)) t.

(** An opened file whose contigs are well-formed at [resolution]. *)
Definition wf_file (f : ChunkedFile F) (resolution : Z) : bool :=
  match state f, contig_tree f with
  | OPENED, Some t => wf_tree resolution t
  | _, _ => false
  end.

(** The size of a node in bins, or in pixels when hidden contigs are
    excluded. *)
Definition node_size (exclude_hidden : bool) (resolution : Z) (n : Node F) : Z :=
  match atus (contig_descriptor n) !! resolution,
        presence_in_resolution (contig_descriptor n) !! resolution with
  | Some l, Some p =>
      if exclude_hidden && is_hidden p then 0 else atus_length l
  | _, _ => 0
  end.

Definition tree_size (exclude_hidden : bool) (resolution : Z) (t : ContigTree F) : Z :=
  py_sum (map (node_size exclude_hidden resolution) t).

Definition flip_atu (a : ATUDescriptor F) : ATUDescriptor F :=
  make_atu_descriptor (stripe_descriptor a) (start_index_in_stripe_incl a)
    (end_index_in_stripe_excl a)
    (match direction a with ATU_FORWARD => ATU_REVERSED | ATU_REVERSED => ATU_FORWARD end).

(** The ATUs of a node in assembly order. *)
Definition node_atus (resolution : Z) (n : Node F) : list (ATUDescriptor F) :=
  match atus (contig_descriptor n) !! resolution with
  | Some l =>
      match node_direction n with
      | CTG_FORWARD => l
      | CTG_REVERSED => map flip_atu (rev l)
      end
  | None => []
  end.

Definition node_shown (exclude_hidden : bool) (resolution : Z) (n : Node F) : bool :=
  match presence_in_resolution (contig_descriptor n) !! resolution with
  | Some p => negb (exclude_hidden && is_hidden p)
  | None => true
  end.

End WellFormedFile.

(** The ATUs of the visited nodes of a subtree, in assembly order. *)
Definition seg_atus {F : Type} (exclude_hidden : bool) (resolution : Z)
    (t : ContigTree F) : list (ATUDescriptor F) :=
  concat (map (node_atus resolution)
            (List.filter (node_shown exclude_hidden resolution) t)).

(** ** Reading the result of [parseAGPLine] *)

(** Whether a parsed line is a component line: [parseAGP] skips the lines
    whose first field is the marker [N_spacer]. *)
Definition agp_component (p : string * string * string * Z * Z) : bool :=
  negb (String.eqb p.1.1.1.1 "N_spacer").

(** The contig record [parseAGP] appends for a parsed component line. *)
Definition agp_contig_of (p : string * string * string * Z * Z) : AGPContigRecord :=
  mk_agp_contig p.1.1.1.2
    (if String.eqb p.1.1.2 "+" then CTG_FORWARD else CTG_REVERSED) p.1.2 p.2.

(** No two neighbours of the list are equal. *)
Definition adjacent_distinct {A} (l : list A) : Prop :=
  forall i a b, l !! i = Some a -> l !! S i = Some b -> a <> b.

(** What the loop keeps of the scaffold records: neighbours have different
    names, and the last closed run is not the run being read. *)
Definition agp_runs_inv (st : agp_state) : Prop :=
  adjacent_distinct (map agp_scaffold_name (scaffold_records_list st))
  /\ forall cur x, cur_scaf_name st = Some cur ->
       last (scaffold_records_list st) = Some x -> agp_scaffold_name x <> cur.

(** ** Which calls can raise [IncorrectResolution] *)

(** The outcome is a result or an error other than [IncorrectResolution]. *)
Definition no_IR {A} (r : result A) : Prop := r <> Raise IncorrectResolution.

(** ** Well-formed blocks of the store *)

Section WellFormedStore.
Context {F : Type} `{Dtype F}.

(** The fix-up [np.where(mx, mx, mx.T)] of the block is symmetric: the block
    holds each pair of mirrored entries once (one triangle), or twice with
    the same value. *)
Definition fixup_symmetric (mx : ndarray F) : bool :=
  forallb (fun i =>
    forallb (fun j =>
      bool_decide ((if truthy (entry mx i j) then entry mx i j else entry mx j i)
                   = (if truthy (entry mx j i) then entry mx j i else entry mx i j)))
      (seq 0 (shape1 mx)))
    (seq 0 (shape0 mx)).

(** The block of a pair of stripes can be read, and when it is not empty it
    is an array of the two stripe lengths; a diagonal block has a symmetric
    fix-up. *)
Definition block_ok (d : TreapCOO F) (sr sc : StripeDescriptor F) : bool :=
  match fetch_block d sr sc with
  | Ok None => true
  | Ok (Some mx) =>
      wf_ndarrayb mx
      && (Z.of_nat (shape0 mx) =? stripe_length_bins sr)
      && (Z.of_nat (shape1 mx) =? stripe_length_bins sc)
      && (negb (stripe_id sr =? stripe_id sc) || fixup_symmetric mx)
  | Raise _ => false
  end.

(** The two stripes of a pair of ATUs in the order the store keeps them. *)
Definition ordered_stripes (row_atu col_atu : ATUDescriptor F)
    : StripeDescriptor F * StripeDescriptor F :=
  if stripe_id (stripe_descriptor col_atu) <? stripe_id (stripe_descriptor row_atu)
  then (stripe_descriptor col_atu, stripe_descriptor row_atu)
  else (stripe_descriptor row_atu, stripe_descriptor col_atu).

End WellFormedStore.

(** ** Well-formed stores *)

Section WellFormedBlocks.
Context {F : Type} `{Dtype F}.

(** The stripes the ATUs of the tree reference at a resolution. *)
Definition contig_stripes (resolution : Z) (c : ContigDescriptor F)
    : list (StripeDescriptor F) :=
  match atus c !! resolution with
  | Some l => map stripe_descriptor l
  | None => []
  end.
Definition tree_stripes (resolution : Z) (t : ContigTree F)
    : list (StripeDescriptor F) :=
  concat (map (fun n => contig_stripes resolution (contig_descriptor n)) t).

(** The store of a resolution fits the tree: a stripe has one weight per
    bin, a stripe id names one stripe, and the block of every pair of stripes
    (in the order of their ids) is readable. *)
Definition wf_store (f : ChunkedFile F) (resolution : Z) : bool :=
  match opened_hdf_file f !! resolution, contig_tree f with
  | Some d, Some t =>
      let ss := tree_stripes resolution t in
      forallb (fun s1 =>
        (Z.of_nat (length (bin_weights s1)) =? stripe_length_bins s1)
        && forallb (fun s2 =>
             (negb (stripe_id s1 =? stripe_id s2) || bool_decide (s1 = s2))
             && (negb (stripe_id s1 <=? stripe_id s2) || block_ok d s1 s2)) ss) ss
  | _, _ => false
  end.

End WellFormedBlocks.

(** ** Rows and columns of blocks *)

Section BlockRows.
Context {F : Type} `{Dtype F}.

(** The blocks of a non-empty list side by side, and one above the other:
    what [np.hstack] and [np.vstack] return when the blocks fit. *)
Fixpoint hcat (m : ndarray F) (ms : list (ndarray F)) : ndarray F :=
  match ms with
  | [] => m
  | m' :: ms' => happ m (hcat m' ms')
  end.
Fixpoint vcat (m : ndarray F) (ms : list (ndarray F)) : ndarray F :=
  match ms with
  | [] => m
  | m' :: ms' => vapp m (vcat m' ms')
  end.

End BlockRows.

(** ** The matrix sizes the facade reports *)

Section MatrixSize.
Context {F : Type} `{Dtype F}.

(** [ContactMatrixFacet.get_matrix_size_bins]; [f.contig_tree.root] on a file
    without a tree raises [AttributeError]. *)
Definition get_matrix_size_bins (f : ChunkedFile F) (resolution : Z) : result Z :=
  match state f with
  | OPENED =>
      if negb (resolution_stored f resolution) then Raise IncorrectResolution
      else
        match contig_tree f with
        | None => Raise (PyException "AttributeError")
        | Some tree => sizes_or_zero false resolution tree
        end
  | _ => Raise IncorrectFileStateError
  end.

(** [ContactMatrixFacet.get_matrix_size_px], which asserts the tree before it
    looks at the state of the file. *)
Definition get_matrix_size_px (f : ChunkedFile F) (resolution : Z) : result Z :=
  match contig_tree f with
  | None => Raise (AssertionError "Contig tree is not present?")
  | Some tree =>
      match state f with
      | OPENED =>
          if negb (resolution_stored f resolution) then Raise IncorrectResolution
          else sizes_or_zero true resolution tree
      | _ => Raise IncorrectFileStateError
      end
  end.

End MatrixSize.

(** ** Extending a range in base pairs to contig borders *)

Section ExtendBorders.
Context {F : Type} `{Dtype F}.

(** [ChunkedFile.extend_bp_borders_to_contigs] *)
Definition extend_bp_borders_to_contigs (f : ChunkedFile F)
    (query_start_bp query_end_bp : Z) : result (Z * Z) :=
  match contig_tree f with
  | None => Raise (AssertionError "Contig tree is not present?")
  | Some tree =>
      es ← expose_segment tree 0 query_start_bp query_end_bp BASE_PAIRS;
      less_size_bp ← sizes_or_zero false 0 (less es);
      segm_size_bp ← sizes_or_zero false 0 (segment es);
      Ok (less_size_bp, less_size_bp + segm_size_bp)
  end.

(** The length in base pairs recorded for a contig (under resolution 0). *)
Definition bp_length (n : Node F) : Z :=
  match contig_length_at_resolution (contig_descriptor n) !! 0 with
  | Some (PyInt v) => v
  | _ => 0
  end.

Definition bp_size (t : ContigTree F) : Z := py_sum (map bp_length t).

(** Every contig of the tree records a non-negative length in base pairs. *)
Definition wf_bp_tree (t : ContigTree F) : bool :=
  forallb (fun n =>
             match contig_length_at_resolution (contig_descriptor n) !! 0 with
             | Some (PyInt v) => 0 <=? v
             | _ => false
             end) t.

End ExtendBorders.

(** ** Reading an AGP line by its fields *)

(** The field [line.split()[i]] of a line, where there is one. *)
Definition agp_field (line : string) (i : nat) : option string := py_split line !! i.

(** A line that yields a contig record: its component type, the fifth field,
    is [W], and its object, the first field, is not named [N_spacer]. *)
Definition agp_record_line (line : string) : bool :=
  bool_decide (agp_field line 4 = Some "W")
  && negb (bool_decide (agp_field line 0 = Some "N_spacer")).

(** The contig record read off a component line: the sixth field is the name,
    the seventh and the eighth are the begin and the end, the ninth is the
    orientation. *)
Definition agp_line_record (line : string) : option AGPContigRecord :=
  name ← agp_field line 5;
  tok_beg ← agp_field line 6;
  tok_end ← agp_field line 7;
  dir ← agp_field line 8;
  match py_int tok_beg, py_int tok_end with
  | Ok b, Ok e =>
      if String.eqb dir "+" then Some (mk_agp_contig name CTG_FORWARD b e)
      else if String.eqb dir "-" then Some (mk_agp_contig name CTG_REVERSED b e)
      else None
  | _, _ => None
  end.

(** The object and the component a line names. *)
Definition agp_line_names (line : string) : string * string :=
  (default "" (agp_field line 0), default "" (agp_field line 5)).

(** The scaffold records of a sequence of (object, component) pairs: one
    record for each maximal run of equal objects, with the first and the
    last component of the run.  [cur], [first] and [last] describe the run
    being read. *)
Fixpoint agp_runs_from (cur first last : string) (l : list (string * string))
    : list AGPScaffoldRecord :=
  match l with
  | [] => [mk_agp_scaffold cur first last]
  | (object, component) :: l' =>
      if String.eqb object cur then agp_runs_from cur first component l'
      else mk_agp_scaffold cur first last :: agp_runs_from object component component l'
  end.
Definition agp_runs (l : list (string * string)) : list AGPScaffoldRecord :=
  match l with
  | [] => []
  | (object, component) :: l' => agp_runs_from object component component l'
  end.

(** A component line of a second object. *)
Definition agp_w3 : string :=
  agp_line ["scaf2"; "1"; "50"; "1"; "W"; "ctg3"; "1"; "50"; "+"].

(** * Properties *)

(** ** The error monad *)

Lemma bind_Ok_inv {A B} (m : result A) (f : A -> result B) (b : B) :
  m ≫= f = Ok b -> exists a, m = Ok a /\ f a = Ok b.
Proof. destruct m as [a|e]; simpl; [eauto | discriminate]. Qed.

Lemma py_assert_Ok_inv (c : bool) (msg : string) (u : unit) :
  py_assert c msg = Ok u -> c = true.
Proof. destruct c; simpl; [reflexivity | discriminate]. Qed.

Lemma py_assert_true (msg : string) : py_assert true msg = Ok tt.
Proof. reflexivity. Qed.

(** ** Arrays *)

Section NDArrayFacts.
Context {F : Type} `{Dtype F}.

Lemma wf_ndarrayb_spec (m : ndarray F) : wf_ndarrayb m = true <-> wf_ndarray m.
Proof.
  unfold wf_ndarrayb, wf_ndarray.
  rewrite andb_true_iff, Nat.eqb_eq, forallb_forall, Forall_forall.
  split; intros [H1 H2]; split; auto; intros r Hr.
  - apply Nat.eqb_eq, H2. now apply list_elem_of_In.
  - apply Nat.eqb_eq, H2. now apply list_elem_of_In.
Qed.

Lemma entry_Some (m : ndarray F) (i j : nat) (r : list F) (x : F) :
  rows m !! i = Some r -> r !! j = Some x -> entry m i j = x.
Proof. unfold entry. intros -> Hx. simpl. now rewrite Hx. Qed.

Lemma wf_row (m : ndarray F) (i : nat) :
  wf_ndarray m -> (i < shape0 m)%nat ->
  exists r, rows m !! i = Some r /\ length r = shape1 m.
Proof.
  intros [Hl Hr] Hi.
  destruct (lookup_lt_is_Some_2 (rows m) i) as [r Hri]; [lia|].
  exists r. split; [assumption|].
  rewrite Forall_forall in Hr. apply Hr. eapply list_elem_of_lookup_2; eauto.
Qed.

Lemma ndarray_ext (a b : ndarray F) :
  wf_ndarray a -> wf_ndarray b ->
  shape0 a = shape0 b -> shape1 a = shape1 b ->
  (forall i j, (i < shape0 a)%nat -> (j < shape1 a)%nat -> entry a i j = entry b i j) ->
  a = b.
Proof.
  intros Ha Hb H0 H1 He.
  destruct a as [a0 a1 ra], b as [b0 b1 rb]; simpl in *. subst b0 b1.
  f_equal. apply list_eq. intros i.
  destruct (decide (i < a0)%nat) as [Hi|Hi].
  - destruct (wf_row _ i Ha Hi) as (r & Hr & Hlr).
    destruct (wf_row _ i Hb Hi) as (r' & Hr' & Hlr'). simpl in *.
    rewrite Hr, Hr'. f_equal. apply list_eq. intros j.
    destruct (decide (j < a1)%nat) as [Hj|Hj].
    + destruct (lookup_lt_is_Some_2 r j) as [x Hx]; [lia|].
      destruct (lookup_lt_is_Some_2 r' j) as [y Hy]; [lia|].
      specialize (He i j Hi Hj).
      rewrite (entry_Some _ i j r x) in He by (simpl; assumption).
      rewrite (entry_Some _ i j r' y) in He by (simpl; assumption).
      congruence.
    + rewrite !lookup_ge_None_2 by lia. reflexivity.
  - destruct Ha as [Ha _], Hb as [Hb _]. simpl in *.
    rewrite !lookup_ge_None_2 by lia. reflexivity.
Qed.

Lemma wf_transpose (m : ndarray F) : wf_ndarray m -> wf_ndarray (transpose m).
Proof.
  intros [Hm _]. split; simpl.
  - now rewrite length_map, length_seq.
  - apply Forall_forall. intros r Hr. apply list_elem_of_In, in_map_iff in Hr.
    destruct Hr as (j & <- & _). now rewrite length_map.
  
Qed.

Lemma entry_transpose (m : ndarray F) (i j : nat) :
  wf_ndarray m -> (i < shape1 m)%nat -> (j < shape0 m)%nat ->
  entry (transpose m) i j = entry m j i.
Proof.
  intros Hm Hi Hj.
  destruct (wf_row _ j Hm Hj) as (r & Hr & Hlr).
  unfold entry at 1. simpl.
  rewrite list_lookup_fmap, lookup_seq_lt by lia. simpl.
  rewrite list_lookup_fmap, Hr. simpl.
  unfold entry. rewrite Hr. simpl. reflexivity.
Qed.

Lemma transpose_involutive (m : ndarray F) :
  wf_ndarray m -> transpose (transpose m) = m.
Proof.
  intros Hm. apply ndarray_ext; auto using wf_transpose.
  intros i j Hi Hj. simpl in *.
  rewrite entry_transpose; auto using wf_transpose.
  rewrite entry_transpose; auto.
Qed.

End NDArrayFacts.

(** ** The balancing step *)

Section BalanceFacts.
Context {F : Type} `{Dtype F}.

Lemma np_mul_2d_1d_Ok (m : ndarray F) (v : list F) :
  wf_ndarray m -> length v = shape1 m ->
  exists r, np_mul_2d_1d m v = Ok r /\ wf_ndarray r
    /\ shape0 r = shape0 m /\ shape1 r = shape1 m
    /\ forall i j x, (i < shape0 m)%nat -> v !! j = Some x ->
         entry r i j = dmul (entry m i j) x.
Proof.
  intros Hm Hv. unfold np_mul_2d_1d.
  rewrite (proj2 (Nat.eqb_eq _ _)) by congruence.
  eexists. split; [reflexivity|]. simpl.
  assert (Hwf : wf_ndarray
    {| shape0 := shape0 m; shape1 := shape1 m;
       rows := map (fun r => zip_with dmul r v) (rows m) |}).
  { destruct Hm as [H0 H1]. split; simpl.
    - now rewrite length_map.
    - apply Forall_forall. intros r Hr.
      apply list_elem_of_In, in_map_iff in Hr. destruct Hr as (r0 & <- & Hr0).
      rewrite length_zip_with. rewrite Forall_forall in H1.
      rewrite (H1 r0) by now apply list_elem_of_In. lia. }
  repeat split; try apply Hwf.
  intros i j x Hi Hx.
  destruct (wf_row _ i Hm Hi) as (r & Hr & Hlr).
  assert (Hj : (j < length v)%nat) by (eapply lookup_lt_Some; eauto).
  destruct (lookup_lt_is_Some_2 r j) as [y Hy]; [lia|].
  rewrite (entry_Some m i j r y) by assumption.
  unfold entry; simpl. rewrite list_lookup_fmap, Hr. simpl.
  rewrite lookup_zip_with, Hy. simpl. now rewrite Hx.
Qed.

Lemma deref2_alloc (h : heap F) (m : ndarray F) :
  deref2 (alloc h (Buf2 m)).2 (alloc h (Buf2 m)).1 = Ok m.
Proof.
  unfold deref2, alloc. simpl.
  now rewrite list_lookup_middle.
Qed.

Lemma deref2_T_alloc (h : heap F) (m : ndarray F) :
  deref2 (alloc h (Buf2 m)).2 (array_T (alloc h (Buf2 m)).1) = Ok (transpose m).
Proof.
  unfold deref2, alloc, array_T. cbn [fst snd base transposed negb].
  now rewrite list_lookup_middle.
Qed.

Lemma deref1_alloc (h : heap F) (b : buffer F) (a : aref) :
  (base a < length h)%nat -> deref1 (alloc h b).2 a = deref1 h a.
Proof. intros Ha. unfold deref1, alloc. simpl. now rewrite lookup_app_l. Qed.

Lemma deref1_Ok_lt (h : heap F) (a : aref) (v : list F) :
  deref1 h a = Ok v -> (base a < length h)%nat.
Proof.
  unfold deref1. destruct (h !! base a) as [b|] eqn:E; [|discriminate].
  intros _. eapply lookup_lt_Some; eauto.
Qed.

Lemma deref1_alloc_error (h : heap F) (b : buffer F) (a : aref) (e : exn) :
  deref1 h a = Raise e -> (base a <> length h)%nat -> deref1 (alloc h b).2 a = Raise e.
Proof.
  unfold deref1, alloc. simpl. intros Hd Hne.
  destruct (h !! base a) as [x|] eqn:E.
  - rewrite lookup_app_l by (eapply lookup_lt_Some; eauto). now rewrite E.
  - apply lookup_ge_None in E. rewrite lookup_ge_None_2; [assumption|].
    rewrite length_app. simpl. lia.
Qed.

Lemma deref2_alloc_old (h : list (buffer F)) (b : buffer F) (a : aref) (m : ndarray F) :
  deref2 h a = Ok m -> deref2 (alloc h b).2 a = Ok m.
Proof.
  unfold deref2, alloc. simpl. intros Hd.
  destruct (h !! base a) as [x|] eqn:E; [|discriminate].
  rewrite lookup_app_l by (eapply lookup_lt_Some; eauto). now rewrite E.
Qed.

Lemma deref1_alloc_old (h : list (buffer F)) (b : buffer F) (a : aref) (v : list F) :
  deref1 h a = Ok v -> deref1 (alloc h b).2 a = Ok v.
Proof.
  intros Hd. rewrite deref1_alloc; [assumption|]. eapply deref1_Ok_lt; eauto.
Qed.

Lemma np_multiply_eq (h : list (buffer F)) (a w : aref) (m : ndarray F) (v : list F) :
  deref2 h a = Ok m -> deref1 h w = Ok v ->
  np_multiply a w h = (r ← np_mul_2d_1d m v; Ok (alloc h (Buf2 r))).
Proof. intros Ha Hw. unfold np_multiply. now rewrite Ha, Hw. Qed.

(** Both values of the flag run the same two products on the contents of the
    input; the call allocates and never writes. *)
Lemma apply_cooler_balance_run (h : list (buffer F)) (M r c : aref)
    (m : ndarray F) (wr wc : list F) (inplace : bool) :
  deref2 h M = Ok m -> deref1 h r = Ok wr -> deref1 h c = Ok wc ->
  match apply_cooler_balance_to_dense_matrix M r c inplace h with
  | Ok (a, h') =>
      (exists ext, h' = h ++ ext) /\ exists res, balance m wr wc = Ok res /\ deref2 h' a = Ok res
  | Raise e => balance m wr wc = Raise e
  end.
Proof.
  intros HM Hr Hc. unfold apply_cooler_balance_to_dense_matrix, balance.
  destruct inplace.
  - simpl. rewrite (np_multiply_eq h M c m wc HM Hc).
    destruct (np_mul_2d_1d m wc) as [r1|e]; simpl; [|reflexivity].
    rewrite (np_multiply_eq _ _ r (transpose r1) wr);
      [|apply (deref2_T_alloc h r1)|apply deref1_alloc_old, Hr].
    destruct (np_mul_2d_1d (transpose r1) wr) as [r2|e]; simpl; [|reflexivity].
    split.
    + exists [Buf2 r1; Buf2 r2]. now rewrite <- app_assoc.
    + exists (transpose r2). split; [reflexivity|].
      apply (deref2_T_alloc (h ++ [Buf2 r1]) r2).
  - unfold np_copy. rewrite HM. simpl.
    rewrite (np_multiply_eq _ _ c m wc);
      [|apply (deref2_alloc h m)|apply deref1_alloc_old, Hc].
    destruct (np_mul_2d_1d m wc) as [r1|e]; simpl; [|reflexivity].
    rewrite (np_multiply_eq _ _ r (transpose r1) wr);
      [|apply (deref2_T_alloc (h ++ [Buf2 m]) r1)
       |apply (deref1_alloc_old (h ++ [Buf2 m])), (deref1_alloc_old h), Hr].
    destruct (np_mul_2d_1d (transpose r1) wr) as [r2|e]; simpl; [|reflexivity].
    split.
    + exists [Buf2 m; Buf2 r1; Buf2 r2]. now rewrite <- !app_assoc.
    + exists (transpose r2). split; [reflexivity|].
      apply (deref2_T_alloc ((h ++ [Buf2 m]) ++ [Buf2 r1]) r2).
Qed.

Lemma returned_matrix_balance (h : list (buffer F)) (M r c : aref)
    (m : ndarray F) (wr wc : list F) (inplace : bool) :
  deref2 h M = Ok m -> deref1 h r = Ok wr -> deref1 h c = Ok wc ->
  returned_matrix (apply_cooler_balance_to_dense_matrix M r c inplace h)
  = balance m wr wc.
Proof.
  intros HM Hr Hc.
  pose proof (apply_cooler_balance_run h M r c m wr wc inplace HM Hr Hc) as Hrun.
  unfold returned_matrix.
  destruct (apply_cooler_balance_to_dense_matrix M r c inplace h) as [[a h']|e]; simpl.
  - destruct Hrun as (_ & res & -> & ->). reflexivity.
  - now rewrite Hrun.
Qed.

(** C10: for every matrix and weight vectors on the heap and both values of
    [inplace], the call leaves every array of the heap, the input matrix among
    them, as it was (the heap after the call is the heap before it followed by
    the fresh arrays), and the returned matrix is the same for both values. *)
Theorem apply_cooler_balance_frame (h : list (buffer F)) (M r c : aref)
    (m : ndarray F) (wr wc : list F)
    (HM : deref2 h M = Ok m) (Hr : deref1 h r = Ok wr) (Hc : deref1 h c = Ok wc) :
  (forall inplace a h',
     apply_cooler_balance_to_dense_matrix M r c inplace h = Ok (a, h') ->
     (exists ext, h' = h ++ ext) /\ deref2 h' M = Ok m
     /\ forall l b, h !! l = Some b -> h' !! l = Some b)
  /\ returned_matrix (apply_cooler_balance_to_dense_matrix M r c true h)
     = returned_matrix (apply_cooler_balance_to_dense_matrix M r c false h).
Proof.
  split.
  - intros inplace a h' Hcall.
    pose proof (apply_cooler_balance_run h M r c m wr wc inplace HM Hr Hc) as Hrun.
    rewrite Hcall in Hrun. destruct Hrun as ((ext & ->) & _).
    split; [eauto|]. split.
    + unfold deref2 in *. destruct (h !! base M) as [x|] eqn:E; [|discriminate].
      rewrite lookup_app_l by (eapply lookup_lt_Some; eauto). now rewrite E.
    + intros l b Hl. rewrite lookup_app_l by (eapply lookup_lt_Some; eauto). assumption.
  - now rewrite !(returned_matrix_balance h M r c m wr wc).
Qed.

(** The entries of the balanced matrix, as the code multiplies: the column
    weight first, then the row weight. *)
Lemma balance_entries (h : list (buffer F)) (M r c : aref)
    (m : ndarray F) (wr wc : list F) (inplace : bool)
    (HM : deref2 h M = Ok m) (Hr : deref1 h r = Ok wr) (Hc : deref1 h c = Ok wc)
    (Hm : wf_ndarray m) (Hwr : length wr = shape0 m) (Hwc : length wc = shape1 m) :
  exists res,
    returned_matrix (apply_cooler_balance_to_dense_matrix M r c inplace h) = Ok res
    /\ wf_ndarray res /\ shape0 res = shape0 m /\ shape1 res = shape1 m
    /\ forall i j wi wj, wr !! i = Some wi -> wc !! j = Some wj ->
         entry res i j = dmul (dmul (entry m i j) wj) wi.
Proof.
  rewrite (returned_matrix_balance h M r c m wr wc inplace HM Hr Hc).
  unfold balance.
  destruct (np_mul_2d_1d_Ok m wc Hm Hwc) as (r1 & -> & Hr1 & H10 & H11 & He1). simpl.
  destruct (np_mul_2d_1d_Ok (transpose r1) wr) as (r2 & -> & Hr2 & H20 & H21 & He2);
    [now apply wf_transpose | simpl; congruence |]. simpl in *.
  exists (transpose r2). split; [reflexivity|].
  split; [now apply wf_transpose|]. simpl.
  split; [congruence|]. split; [congruence|].
  intros i j wi wj Hi Hj.
  assert (Hil : (i < shape0 m)%nat) by (rewrite <- Hwr; eapply lookup_lt_Some; eauto).
  assert (Hjl : (j < shape1 m)%nat) by (rewrite <- Hwc; eapply lookup_lt_Some; eauto).
  rewrite entry_transpose by (auto; lia).
  rewrite (He2 j i wi) by (auto; lia).
  rewrite entry_transpose by (auto; lia).
  now rewrite (He1 i j wj) by auto.
Qed.


(** Where the product is commutative and associative, as it is for integers,
    the entry is [w_r[i] * m[i, j] * w_c[j]] in any order. *)
Lemma balance_entries_exact
    (dmul_comm : forall x y : F, dmul x y = dmul y x)
    (dmul_assoc : forall x y z : F, dmul x (dmul y z) = dmul (dmul x y) z)
    (h : list (buffer F)) (M r c : aref)
    (m : ndarray F) (wr wc : list F) (inplace : bool)
    (HM : deref2 h M = Ok m) (Hr : deref1 h r = Ok wr) (Hc : deref1 h c = Ok wc)
    (Hm : wf_ndarray m) (Hwr : length wr = shape0 m) (Hwc : length wc = shape1 m) :
  exists res,
    returned_matrix (apply_cooler_balance_to_dense_matrix M r c inplace h) = Ok res
    /\ forall i j wi wj, wr !! i = Some wi -> wc !! j = Some wj ->
         entry res i j = dmul (dmul wi (entry m i j)) wj.
Proof.
  destruct (balance_entries h M r c m wr wc inplace HM Hr Hc Hm Hwr Hwc)
    as (res & Hres & _ & _ & _ & He).
  exists res. split; [exact Hres|]. intros i j wi wj Hi Hj.
  rewrite (He i j wi wj Hi Hj). rewrite (dmul_comm _ wi). apply dmul_assoc.
Qed.

End BalanceFacts.

(** ** Instances of the balancing step *)

Lemma apply_cooler_balance_frame_witness :
  (forall inplace a h',
     apply_cooler_balance_to_dense_matrix (mk_aref 0 false) (mk_aref 1 false)
       (mk_aref 2 false) inplace example_heap = Ok (a, h') ->
     (exists ext, h' = example_heap ++ ext)
     /\ deref2 h' (mk_aref 0 false) = Ok (mk_ndarray 2 3 [[1; 2; 3]; [4; 5; 6]])
     /\ forall l b, example_heap !! l = Some b -> h' !! l = Some b)
  /\ returned_matrix (apply_cooler_balance_to_dense_matrix (mk_aref 0 false)
       (mk_aref 1 false) (mk_aref 2 false) true example_heap)
     = returned_matrix (apply_cooler_balance_to_dense_matrix (mk_aref 0 false)
         (mk_aref 1 false) (mk_aref 2 false) false example_heap).
Proof.
  apply (apply_cooler_balance_frame example_heap (mk_aref 0 false) (mk_aref 1 false)
           (mk_aref 2 false) (mk_ndarray 2 3 [[1; 2; 3]; [4; 5; 6]]) [10; 20] [1; 2; 3]);
    reflexivity.
Defined.



(** ** The AGP parser on two files *)

(** C9 (the code departs from the claim): a file whose first line is a gap
    line is not parsed, the first component line reads the unassigned
    [cur_scaf_name]; and a component line of an object named [N_spacer] yields
    no contig record and no scaffold record. *)
Theorem parseAGP_departs :
  parseAGP [agp_gap; agp_w2] = Raise (UnboundLocalError "cur_scaf_name")
  /\ parseAGP [agp_w1; agp_w_spacer]
     = Ok ([mk_agp_contig "ctg1" CTG_FORWARD 1 100],
           [mk_agp_scaffold "scaf1" "ctg1" "ctg1"]).
Proof. split; vm_compute; reflexivity. Qed.

(** On a file that begins with a component line the records are as the claim
    says: the gap is skipped, [+] is Forward and [-] Reversed, and the one run
    is closed at the end of the file. *)
Example parseAGP_regular :
  parseAGP [agp_w1; agp_gap; agp_w2]
  = Ok ([mk_agp_contig "ctg1" CTG_FORWARD 1 100; mk_agp_contig "ctg2" CTG_REVERSED 1 100],
        [mk_agp_scaffold "scaf1" "ctg1" "ctg2"]).
Proof. vm_compute; reflexivity. Qed.

(** ** The split on a contig with a forced presence *)

(** With an automatic presence the split is as the claims C6 and C7 say: the
    left part has 3 bins, the right part 8 - 3 - 1, and the scaffold tree loses
    one bin of 10 bp. *)
Example split_auto_shown :
  split_summary (split_contig_at_bin (split_file AUTO_SHOWN) 3 10 BINS)
  = Ok ([("ctg_hictsplit_1", Some (PyInt 3), Some AUTO_SHOWN, Some (PyInt 0));
         ("ctg_hictsplit_2", Some (PyInt 4), Some AUTO_SHOWN, Some (PyInt 1))],
        Some 70).
Proof. vm_compute; reflexivity. Qed.

(** C6 (the code departs from the claim): when the old contig is ForcedShown at
    the finest resolution, the lengths of the two parts there are not 3 and
    8 - 3 - 1 bins: the length entries hold the presence value. *)
Theorem split_forced_lengths :
  split_summary (split_contig_at_bin (split_file FORCED_SHOWN) 3 10 BINS)
  = Ok ([("ctg_hictsplit_1", Some (PyHide FORCED_SHOWN), None, Some (PyInt 0));
         ("ctg_hictsplit_2", Some (PyHide FORCED_SHOWN), None, Some (PyInt 1))],
        Some 70).
Proof. vm_compute; reflexivity. Qed.

(** C7 (the code departs from the claim): when the old contig is ForcedShown at
    a resolution, the two new contigs have no presence there at all, and their
    length entries there are overwritten by the presence value. *)
Theorem split_forced_presence :
  (f ← split_contig_at_bin (split_file FORCED_SHOWN) 3 10 BINS;
   l ← get_ordered_contigs f;
   Ok (map (fun cd => (presence_in_resolution cd.1 !! 10,
                       contig_length_at_resolution cd.1 !! 10)) l))
  = Ok [(None, Some (PyHide FORCED_SHOWN)); (None, Some (PyHide FORCED_SHOWN))]
  /\ presence_in_resolution (split_contig FORCED_SHOWN) !! 10 = Some FORCED_SHOWN.
Proof. split; vm_compute; reflexivity. Qed.

(** ** The diagonal fix-up *)

Section FixupFacts.
Context {F : Type} `{Dtype F}.

Lemma np_where_entries (c x y r : ndarray F) :
  np_where c x y = Ok r ->
  wf_ndarray r /\ shape0 r = shape0 c /\ shape1 r = shape1 c
  /\ shape0 x = shape0 c /\ shape1 x = shape1 c
  /\ shape0 y = shape0 c /\ shape1 y = shape1 c
  /\ forall i j, (i < shape0 c)%nat -> (j < shape1 c)%nat ->
       entry r i j = if truthy (entry c i j) then entry x i j else entry y i j.
Proof.
  unfold np_where.
  destruct (_ && _) eqn:E; [|discriminate].
  intros [= <-]. simpl.
  repeat rewrite andb_true_iff in E. rewrite !Nat.eqb_eq in E.
  destruct E as (((E1 & E2) & E3) & E4).
  repeat split; try congruence.
  - simpl. now rewrite length_map, length_seq.
  - simpl. apply Forall_forall. intros l Hl.
    apply list_elem_of_In, in_map_iff in Hl. destruct Hl as (i & <- & _).
    now rewrite length_map, length_seq.
  - intros i j Hi Hj. unfold entry at 1. simpl.
    rewrite list_lookup_fmap, lookup_seq_lt by lia. simpl.
    rewrite list_lookup_fmap, lookup_seq_lt by lia. reflexivity.
Qed.

(** What [np.where(mx, mx, mx.T)] holds: a zero entry is replaced by the
    transposed entry, a non-zero entry is kept. *)
Lemma symmetrize_entries (mx s : ndarray F) :
  wf_ndarray mx -> symmetrize mx = Ok s ->
  wf_ndarray s /\ shape0 s = shape0 mx /\ shape1 s = shape1 mx
  /\ shape0 mx = shape1 mx
  /\ forall i j, (i < shape0 mx)%nat -> (j < shape1 mx)%nat ->
       entry s i j = if truthy (entry mx i j) then entry mx i j else entry mx j i.
Proof.
  intros Hmx Hs. unfold symmetrize in Hs.
  apply np_where_entries in Hs.
  destruct Hs as (Hwf & H0 & H1 & _ & _ & Ht0 & Ht1 & He). simpl in Ht0, Ht1.
  repeat split; try assumption; try apply Hwf; try congruence.
  intros i j Hi Hj. rewrite (He i j Hi Hj).
  rewrite entry_transpose by (auto; lia). reflexivity.
Qed.


End FixupFacts.


(** ** Python sequences *)

Lemma py_sum_app (a b : list Z) : py_sum (a ++ b) = py_sum a + py_sum b.
Proof. unfold py_sum. induction a as [|x a IH]; simpl; [reflexivity|]. lia. Qed.

Lemma py_sum_cons (x : Z) (a : list Z) : py_sum (x :: a) = x + py_sum a.
Proof. reflexivity. Qed.

Lemma py_sum_rev (a : list Z) : py_sum (rev a) = py_sum a.
Proof.
  induction a as [|x a IH]; simpl; [reflexivity|].
  rewrite py_sum_app, IH, !py_sum_cons. change (py_sum []) with 0. lia.
Qed.

Lemma py_sum_nonneg (a : list Z) : Forall (fun x => 0 < x) a -> 0 <= py_sum a.
Proof.
  induction 1 as [|x a Hx _ IH]; [reflexivity|]. rewrite py_sum_cons. lia.
Qed.

Lemma py_sum_take_drop (a : list Z) (k : nat) :
  py_sum (take k a) + py_sum (drop k a) = py_sum a.
Proof. rewrite <- py_sum_app. now rewrite take_drop. Qed.

Lemma py_sum_take_S (a : list Z) (k : nat) (x : Z) :
  a !! k = Some x -> py_sum (take (S k) a) = py_sum (take k a) + x.
Proof.
  intros Hx. rewrite (take_S_r a k x Hx), py_sum_app.
  change (py_sum [x]) with (x + 0). lia.
Qed.

Lemma py_index_nat {A} (l : list A) (i : nat) (x : A) :
  l !! i = Some x -> py_index l (Z.of_nat i) = Ok x.
Proof.
  intros Hx. pose proof (lookup_lt_Some _ _ _ Hx) as Hi. unfold py_index.
  destruct (Z.of_nat i <? 0) eqn:E; [lia|].
  rewrite (proj2 (Z.leb_le _ _)), (proj2 (Z.ltb_lt _ _)) by lia. simpl.
  now rewrite Nat2Z.id, Hx.
Qed.

Lemma py_index_last {A} (l : list A) (x : A) :
  py_index (l ++ [x]) (-1) = Ok x.
Proof.
  unfold py_index. rewrite length_app. simpl.
  destruct (-1 <? 0) eqn:E; [|lia].
  rewrite (proj2 (Z.leb_le _ _)), (proj2 (Z.ltb_lt _ _)) by lia. simpl.
  replace (Z.to_nat (-1 + Z.of_nat (length l + 1))) with (length l) by lia.
  now rewrite list_lookup_middle.
Qed.

Lemma py_setitem_nat {A} (l : list A) (i : nat) (x : A) :
  (i < length l)%nat -> py_setitem l (Z.of_nat i) x = Ok (<[i := x]> l).
Proof.
  intros Hi. unfold py_setitem.
  destruct (Z.of_nat i <? 0) eqn:E; [lia|].
  rewrite (proj2 (Z.leb_le _ _)), (proj2 (Z.ltb_lt _ _)) by lia. simpl.
  now rewrite Nat2Z.id.
Qed.

Lemma py_setitem_last {A} (l : list A) (x y : A) :
  py_setitem (l ++ [x]) (-1) y = Ok (l ++ [y]).
Proof.
  unfold py_setitem. rewrite length_app. simpl.
  destruct (-1 <? 0) eqn:E; [|lia].
  rewrite (proj2 (Z.leb_le _ _)), (proj2 (Z.ltb_lt _ _)) by lia. simpl.
  replace (Z.to_nat (-1 + Z.of_nat (length l + 1))) with (length l + 0)%nat by lia.
  now rewrite insert_app_r.
Qed.

Lemma py_slice_from_nat {A} (l : list A) (i : nat) :
  (i <= length l)%nat -> py_slice_from l (Z.of_nat i) = drop i l.
Proof.
  intros Hi. unfold py_slice_from, py_slice, py_bound.
  destruct (Z.of_nat i <? 0) eqn:E; [lia|].
  destruct (Z.of_nat (length l) <? 0) eqn:E'; [lia|].
  match goal with |- take ?n (drop ?m l) = _ =>
    replace m with i by lia; replace n with (length l - i)%nat by lia end.
  apply take_ge. rewrite length_drop. lia.
Qed.

Lemma py_slice_to_neg {A} (l : list A) (k : nat) :
  (0 < k)%nat -> (k <= length l)%nat ->
  py_slice_to l (- Z.of_nat k) = take (length l - k) l.
Proof.
  intros Hk Hl. unfold py_slice_to, py_slice, py_bound.
  destruct (0 <? 0) eqn:E; [lia|].
  destruct (- Z.of_nat k <? 0) eqn:E'; [|lia].
  match goal with |- take ?n (drop ?m l) = _ =>
    replace m with 0%nat by lia; replace n with (length l - k)%nat by lia end.
  now rewrite drop_0.
Qed.

Lemma py_slice_exact {A} (l : list A) (a b : Z) :
  0 <= a <= b -> b <= Z.of_nat (length l) ->
  py_slice l a b = take (Z.to_nat (b - a)) (drop (Z.to_nat a) l)
  /\ length (py_slice l a b) = Z.to_nat (b - a).
Proof.
  intros Hab Hb. unfold py_slice, py_bound.
  destruct (a <? 0) eqn:E; [lia|]. destruct (b <? 0) eqn:E'; [lia|].
  match goal with |- take ?n (drop ?m l) = _ /\ _ =>
    replace m with (Z.to_nat a) by lia; replace n with (Z.to_nat (b - a)) by lia end.
  split; [reflexivity|].
  rewrite length_take, length_drop. lia.
Qed.

(** ** Prefix sums and binary search *)

Lemma cumsum_from_length (acc : Z) (l : list Z) :
  length (cumsum_from acc l) = length l.
Proof. revert acc. induction l as [|x l IH]; intros acc; simpl; [reflexivity|]. now rewrite IH. Qed.

Lemma cumsum_from_lookup (acc : Z) (l : list Z) (i : nat) :
  (i < length l)%nat ->
  cumsum_from acc l !! i = Some (acc + py_sum (take (S i) l)).
Proof.
  revert acc i. induction l as [|x l IH]; intros acc i Hi; simpl in *; [lia|].
  destruct i as [|i]; simpl.
  - f_equal. rewrite take_0. unfold py_sum; simpl; lia.
  - rewrite IH by lia. f_equal. rewrite py_sum_cons. lia.
Qed.

Lemma cumsum_from_app (acc : Z) (a b : list Z) :
  cumsum_from acc (a ++ b) = cumsum_from acc a ++ cumsum_from (acc + py_sum a) b.
Proof.
  revert acc. induction a as [|x a IH]; intros acc; simpl.
  - unfold py_sum. simpl. now rewrite Z.add_0_r.
  - rewrite IH. rewrite py_sum_cons. do 3 f_equal. lia.
Qed.

(** On the prefix sums of positive lengths, [searchsorted(side='right')] finds
    the element that holds the offset [v]. *)
Lemma searchsorted_right_cumsum (acc v : Z) (X : list Z) :
  Forall (fun x => 0 < x) X -> acc <= v < acc + py_sum X ->
  exists k : nat,
    searchsorted_right (cumsum_from acc X) v = Z.of_nat k
    /\ (k < length X)%nat
    /\ acc + py_sum (take k X) <= v < acc + py_sum (take (S k) X).
Proof.
  intros HX. revert acc. induction HX as [|x X Hx HX IH]; intros acc Hv.
  - unfold py_sum in Hv. simpl in Hv. lia.
  - simpl. rewrite py_sum_cons in Hv.
    destruct (acc + x <=? v) eqn:E.
    + apply Z.leb_le in E. destruct (IH (acc + x)) as (k & Hk & Hlt & Hs); [lia|].
      exists (S k). rewrite Hk. split; [lia|]. split; [simpl; lia|].
      change (take (S k) (x :: X)) with (x :: take k X).
      change (take (S (S k)) (x :: X)) with (x :: take (S k) X).
      rewrite !py_sum_cons. lia.
    + apply Z.leb_gt in E. exists 0%nat. split; [reflexivity|]. split; [simpl; lia|].
      simpl. rewrite take_0. unfold py_sum. simpl. lia.
Qed.

Lemma searchsorted_right_nonneg (a : list Z) (v : Z) : 0 <= searchsorted_right a v.
Proof. induction a as [|x a IH]; simpl; [lia|]. destruct (x <=? v); lia. Qed.

(** The same with the bounds past the searched prefix: a search in the prefix
    sums of [X ++ Y] stops inside [X] when the offset does. *)
Lemma searchsorted_right_prefix (acc v : Z) (X Y : list Z) (k : nat) :
  searchsorted_right (cumsum_from acc X) v = Z.of_nat k -> (k < length X)%nat ->
  searchsorted_right (cumsum_from acc (X ++ Y)) v = Z.of_nat k.
Proof.
  revert acc k. induction X as [|x X IH]; intros acc k Hk Hlt; simpl in *; [lia|].
  destruct (acc + x <=? v) eqn:E; [|assumption].
  destruct k as [|k].
  - pose proof (searchsorted_right_nonneg (cumsum_from (acc + x) X) v). lia.
  - rewrite (IH (acc + x) k); [lia | lia | lia].
Qed.

(** [ps[:-1] = ps[-1] - np.flip(ps)[1:]] turns the prefix sums of a list of
    lengths into those of the reversed list. *)
Lemma py_sum_take_rev (X : list Z) (i : nat) :
  (i <= length X)%nat ->
  py_sum (take i (rev X)) = py_sum X - py_sum (take (length X - i) X).
Proof.
  intros Hi. rewrite rev_alt. fold (reverse X).
  rewrite <- (py_sum_take_drop X (length X - i)).
  replace (take i (reverse X)) with (reverse (drop (length X - i) X)).
  - unfold reverse. rewrite <- rev_alt, py_sum_rev. lia.
  - rewrite <- (reverse_involutive (take i (reverse X))).
    f_equal. rewrite reverse_take, reverse_involutive, length_reverse. reflexivity.
Qed.

Lemma flip_prefix_sum_cumsum (X : list Z) :
  X <> [] -> flip_prefix_sum (np_cumsum X) = Ok (np_cumsum (rev X)).
Proof.
  intros HX. unfold flip_prefix_sum, np_cumsum.
  destruct (exists_last HX) as (X' & x & ->).
  rewrite cumsum_from_app.
  change (cumsum_from (0 + py_sum X') [x]) with [0 + py_sum X' + x].
  rewrite py_index_last.
  change (Ok ?a ≫= ?f) with (f a). cbv beta. f_equal.
  set (total := 0 + py_sum X' + x).
  set (C := cumsum_from 0 X').
  assert (HC : length C = length X') by apply cumsum_from_length.
  rewrite rev_app_distr. change (rev [total]) with [total].
  change ([total] ++ rev C) with (total :: rev C).
  replace (py_slice_from (total :: rev C) 1) with (rev C).
  2:{ change 1 with (Z.of_nat 1). rewrite py_slice_from_nat by (simpl; lia). reflexivity. }
  apply list_eq. intros i.
  assert (Hlen : length (X' ++ [x]) = S (length X')) by (rewrite length_app; simpl; lia).
  destruct (decide (i < length X')%nat) as [Hi|Hi].
  - rewrite lookup_app_l by (rewrite length_map, length_rev; lia).
    rewrite list_lookup_fmap.
    rewrite rev_alt. fold (reverse C).
    rewrite reverse_lookup by lia. rewrite HC.
    unfold C. rewrite cumsum_from_lookup by lia.
    rewrite cumsum_from_lookup by (rewrite length_rev; lia).
    cbn [fmap option_fmap option_map]. f_equal.
    rewrite py_sum_take_rev by (rewrite Hlen; lia).
    rewrite Hlen, py_sum_app. change (py_sum [x]) with (x + 0).
    replace (S (length X') - S i)%nat with (length X' - i)%nat by lia.
    rewrite take_app_le by lia.
    replace (S (length X' - S i)) with (length X' - i)%nat by lia.
    subst total. lia.
  - destruct (decide (i = length X')) as [->|Hne].
    + rewrite lookup_app_r by (rewrite length_map, length_rev; lia).
      rewrite length_map, length_rev, HC, Nat.sub_diag.
      rewrite cumsum_from_lookup by (rewrite length_rev; lia).
      cbn [lookup list_lookup]. f_equal.
      rewrite take_ge by (rewrite length_rev; lia).
      rewrite py_sum_rev, py_sum_app. change (py_sum [x]) with (x + 0).
      subst total. lia.
    + rewrite !lookup_ge_None_2; [reflexivity| |].
      * rewrite cumsum_from_length, length_rev. lia.
      * rewrite length_app, length_map, length_rev. simpl. lia.
Qed.

(** ** The two trims on a list of ATUs *)

(** Discharges the next passing [assert] of a Python body. *)
Ltac py_pass tac :=
  match goal with
  | |- context [py_assert ?b ?m] =>
      let E := fresh in
      assert (E : b = true) by tac;
      rewrite E; clear E;
      change (py_assert true m ≫= ?f) with (f tt); cbv beta
  end.

Section TrimFacts.
Context {F : Type} `{Dtype F}.
Implicit Types (a b : ATUDescriptor F) (l : list (ATUDescriptor F)).

Lemma wf_atub_spec a : wf_atub a = true <-> wf_atu a.
Proof. unfold wf_atub, wf_atu. rewrite !andb_true_iff, !Z.leb_le, Z.ltb_lt. tauto. Qed.

Lemma wf_atu_length a : wf_atu a -> 0 < atu_length a.
Proof. unfold wf_atu, atu_length. lia. Qed.

Lemma wf_atus_positive l : Forall wf_atu l -> Forall (fun x => 0 < x) (map atu_length l).
Proof. intros Hl. apply Forall_fmap. eapply Forall_impl; [exact Hl|]. apply wf_atu_length. Qed.

Lemma atus_length_app l1 l2 : atus_length (l1 ++ l2) = atus_length l1 + atus_length l2.
Proof. unfold atus_length. now rewrite map_app, py_sum_app. Qed.

Lemma atus_length_cons a l : atus_length (a :: l) = atu_length a + atus_length l.
Proof. reflexivity. Qed.

Lemma atus_length_nonneg l : Forall wf_atu l -> 0 <= atus_length l.
Proof. intros Hl. apply py_sum_nonneg, wf_atus_positive, Hl. Qed.

Lemma atus_length_rev l : atus_length (rev l) = atus_length l.
Proof. unfold atus_length. now rewrite map_rev, py_sum_rev. Qed.

Lemma shorten_left_wf a r :
  wf_atu a -> 0 <= r < atu_length a ->
  wf_atu (shorten_left a r) /\ atu_length (shorten_left a r) = atu_length a - r.
Proof.
  unfold wf_atu, atu_length, shorten_left. intros Ha Hr.
  destruct (direction a); simpl; lia.
Qed.

Lemma shorten_right_wf a r :
  wf_atu a -> 0 <= r < atu_length a ->
  wf_atu (shorten_right a r) /\ atu_length (shorten_right a r) = atu_length a - r.
Proof.
  unfold wf_atu, atu_length, shorten_right. intros Ha Hr.
  destruct (direction a); simpl; lia.
Qed.

Lemma atu_nonempty_wf a : wf_atu a -> atu_nonempty a = true.
Proof. unfold wf_atu, atu_nonempty. intros Ha. apply Z.ltb_lt. lia. Qed.

Lemma forallb_atu_nonempty l : Forall wf_atu l -> forallb atu_nonempty l = true.
Proof.
  intros Hl. apply forallb_forall. intros a Ha.
  apply atu_nonempty_wf. rewrite Forall_forall in Hl. apply Hl.
  now apply list_elem_of_In.
Qed.

(** The search in the prefix sums of positive lengths finds the element
    whose span holds the offset. *)
Lemma searchsorted_right_unique (X : list Z) (k : nat) (x v : Z) :
  Forall (fun x => 0 < x) X -> X !! k = Some x ->
  py_sum (take k X) <= v < py_sum (take k X) + x ->
  searchsorted_right (np_cumsum X) v = Z.of_nat k.
Proof.
  intros HX HXk [Hv1 Hv2]. unfold np_cumsum.
  assert (Hk0 : 0 <= py_sum (take k X)) by (apply py_sum_nonneg, Forall_take, HX).
  destruct (searchsorted_right_cumsum 0 v X HX) as (j & Hj & Hlt & Hb1 & Hb2).
  - split; [lia|]. rewrite <- (py_sum_take_drop X (S k)).
    rewrite (py_sum_take_S X k _ HXk).
    assert (0 <= py_sum (drop (S k) X)).
    { apply py_sum_nonneg. now apply Forall_drop. }
    lia.
  - rewrite Hj. f_equal.
    destruct (Nat.lt_trichotomy j k) as [Hlt'|[->|Hgt]]; [|reflexivity|].
    + exfalso.
      assert (py_sum (take (S j) X) <= py_sum (take k X)).
      { replace (take (S j) X) with (take (S j) (take k X))
          by (rewrite take_take; f_equal; lia).
        rewrite <- (py_sum_take_drop (take k X) (S j)).
        assert (0 <= py_sum (drop (S j) (take k X))).
        { apply py_sum_nonneg. apply Forall_drop, Forall_take, HX. }
        lia. }
      lia.
    + exfalso.
      assert (py_sum (take (S k) X) <= py_sum (take j X)).
      { replace (take (S k) X) with (take (S k) (take j X))
          by (rewrite take_take; f_equal; lia).
        rewrite <- (py_sum_take_drop (take j X) (S k)).
        assert (0 <= py_sum (drop (S k) (take j X))).
        { apply py_sum_nonneg. apply Forall_drop, Forall_take, HX. }
        lia. }
      rewrite (py_sum_take_S X k _ HXk) in *. lia.
Qed.

Lemma np_cumsum_length (X : list Z) : length (np_cumsum X) = length X.
Proof. unfold np_cumsum. now rewrite cumsum_from_length. Qed.

Lemma np_cumsum_lookup (X : list Z) (k : nat) :
  (k < length X)%nat -> np_cumsum X !! k = Some (py_sum (take (S k) X)).
Proof. intros Hk. unfold np_cumsum. now rewrite cumsum_from_lookup by lia. Qed.

(** The value read just before position [k] of the prefix sums. *)
Lemma prefix_sum_before (X : list Z) (k : nat) :
  (k < length X)%nat ->
  (if 0 <? Z.of_nat k then py_index (np_cumsum X) (Z.of_nat k - 1) else Ok 0)
  = Ok (py_sum (take k X)).
Proof.
  intros Hk. destruct (0 <? Z.of_nat k) eqn:E.
  - apply Z.ltb_lt in E.
    replace (Z.of_nat k - 1) with (Z.of_nat (k - 1)) by lia.
    apply py_index_nat. rewrite np_cumsum_lookup by lia.
    now replace (S (k - 1)) with k by lia.
  - apply Z.ltb_ge in E. destruct k; [reflexivity | lia].
Qed.

(** The left cut: with the prefix sums of a leading part [P ++ a :: Q] of the
    list, an offset that falls into [a] cuts [a] and drops [P]. *)
Lemma cut_left_ok (P Q R : list (ATUDescriptor F)) a (delta : Z) :
  Forall wf_atu (P ++ a :: Q) -> 
  atus_length P <= delta < atus_length P + atu_length a ->
  cut_left (np_cumsum (map atu_length (P ++ a :: Q))) delta ((P ++ a :: Q) ++ R)
  = Ok (shorten_left a (delta - atus_length P) :: Q ++ R).
Proof.
  intros Hwf [Hd1 Hd2].
  assert (Ha : wf_atu a).
  { rewrite Forall_app, Forall_cons in Hwf. tauto. }
  assert (HP : 0 <= atus_length P).
  { apply atus_length_nonneg. rewrite Forall_app in Hwf. tauto. }
  set (X := map atu_length (P ++ a :: Q)).
  assert (HX : Forall (fun x => 0 < x) X) by now apply wf_atus_positive.
  assert (HXk : X !! length P = Some (atu_length a)).
  { unfold X. rewrite list_lookup_fmap, list_lookup_middle by reflexivity. reflexivity. }
  assert (Htk : py_sum (take (length P) X) = atus_length P).
  { unfold X, atus_length. rewrite <- fmap_take. now rewrite take_app_length. }
  assert (Hss : searchsorted_right (np_cumsum X) delta = Z.of_nat (length P)).
  { apply (searchsorted_right_unique X (length P) (atu_length a)); auto. lia. }
  assert (Heq : (P ++ a :: Q) ++ R = P ++ a :: (Q ++ R)) by now rewrite <- app_assoc.
  rewrite Heq. clear Heq.
  unfold cut_left. fold X. rewrite Hss.
  rewrite np_cumsum_length.
  assert (HlenX : length X = (length P + S (length Q))%nat).
  { unfold X. rewrite length_map, length_app. reflexivity. }
  rewrite (proj2 (Z.ltb_lt (Z.of_nat (length P)) (Z.of_nat (length X)))) by lia.
  change (py_assert true ?m ≫= ?f) with (f tt). cbv beta.
  assert (Hbefore := prefix_sum_before X (length P) ltac:(lia)).
  rewrite Htk in Hbefore.
  rewrite Hbefore.
  change (Ok ?x ≫= ?f) with (f x). cbv beta.
  rewrite (py_index_nat _ (length P) a) by now rewrite list_lookup_middle.
  change (Ok ?x ≫= ?f) with (f x). cbv beta.
  rewrite (atu_nonempty_wf a Ha).
  change (py_assert true ?m ≫= ?f) with (f tt). cbv beta.
  destruct (shorten_left_wf a (delta - atus_length P) Ha) as [Ha' Hl']; [lia|].
  assert (Hfin : py_setitem (P ++ a :: Q ++ R) (Z.of_nat (length P))
                   (shorten_left a (delta - atus_length P))
                 ≫= (fun atus_ => Ok (py_slice_from atus_ (Z.of_nat (length P))))
                 = Ok (shorten_left a (delta - atus_length P) :: Q ++ R)).
  { rewrite py_setitem_nat by (rewrite length_app; simpl; lia).
    change (Ok ?x ≫= ?f) with (f x). cbv beta. f_equal.
    rewrite py_slice_from_nat by (rewrite length_insert, length_app; simpl; lia).
    rewrite insert_app_r_alt by lia. rewrite Nat.sub_diag. simpl.
    rewrite drop_app_length. reflexivity. }
  revert Hfin Ha' Hl'. unfold shorten_left, wf_atu, atu_nonempty, atu_length in *.
  destruct (direction a); cbv zeta; cbn [stripe_descriptor start_index_in_stripe_incl
    end_index_in_stripe_excl direction]; intros Hfin Ha' Hl';
    repeat py_pass ltac:(rewrite ?andb_true_iff, ?Z.leb_le, ?Z.ltb_lt; lia);
    change (Ok ?x ≫= ?f) with (f x); cbv beta; exact Hfin.
Qed.

(** The right cut: the prefix sums [Y] run from the end of the list; an
    offset that falls into [b], the ATU before the last [length tl] ones, cuts
    [b] and drops [tl]. *)
Lemma cut_right_ok (front tl : list (ATUDescriptor F)) b (Y : list Z) (lb d : Z) :
  Forall (fun x => 0 < x) Y ->
  take (length tl) Y = map atu_length (rev tl) ->
  Y !! length tl = Some lb ->
  wf_atu b ->
  atus_length tl <= d -> d < atus_length tl + lb ->
  d - atus_length tl < atu_length b ->
  cut_right (np_cumsum Y) (- d) (front ++ b :: tl)
  = Ok (front ++ [shorten_right b (d - atus_length tl)]).
Proof.
  intros HY Htk HYk Hb Hd1 Hd2 Hd3.
  assert (Hsum : py_sum (take (length tl) Y) = atus_length tl).
  { rewrite Htk. fold (atus_length (rev tl)). apply atus_length_rev. }
  assert (Hlen : (length tl < length Y)%nat) by (eapply lookup_lt_Some; eauto).
  assert (Hss : searchsorted_right (np_cumsum Y) d = Z.of_nat (length tl)).
  { apply (searchsorted_right_unique Y (length tl) lb); auto. lia. }
  unfold cut_right. rewrite Z.opp_involutive, Hss.
  assert (Hfst :
    (if 0 <? Z.of_nat (length tl)
     then d0 ← py_index (np_cumsum Y) (Z.of_nat (length tl) - 1);
          Ok (py_slice_to (front ++ b :: tl) (- Z.of_nat (length tl)), d0)
     else Ok (front ++ b :: tl, 0))
    = Ok (front ++ [b], atus_length tl)).
  { pose proof (prefix_sum_before Y (length tl) Hlen) as Hp. rewrite Hsum in Hp.
    destruct (0 <? Z.of_nat (length tl)) eqn:E.
    - rewrite Hp. change (Ok ?x ≫= ?f) with (f x). cbv beta. f_equal. f_equal.
      apply Z.ltb_lt in E.
      rewrite py_slice_to_neg by (rewrite ?length_app; simpl; lia).
      replace (length (front ++ b :: tl) - length tl)%nat with (length (front ++ [b])).
      + replace (front ++ b :: tl) with ((front ++ [b]) ++ tl)
          by now rewrite <- app_assoc.
        apply take_app_length.
      + rewrite !length_app. simpl. lia.
    - apply Z.ltb_ge in E. destruct tl; [reflexivity | simpl in E; lia]. }
  rewrite Hfst. change (Ok ?x ≫= ?f) with (f x). cbv beta iota.
  rewrite py_index_last. change (Ok ?x ≫= ?f) with (f x). cbv beta.
  rewrite (atu_nonempty_wf b Hb).
  change (py_assert true ?m ≫= ?f) with (f tt). cbv beta.
  destruct (shorten_right_wf b (d - atus_length tl) Hb) as [Hb' Hl']; [lia|].
  revert Hb' Hl'. unfold shorten_right, wf_atu, atu_nonempty, atu_length in *.
  destruct (direction b); cbv zeta; cbn [stripe_descriptor start_index_in_stripe_incl
    end_index_in_stripe_excl direction]; intros Hb' Hl';
    repeat py_pass ltac:(rewrite ?andb_true_iff, ?Z.leb_le, ?Z.ltb_lt; lia);
    rewrite py_setitem_last; change (Ok ?x ≫= ?f) with (f x); cbv beta;
    repeat py_pass ltac:(rewrite ?andb_true_iff, ?Z.leb_le, ?Z.ltb_lt; lia);
    repeat (f_equal; try lia).
Qed.

(** An offset inside a list of ATUs falls into one of them. *)
Lemma atus_split_at (A : list (ATUDescriptor F)) (delta : Z) :
  Forall wf_atu A -> 0 <= delta < atus_length A ->
  exists P a Q, A = P ++ a :: Q
    /\ atus_length P <= delta < atus_length P + atu_length a.
Proof.
  induction A as [|x A IH] in delta |- *; intros Hwf Hd.
  - unfold atus_length in Hd. simpl in Hd. change (py_sum []) with 0 in Hd. lia.
  - rewrite atus_length_cons in Hd. apply Forall_cons in Hwf as [Hx HA].
    destruct (Z_lt_dec delta (atu_length x)) as [Hlt|Hge].
    + exists [], x, A. split; [reflexivity|].
      change (atus_length []) with 0. lia.
    + destruct (IH (delta - atu_length x) HA) as (P & a & Q & -> & Hb); [lia|].
      exists (x :: P), a, Q. split; [reflexivity|].
      rewrite atus_length_cons. lia.
Qed.

(** Both cuts in a row.  [A1] are the ATUs of the first contig of the
    segment, [A2] those of the last one; the two may overlap, and may be the
    same contig. *)
Lemma cuts_ok (A1 R1 R2 A2 : list (ATUDescriptor F)) (delta d : Z) :
  A1 ++ R1 = R2 ++ A2 ->
  Forall wf_atu (A1 ++ R1) ->
  0 <= delta < atus_length A1 -> 0 <= d < atus_length A2 ->
  delta + d < atus_length (A1 ++ R1) ->
  exists l1 l2,
    cut_left (np_cumsum (map atu_length A1)) delta (A1 ++ R1) = Ok l1
    /\ cut_right (np_cumsum (map atu_length (rev A2))) (- d) l1 = Ok l2
    /\ Forall wf_atu l2 /\ l2 <> []
    /\ atus_length l2 = atus_length (A1 ++ R1) - delta - d.
Proof.
  intros Heq Hwf Hdelta Hd Hsum.
  assert (Hwf1 : Forall wf_atu A1) by (rewrite Forall_app in Hwf; tauto).
  assert (Hwf2 : Forall wf_atu A2) by (rewrite Heq, Forall_app in Hwf; tauto).
  destruct (atus_split_at A1 delta Hwf1 Hdelta) as (P & a & Q & -> & Ha).
  assert (Hwf2r : Forall wf_atu (rev A2)).
  { rewrite rev_alt. now apply Forall_reverse. }
  destruct (atus_split_at (rev A2) d Hwf2r) as (P2 & b & Q2 & Hr & Hb).
  { now rewrite atus_length_rev. }
  assert (HA2 : A2 = rev Q2 ++ b :: rev P2).
  { rewrite <- (rev_involutive A2), Hr, rev_app_distr. simpl.
    now rewrite <- app_assoc. }
  remember (rev P2) as tl eqn:Etl.
  assert (Htl : atus_length tl = atus_length P2) by (rewrite Etl; apply atus_length_rev).
  assert (Hltl : length tl = length P2) by (rewrite Etl; apply length_rev).
  exists (shorten_left a (delta - atus_length P) :: Q ++ R1).
  rewrite (cut_left_ok P Q R1 a delta Hwf1 Ha).
  set (Y := map atu_length (rev A2)).
  assert (HY : Forall (fun x => 0 < x) Y) by now apply wf_atus_positive.
  assert (HYtk : take (length tl) Y = map atu_length (rev tl)).
  { rewrite Hltl. unfold Y. rewrite Etl, rev_involutive, Hr, <- fmap_take.
    now rewrite take_app_length. }
  assert (HYk : Y !! length tl = Some (atu_length b)).
  { rewrite Hltl. unfold Y. rewrite Hr, list_lookup_fmap, list_lookup_middle by reflexivity.
    reflexivity. }
  assert (Hwfa : wf_atu a) by (rewrite Forall_app, Forall_cons in Hwf1; tauto).
  assert (Hwfb : wf_atu b) by (rewrite HA2, Forall_app, Forall_cons in Hwf2; tauto).
  assert (HP0 : 0 <= atus_length P).
  { apply atus_length_nonneg. rewrite Forall_app in Hwf1. tauto. }
  destruct (shorten_left_wf a (delta - atus_length P) Hwfa) as [Ha' Hla']; [lia|].
  assert (Heq' : P ++ a :: (Q ++ R1) = (R2 ++ rev Q2) ++ b :: tl).
  { rewrite <- (app_assoc R2), <- HA2, <- Heq. now rewrite <- app_assoc. }
  assert (Htot : atus_length ((P ++ a :: Q) ++ R1)
                 = atus_length P + atu_length a + atus_length (Q ++ R1)).
  { rewrite <- app_assoc. simpl. rewrite atus_length_app, atus_length_cons. lia. }
  assert (HwfQR : Forall wf_atu (Q ++ R1)).
  { rewrite <- app_assoc in Hwf. simpl in Hwf.
    rewrite Forall_app, Forall_cons in Hwf. tauto. }
  assert (Hsame : b = a -> tl = Q ++ R1 ->
    exists l2,
      Ok (shorten_left a (delta - atus_length P) :: Q ++ R1) = Ok (shorten_left a (delta - atus_length P) :: Q ++ R1)
      /\ cut_right (np_cumsum Y) (- d) (shorten_left a (delta - atus_length P) :: Q ++ R1) = Ok l2
      /\ Forall wf_atu l2 /\ l2 <> []
      /\ atus_length l2 = atus_length ((P ++ a :: Q) ++ R1) - delta - d).
  { intros -> ->.
    destruct (shorten_right_wf (shorten_left a (delta - atus_length P))
                (d - atus_length (Q ++ R1)) Ha') as [Hb' Hlb']; [lia|].
    eexists. split; [reflexivity|]. split.
    - apply (cut_right_ok [] (Q ++ R1) _ Y (atu_length a) d); auto; lia.
    - split; [|split].
      + simpl. now apply Forall_singleton.
      + discriminate.
      + cbn [app]. change (atus_length [?x]) with (atu_length x + 0). lia. }
  destruct (app_eq_app _ _ _ _ Heq') as (m & [[HPm Hm]|[HGm Hm]]).
  - destruct m as [|x m].
    + simpl in Hm. injection Hm as Hba Htl'. now apply Hsame.
    + (* the right cut would start before the left one: excluded by the lengths *)
      exfalso. simpl in Hm. injection Hm as Hbx Htl'. subst x.
      assert (Hm0 : 0 <= atus_length m).
      { apply atus_length_nonneg. rewrite HPm in Hwf1.
        rewrite !Forall_app, Forall_cons in Hwf1. tauto. }
      assert (0 <= atus_length (R2 ++ rev Q2)).
      { apply atus_length_nonneg. rewrite HPm in Hwf1.
        rewrite !Forall_app in Hwf1. apply Forall_app. tauto. }
      assert (0 < atu_length b) by now apply wf_atu_length.
      assert (HPl : atus_length P
                    = atus_length (R2 ++ rev Q2) + (atu_length b + atus_length m)).
      { now rewrite HPm, atus_length_app, atus_length_cons. }
      assert (Htll : atus_length tl
                     = atus_length m + (atu_length a + atus_length (Q ++ R1))).
      { now rewrite Htl', atus_length_app, atus_length_cons. }
      lia.
  - destruct m as [|x m].
    + simpl in Hm. injection Hm as Hba Htl'. now apply Hsame.
    + simpl in Hm. injection Hm as Hbx Htl'. subst x.
      destruct (shorten_right_wf b (d - atus_length tl) Hwfb) as [Hb' Hlb']; [lia|].
      assert (Hwfm : Forall wf_atu m).
      { rewrite Htl', Forall_app in HwfQR. tauto. }
      eexists. split; [reflexivity|]. split.
      * rewrite Htl'.
        apply (cut_right_ok (shorten_left a (delta - atus_length P) :: m) tl b Y
                 (atu_length b) d); auto; lia.
      * split; [|split].
        -- simpl. apply Forall_cons. split; [exact Ha'|].
           apply Forall_app. split; [exact Hwfm|]. now apply Forall_singleton.
        -- discriminate.
        -- cbn [app]. rewrite atus_length_cons, atus_length_app.
           change (atus_length [?x]) with (atu_length x + 0).
           assert (HQl : atus_length (Q ++ R1)
                         = atus_length m + (atu_length b + atus_length tl)).
           { now rewrite Htl', atus_length_app, atus_length_cons. }
           lia.
Qed.

End TrimFacts.

(** ** Well-formed contigs *)

Section WfFacts.
Context {F : Type} `{Dtype F}.
Implicit Types (n : Node F) (t : ContigTree F).

Lemma mapM_map {A B} (f : A -> result B) (g : A -> B) (l : list A) :
  Forall (fun x => f x = Ok (g x)) l -> mapM f l = Ok (map g l).
Proof.
  induction 1 as [|x l Hx _ IH]; simpl; [reflexivity|].
  now rewrite Hx, IH.
Qed.

Lemma wf_contig_spec (R : Z) (c : ContigDescriptor F) :
  wf_contig R c = true ->
  exists l p,
    atus c !! R = Some l /\ l <> [] /\ Forall wf_atu l
    /\ atu_prefix_sum_length_bins c !! R = Some (np_cumsum (map atu_length l))
    /\ contig_length_at_resolution c !! R = Some (PyInt (atus_length l))
    /\ presence_in_resolution c !! R = Some p.
Proof.
  unfold wf_contig.
  destruct (atus c !! R) as [l|]; [|discriminate].
  destruct (atu_prefix_sum_length_bins c !! R) as [ps|]; [|discriminate].
  destruct (contig_length_at_resolution c !! R) as [[n|h]|]; try discriminate.
  destruct (presence_in_resolution c !! R) as [p|]; [|discriminate].
  rewrite !andb_true_iff, negb_true_iff, bool_decide_eq_false, bool_decide_eq_true.
  rewrite Z.eqb_eq. intros [[[Hl Hwf] Hps] Hn]. subst ps n.
  exists l, p. repeat split; auto.
  apply Forall_forall. intros a Ha. apply wf_atub_spec.
  rewrite forallb_forall in Hwf. apply Hwf. now apply list_elem_of_In.
Qed.

Lemma wf_tree_Forall (R : Z) t :
  wf_tree R t = true ->
  Forall (fun n => wf_contig R (contig_descriptor n) = true) t.
Proof.
  unfold wf_tree. rewrite forallb_forall. intros Hall.
  apply Forall_forall. intros n Hn. apply Hall. now apply list_elem_of_In.
Qed.

Lemma wf_tree_app (R : Z) t1 t2 :
  wf_tree R (t1 ++ t2) = wf_tree R t1 && wf_tree R t2.
Proof. apply forallb_app. Qed.

Lemma flip_atu_wf (a : ATUDescriptor F) :
  wf_atu a -> wf_atu (flip_atu a) /\ atu_length (flip_atu a) = atu_length a.
Proof. unfold wf_atu, atu_length, flip_atu. simpl. tauto. Qed.

Lemma node_atus_spec (R : Z) n :
  wf_contig R (contig_descriptor n) = true ->
  Forall wf_atu (node_atus R n)
  /\ node_atus R n <> []
  /\ atus_length (node_atus R n) = node_size false R n
  /\ (forall ex, node_shown ex R n = true ->
        node_size ex R n = atus_length (node_atus R n))
  /\ (forall ex, node_shown ex R n = false -> node_size ex R n = 0)
  /\ 0 < atus_length (node_atus R n).
Proof.
  intros Hwf. destruct (wf_contig_spec R _ Hwf) as (l & p & Hl & Hne & Hall & _ & _ & Hp).
  unfold node_atus, node_size, node_shown. rewrite Hl, Hp.
  assert (Hrev : Forall wf_atu (map flip_atu (rev l))
                 /\ atus_length (map flip_atu (rev l)) = atus_length l).
  { split.
    - apply Forall_fmap. rewrite rev_alt. apply Forall_reverse.
      eapply Forall_impl; [exact Hall|]. intros a Ha. apply flip_atu_wf, Ha.
    - unfold atus_length. rewrite map_map.
      rewrite (map_ext_Forall _ atu_length).
      + fold (atus_length (rev l)). apply atus_length_rev.
      + apply Forall_forall. intros a _. reflexivity. }
  assert (Hpos : 0 < atus_length l).
  { destruct l as [|a l]; [congruence|]. rewrite atus_length_cons.
    apply Forall_cons in Hall as [Ha Hall].
    pose proof (wf_atu_length a Ha). pose proof (atus_length_nonneg l Hall). lia. }
  destruct (node_direction n); simpl.
  - destruct Hrev as [Hr1 Hr2]. rewrite Hr2. repeat split; auto.
    + destruct l; [congruence|]. simpl. rewrite map_app. simpl.
      intros E. now apply app_eq_nil in E as [_ E].
    + intros ex. destruct (ex && is_hidden p); [discriminate | reflexivity].
    + intros ex. destruct (ex && is_hidden p); [reflexivity | discriminate].
  - repeat split; auto.
    + intros ex. destruct (ex && is_hidden p); [discriminate | reflexivity].
    + intros ex. destruct (ex && is_hidden p); [reflexivity | discriminate].
Qed.

Lemma node_size_nonneg (ex : bool) (R : Z) n :
  wf_contig R (contig_descriptor n) = true -> 0 <= node_size ex R n.
Proof.
  intros Hwf. destruct (node_atus_spec R n Hwf) as (_ & _ & _ & Hs & Hh & Hpos).
  destruct (node_shown ex R n) eqn:E.
  - rewrite (Hs ex E). lia.
  - rewrite (Hh ex E). lia.
Qed.

Lemma node_size_shown (ex : bool) (R : Z) n :
  wf_contig R (contig_descriptor n) = true ->
  0 < node_size ex R n -> node_shown ex R n = true.
Proof.
  intros Hwf Hpos. destruct (node_atus_spec R n Hwf) as (_ & _ & _ & _ & Hh & _).
  destruct (node_shown ex R n) eqn:E; [reflexivity|].
  rewrite (Hh ex E) in Hpos. lia.
Qed.

Lemma node_length_wf (ex : bool) (R : Z) n :
  wf_contig R (contig_descriptor n) = true ->
  node_length (if ex then PIXELS else BINS) R n = Ok (node_size ex R n).
Proof.
  intros Hwf. destruct (wf_contig_spec R _ Hwf) as (l & p & Hl & _ & _ & _ & Hlen & Hp).
  unfold node_size. rewrite Hl, Hp.
  destruct ex; simpl; unfold node_length_px, node_length_bins, py_getitem;
    rewrite ?Hp, ?Hlen; simpl; [destruct (is_hidden p)|]; simpl; try reflexivity.
Qed.

Lemma node_lengths_wf (ex : bool) (R : Z) t :
  wf_tree R t = true ->
  mapM (node_length (if ex then PIXELS else BINS) R) t
  = Ok (map (node_size ex R) t).
Proof.
  intros Hwf. apply mapM_map. eapply Forall_impl; [apply wf_tree_Forall, Hwf|].
  intros n Hn. now apply node_length_wf.
Qed.

Lemma get_sizes_at_wf (ex : bool) (R : Z) t :
  wf_tree R t = true -> get_sizes_at ex R t = Ok (tree_size ex R t).
Proof.
  intros Hwf. unfold get_sizes_at, subtree_length.
  now rewrite node_lengths_wf.
Qed.

Lemma sizes_or_zero_wf (ex : bool) (R : Z) t :
  wf_tree R t = true -> sizes_or_zero ex R t = Ok (tree_size ex R t).
Proof.
  intros Hwf. destruct t as [|n t]; [reflexivity|].
  unfold sizes_or_zero. now apply get_sizes_at_wf.
Qed.

Lemma tree_size_app (ex : bool) (R : Z) t1 t2 :
  tree_size ex R (t1 ++ t2) = tree_size ex R t1 + tree_size ex R t2.
Proof. unfold tree_size. now rewrite map_app, py_sum_app. Qed.

Lemma tree_size_cons (ex : bool) (R : Z) n t :
  tree_size ex R (n :: t) = node_size ex R n + tree_size ex R t.
Proof. reflexivity. Qed.

Lemma tree_size_nonneg (ex : bool) (R : Z) t :
  wf_tree R t = true -> 0 <= tree_size ex R t.
Proof.
  intros Hwf. induction t as [|n t IH]; [unfold tree_size; simpl; change (py_sum []) with 0; lia|].
  simpl in Hwf. apply andb_true_iff in Hwf as [Hn Ht].
  rewrite tree_size_cons. pose proof (node_size_nonneg ex R n Hn). specialize (IH Ht). lia.
Qed.

Lemma traverse_fn_wf (R : Z) n :
  wf_contig R (contig_descriptor n) = true ->
  traverse_fn R n = Ok (node_atus R n).
Proof.
  intros Hwf. destruct (wf_contig_spec R _ Hwf) as (l & p & Hl & _).
  unfold traverse_fn, node_atus, py_getitem, true_direction. rewrite Hl. simpl.
  destruct (node_direction n); [|reflexivity].
  apply mapM_map. apply Forall_forall. intros a _.
  unfold flip_atu. now destruct (direction a).
Qed.

Lemma first_contig_prefix_sum_wf (R : Z) n :
  wf_contig R (contig_descriptor n) = true ->
  first_contig_prefix_sum R n = Ok (np_cumsum (map atu_length (node_atus R n))).
Proof.
  intros Hwf. destruct (wf_contig_spec R _ Hwf) as (l & p & Hl & Hne & _ & Hps & _).
  unfold first_contig_prefix_sum, node_atus, py_getitem. rewrite Hl, Hps. simpl.
  destruct (node_direction n); [|reflexivity].
  rewrite flip_prefix_sum_cumsum by (destruct l; [congruence | discriminate]).
  do 2 f_equal. rewrite map_map, <- map_rev. apply map_ext. reflexivity.
Qed.

Lemma last_contig_prefix_sum_wf (R : Z) n :
  wf_contig R (contig_descriptor n) = true ->
  last_contig_prefix_sum R n
  = Ok (np_cumsum (map atu_length (rev (node_atus R n)))).
Proof.
  intros Hwf. destruct (wf_contig_spec R _ Hwf) as (l & p & Hl & Hne & _ & Hps & _).
  unfold last_contig_prefix_sum, node_atus, py_getitem. rewrite Hl, Hps. simpl.
  destruct (node_direction n).
  - do 2 f_equal. rewrite <- map_rev, rev_involutive, map_map.
    apply map_ext. reflexivity.
  - rewrite flip_prefix_sum_cumsum by (destruct l; [congruence | discriminate]).
    do 2 f_equal. now rewrite map_rev.
Qed.

End WfFacts.

(** ** Exposing a segment and walking it *)

Section ExposeFacts.
Context {F : Type} `{Dtype F}.
Implicit Types (n : Node F) (t : ContigTree F).

Lemma split_less_spec (sz : Node F -> Z) (start acc : Z) t :
  Forall (fun n => 0 <= sz n) t -> acc <= start ->
  exists a r,
    split_less start acc (zip t (map sz t))
    = (a, zip r (map sz r), acc + py_sum (map sz a))
    /\ t = a ++ r
    /\ acc + py_sum (map sz a) <= start
    /\ match r with
       | [] => True
       | n :: _ => start < acc + py_sum (map sz a) + sz n
       end.
Proof.
  intros Hsz. revert acc. induction Hsz as [|n t Hn Ht IH]; intros acc Hacc.
  - exists [], []. simpl. change (py_sum []) with 0.
    rewrite Z.add_0_r. repeat split; auto.
  - simpl. destruct (acc + sz n <=? start) eqn:E.
    + apply Z.leb_le in E.
      destruct (IH (acc + sz n) E) as (a & r & Heq & -> & Hle & Hr).
      rewrite Heq. exists (n :: a), r. simpl map. rewrite py_sum_cons.
      rewrite !Z.add_assoc. repeat split; auto.
    + apply Z.leb_gt in E. exists [], (n :: t). simpl.
      change (py_sum []) with 0. rewrite Z.add_0_r. repeat split; auto.
Qed.

Lemma split_segment_spec (sz : Node F -> Z) (end_ acc : Z) t :
  exists s g,
    split_segment end_ acc (zip t (map sz t)) = (s, g)
    /\ t = s ++ g
    /\ (forall s' n, s = s' ++ [n] -> acc + py_sum (map sz s') < end_)
    /\ (g <> [] -> end_ <= acc + py_sum (map sz s))
    /\ (acc < end_ -> t <> [] -> s <> []).
Proof.
  revert acc. induction t as [|n t IH]; intros acc.
  - exists [], []. simpl. repeat split; auto.
    + intros s' n E. now destruct s'.
    + congruence.
  - simpl. destruct (acc <? end_) eqn:E.
    + apply Z.ltb_lt in E.
      destruct (IH (acc + sz n)) as (s & g & Heq & -> & Hlast & Hg & _).
      rewrite Heq. exists (n :: s), g. repeat split; auto.
      * intros s' n0 Es. destruct s' as [|x s'].
        -- change (py_sum (map sz [])) with 0. lia.
        -- simpl in Es. injection Es as <- Es.
           simpl map. rewrite py_sum_cons. specialize (Hlast s' n0 Es). lia.
      * intros Hne. simpl map. rewrite py_sum_cons. specialize (Hg Hne). lia.
    + apply Z.ltb_ge in E. exists [], (n :: t). repeat split.
      * simpl. do 2 f_equal. apply fst_zip. rewrite length_map. lia.
      * intros s' n0 Es. now destruct s'.
      * intros _. change (py_sum (map sz [])) with 0. lia.
      * intros Hlt. lia.
Qed.

(** Exposing never fails on a well-formed tree. *)
Lemma expose_segment_total (ex : bool) (R start_ end_ : Z) t :
  wf_tree R t = true ->
  exists es, expose_segment t R start_ end_ (if ex then PIXELS else BINS) = Ok es.
Proof.
  intros Hwf. unfold expose_segment. rewrite node_lengths_wf by assumption.
  change (Ok ?x ≫= ?f) with (f x). cbv beta.
  destruct (split_less start_ 0 _) as [[l rest] pos].
  destruct (end_ <=? start_); [eauto|].
  destruct (split_segment end_ pos rest) as [s g]. eauto.
Qed.

(** The segment exposed for a non-empty range inside the assembly: its first
    contig holds the start of the range and its last one the end. *)
Lemma expose_segment_spec (ex : bool) (R start_ end_ : Z) t :
  wf_tree R t = true ->
  0 <= start_ -> start_ < end_ -> end_ <= tree_size ex R t ->
  exists l n1 sg1 sg2 n2 g,
    expose_segment t R start_ end_ (if ex then PIXELS else BINS)
    = Ok (mk_exposed l (n1 :: sg1) g)
    /\ t = l ++ (n1 :: sg1) ++ g
    /\ n1 :: sg1 = sg2 ++ [n2]
    /\ tree_size ex R l <= start_ < tree_size ex R l + node_size ex R n1
    /\ tree_size ex R l + tree_size ex R sg2 < end_
    /\ end_ <= tree_size ex R l + tree_size ex R (n1 :: sg1).
Proof.
  intros Hwf Hs Hse He. unfold expose_segment.
  rewrite node_lengths_wf by assumption.
  change (Ok ?x ≫= ?f) with (f x). cbv beta.
  assert (Hsz : Forall (fun n => 0 <= node_size ex R n) t).
  { eapply Forall_impl; [apply wf_tree_Forall, Hwf|].
    intros n Hn. now apply node_size_nonneg. }
  destruct (split_less_spec (node_size ex R) start_ 0 t Hsz Hs)
    as (l & r & Heq & Ht & Hle & Hr).
  rewrite Heq. rewrite (proj2 (Z.leb_gt _ _)) by lia.
  destruct (split_segment_spec (node_size ex R) end_ (0 + py_sum (map (node_size ex R) l)) r)
    as (s & g & Heq2 & Hr2 & Hlast & Hg & Hne).
  rewrite Heq2. fold (tree_size ex R l) in *. rewrite Z.add_0_l in *.
  assert (Hrne : r <> []).
  { intros ->. rewrite app_nil_r in Ht. subst t. lia. }
  specialize (Hne ltac:(lia) Hrne).
  destruct s as [|n1 sg1]; [congruence|].
  destruct (exists_last Hne) as (sg2 & n2 & Hsnoc).
  exists l, n1, sg1, sg2, n2, g. split; [reflexivity|].
  split; [now rewrite Ht, Hr2|]. split; [exact Hsnoc|].
  split.
  - rewrite Hr2 in Hr. simpl in Hr. lia.
  - split; [now apply (Hlast sg2 n2)|].
    destruct g as [|x g].
    + rewrite Ht, Hr2, app_nil_r, tree_size_app in He. exact He.
    + apply Hg. discriminate.
Qed.

Lemma node_visited_wf (ex : bool) (R : Z) n :
  wf_contig R (contig_descriptor n) = true ->
  node_visited R ex n = Ok (node_shown ex R n).
Proof.
  intros Hwf. destruct (wf_contig_spec R _ Hwf) as (l & p & _ & _ & _ & _ & _ & Hp).
  unfold node_visited, node_shown, py_getitem. rewrite Hp.
  destruct ex; reflexivity.
Qed.

Lemma traverse_wf (ex : bool) (R : Z) t :
  wf_tree R t = true ->
  traverse_nodes_at_resolution t R ex = Ok (List.filter (node_shown ex R) t).
Proof.
  induction t as [|n t IH]; intros Hwf; [reflexivity|].
  simpl in Hwf. apply andb_true_iff in Hwf as [Hn Ht].
  simpl. rewrite (node_visited_wf ex R n Hn), (IH Ht). simpl.
  now destruct (node_shown ex R n).
Qed.

Lemma wf_tree_filter (ex : bool) (R : Z) t :
  wf_tree R t = true -> wf_tree R (List.filter (node_shown ex R) t) = true.
Proof.
  induction t as [|n t IH]; intros Hwf; [reflexivity|].
  simpl in Hwf. apply andb_true_iff in Hwf as [Hn Ht]. simpl.
  destruct (node_shown ex R n); [simpl; rewrite Hn|]; auto.
Qed.

Lemma traverse_atus_wf (ex : bool) (R : Z) t :
  wf_tree R t = true ->
  mapM (traverse_fn R) (List.filter (node_shown ex R) t)
  = Ok (map (node_atus R) (List.filter (node_shown ex R) t)).
Proof.
  intros Hwf. apply mapM_map.
  eapply Forall_impl; [apply wf_tree_Forall, (wf_tree_filter ex), Hwf|].
  intros n Hn. now apply traverse_fn_wf.
Qed.

Lemma seg_atus_cons (ex : bool) (R : Z) n t :
  seg_atus ex R (n :: t)
  = (if node_shown ex R n then node_atus R n else []) ++ seg_atus ex R t.
Proof. unfold seg_atus. simpl. now destruct (node_shown ex R n). Qed.

Lemma seg_atus_app (ex : bool) (R : Z) t1 t2 :
  seg_atus ex R (t1 ++ t2) = seg_atus ex R t1 ++ seg_atus ex R t2.
Proof.
  unfold seg_atus. now rewrite List.filter_app, map_app, concat_app.
Qed.

Lemma seg_atus_spec (ex : bool) (R : Z) t :
  wf_tree R t = true ->
  Forall wf_atu (seg_atus ex R t)
  /\ atus_length (seg_atus ex R t) = tree_size ex R t.
Proof.
  induction t as [|n t IH]; intros Hwf.
  - split; [constructor | reflexivity].
  - simpl in Hwf. apply andb_true_iff in Hwf as [Hn Ht].
    destruct (IH Ht) as [IH1 IH2].
    destruct (node_atus_spec R n Hn) as (Hall & _ & _ & Hs & Hh & _).
    rewrite seg_atus_cons, tree_size_cons, atus_length_app.
    destruct (node_shown ex R n) eqn:E.
    + rewrite (Hs ex E). split; [apply Forall_app; auto | lia].
    + rewrite (Hh ex E). split; [exact IH1 | rewrite IH2; reflexivity].
Qed.

End ExposeFacts.

(** ** The ATU resolver *)

(** One step of a Python body whose first statement has returned. *)
Ltac py_step := change (Ok ?x ≫= ?f) with (f x); cbv beta.

Section ResolverFacts.
Context {F : Type} `{Dtype F}.
Implicit Types (n : Node F) (t : ContigTree F) (a b : ATUDescriptor F).

Lemma fuse_spec a b :
  atu_nonempty a = true -> atu_nonempty b = true -> fusible a b = true ->
  atu_nonempty (fuse a b) = true
  /\ atu_length (fuse a b) = atu_length a + atu_length b.
Proof.
  unfold atu_nonempty, fusible, fuse, atu_length. simpl.
  rewrite !andb_true_iff, !Z.ltb_lt, !Z.eqb_eq. lia.
Qed.

Lemma reduce_from_spec a (l : list (ATUDescriptor F)) :
  atu_nonempty a = true -> forallb atu_nonempty l = true ->
  forallb atu_nonempty (reduce_from a l) = true
  /\ atus_length (reduce_from a l) = atu_length a + atus_length l
  /\ reduce_from a l <> [].
Proof.
  revert a. induction l as [|b l IH]; intros a Ha Hl.
  - simpl. rewrite Ha. repeat split; auto.
  - simpl in Hl. apply andb_true_iff in Hl as [Hb Hl]. simpl.
    rewrite atus_length_cons.
    destruct (fusible a b) eqn:E.
    + destruct (fuse_spec a b Ha Hb E) as [Hf1 Hf2].
      destruct (IH (fuse a b) Hf1 Hl) as (I1 & I2 & I3).
      repeat split; auto. lia.
    + destruct (IH b Hb Hl) as (I1 & I2 & I3). simpl. rewrite Ha, I1.
      rewrite atus_length_cons. repeat split; auto. lia.
Qed.

Lemma ATUDescriptor_reduce_spec (l : list (ATUDescriptor F)) :
  forallb atu_nonempty l = true ->
  forallb atu_nonempty (ATUDescriptor_reduce l) = true
  /\ atus_length (ATUDescriptor_reduce l) = atus_length l
  /\ (l <> [] -> ATUDescriptor_reduce l <> []).
Proof.
  destruct l as [|a l]; intros Hl; [repeat split; auto|].
  simpl in Hl. apply andb_true_iff in Hl as [Ha Hl].
  destruct (reduce_from_spec a l Ha Hl) as (I1 & I2 & I3).
  repeat split; auto.
Qed.

Lemma rightmost_snoc t n : rightmost (t ++ [n]) = Some n.
Proof. unfold rightmost. apply last_snoc. Qed.

(** The non-trivial branch of the resolver: both trims succeed and leave
    exactly the queried length. *)
Lemma trims_total (ex : bool) (R : Z) (l sg1 sg2 : ContigTree F) n1 n2
    (start_ end_ : Z) :
  wf_tree R (n1 :: sg1) = true ->
  n1 :: sg1 = sg2 ++ [n2] ->
  tree_size ex R l <= start_ < tree_size ex R l + node_size ex R n1 ->
  tree_size ex R l + tree_size ex R sg2 < end_ ->
  end_ <= tree_size ex R l + tree_size ex R (n1 :: sg1) ->
  start_ < end_ ->
  exists l1 l2,
    trim_left R n1 (start_ - tree_size ex R l) (seg_atus ex R (n1 :: sg1)) = Ok l1
    /\ trim_right R n2
         (end_ - (tree_size ex R l + tree_size ex R (n1 :: sg1))) l1 = Ok l2
    /\ Forall wf_atu l2 /\ l2 <> []
    /\ atus_length l2 = end_ - start_.
Proof.
  intros Hwf Hsnoc Hfirst Hlast1 Hlast2 Hlt.
  assert (Hwf' := Hwf). rewrite Hsnoc, wf_tree_app in Hwf'.
  apply andb_true_iff in Hwf' as [Hwf2 Hn2]. simpl in Hn2.
  rewrite andb_true_r in Hn2.
  assert (Hn1 : wf_contig R (contig_descriptor n1) = true).
  { simpl in Hwf. now apply andb_true_iff in Hwf as [? _]. }
  assert (Hwf1 : wf_tree R sg1 = true).
  { simpl in Hwf. now apply andb_true_iff in Hwf as [_ ?]. }
  assert (Hsz : tree_size ex R (n1 :: sg1) = tree_size ex R sg2 + node_size ex R n2).
  { rewrite Hsnoc, tree_size_app, tree_size_cons.
    change (tree_size ex R []) with 0. lia. }
  assert (Hs1 : node_shown ex R n1 = true) by (apply node_size_shown; auto; lia).
  assert (Hs2 : node_shown ex R n2 = true) by (apply node_size_shown; auto; lia).
  destruct (node_atus_spec R n1 Hn1) as (_ & _ & _ & Hsize1 & _ & _).
  destruct (node_atus_spec R n2 Hn2) as (_ & _ & _ & Hsize2 & _ & _).
  specialize (Hsize1 ex Hs1). specialize (Hsize2 ex Hs2).
  destruct (seg_atus_spec ex R (n1 :: sg1) Hwf) as [Hall Hlen].
  assert (E1 : seg_atus ex R (n1 :: sg1) = node_atus R n1 ++ seg_atus ex R sg1).
  { now rewrite seg_atus_cons, Hs1. }
  assert (E2 : node_atus R n1 ++ seg_atus ex R sg1
               = seg_atus ex R sg2 ++ node_atus R n2).
  { rewrite <- E1, Hsnoc, seg_atus_app, seg_atus_cons, Hs2.
    unfold seg_atus at 2. simpl. now rewrite app_nil_r. }
  rewrite E1 in *.
  destruct (cuts_ok (node_atus R n1) (seg_atus ex R sg1) (seg_atus ex R sg2)
              (node_atus R n2) (start_ - tree_size ex R l)
              (tree_size ex R l + tree_size ex R (n1 :: sg1) - end_) E2 Hall)
    as (l1 & l2 & Hc1 & Hc2 & Hwf_l2 & Hne & Hsum); try lia.
  exists l1, l2. unfold trim_left, trim_right.
  rewrite (first_contig_prefix_sum_wf R n1 Hn1). py_step. rewrite Hc1.
  rewrite (last_contig_prefix_sum_wf R n2 Hn2). py_step.
  replace (end_ - (tree_size ex R l + tree_size ex R (n1 :: sg1)))
    with (- (tree_size ex R l + tree_size ex R (n1 :: sg1) - end_)) by lia.
  rewrite Hc2. repeat split; auto. lia.
Qed.

End ResolverFacts.

(** ** The stripes of the resolved ATUs *)

Lemma py_index_elem {A} (l : list A) (i : Z) (x : A) :
  py_index l i = Ok x -> x ∈ l.
Proof.
  unfold py_index. destruct (_ && _); [|discriminate].
  destruct (l !! _) as [y|] eqn:E; [|discriminate].
  intros [= <-]. eapply list_elem_of_lookup_2; eauto.
Qed.

Lemma py_setitem_Forall {A} (P : A -> Prop) (l l' : list A) (i : Z) (x : A) :
  py_setitem l i x = Ok l' -> Forall P l -> P x -> Forall P l'.
Proof.
  unfold py_setitem. destruct (_ && _); [|discriminate].
  intros [= <-] Hl Hx. now apply Forall_insert.
Qed.

Lemma py_slice_Forall {A} (P : A -> Prop) (l : list A) (lo hi : Z) :
  Forall P l -> Forall P (py_slice l lo hi).
Proof. intros Hl. unfold py_slice. now apply Forall_take, Forall_drop. Qed.

Section StripeFacts.
Context {F : Type} `{Dtype F}.
Variable Q : StripeDescriptor F -> Prop.
Local Abbreviation Qa := (fun a : ATUDescriptor F => Q (stripe_descriptor a)).

Lemma cut_left_stripes (ps : list Z) (delta : Z) (l l1 : list (ATUDescriptor F)) :
  cut_left ps delta l = Ok l1 -> Forall Qa l -> Forall Qa l1.
Proof.
  unfold cut_left. intros Hcut Hl.
  apply bind_Ok_inv in Hcut as (u & _ & Hcut).
  apply bind_Ok_inv in Hcut as (before & _ & Hcut).
  apply bind_Ok_inv in Hcut as (old & Hold & Hcut).
  apply bind_Ok_inv in Hcut as (u' & _ & Hcut).
  apply bind_Ok_inv in Hcut as (new & Hnew & Hcut).
  apply bind_Ok_inv in Hcut as (l' & Hset & Hcut).
  injection Hcut as <-.
  apply py_slice_Forall. eapply py_setitem_Forall; [exact Hset | exact Hl |].
  assert (Hq : Q (stripe_descriptor old)).
  { apply py_index_elem in Hold. rewrite Forall_forall in Hl. now apply Hl. }
  destruct (direction old).
  - apply bind_Ok_inv in Hnew as (? & _ & Hnew).
    apply bind_Ok_inv in Hnew as (? & _ & Hnew).
    apply bind_Ok_inv in Hnew as (? & _ & Hnew).
    injection Hnew as <-. exact Hq.
  - apply bind_Ok_inv in Hnew as (? & _ & Hnew).
    apply bind_Ok_inv in Hnew as (? & _ & Hnew).
    injection Hnew as <-. exact Hq.
Qed.

Lemma cut_right_stripes (ps : list Z) (delta : Z) (l l2 : list (ATUDescriptor F)) :
  cut_right ps delta l = Ok l2 -> Forall Qa l -> Forall Qa l2.
Proof.
  unfold cut_right. intros Hcut Hl.
  apply bind_Ok_inv in Hcut as ([l' del] & Hfst & Hcut).
  assert (Hl' : Forall Qa l').
  { destruct (0 <? _).
    - apply bind_Ok_inv in Hfst as (d0 & _ & Hfst). injection Hfst as <- <-.
      now apply py_slice_Forall.
    - now injection Hfst as <- <-. }
  apply bind_Ok_inv in Hcut as (old & Hold & Hcut).
  apply bind_Ok_inv in Hcut as (u & _ & Hcut).
  assert (Hq : Q (stripe_descriptor old)).
  { apply py_index_elem in Hold. rewrite Forall_forall in Hl'. now apply Hl'. }
  destruct (direction old).
  - apply bind_Ok_inv in Hcut as (? & _ & Hcut).
    apply bind_Ok_inv in Hcut as (? & _ & Hcut).
    apply bind_Ok_inv in Hcut as (l'' & Hset & Hcut).
    apply bind_Ok_inv in Hcut as (? & _ & Hcut).
    injection Hcut as <-. eapply py_setitem_Forall; eauto.
  - apply bind_Ok_inv in Hcut as (? & _ & Hcut).
    apply bind_Ok_inv in Hcut as (l'' & Hset & Hcut).
    apply bind_Ok_inv in Hcut as (? & _ & Hcut).
    injection Hcut as <-. eapply py_setitem_Forall; eauto.
Qed.

Lemma trim_left_stripes (R : Z) (n : Node F) (delta : Z) (l l1 : list (ATUDescriptor F)) :
  trim_left R n delta l = Ok l1 -> Forall Qa l -> Forall Qa l1.
Proof.
  unfold trim_left. intros Ht. apply bind_Ok_inv in Ht as (ps & _ & Ht).
  eapply cut_left_stripes; eauto.
Qed.

Lemma trim_right_stripes (R : Z) (n : Node F) (delta : Z) (l l2 : list (ATUDescriptor F)) :
  trim_right R n delta l = Ok l2 -> Forall Qa l -> Forall Qa l2.
Proof.
  unfold trim_right. intros Ht. apply bind_Ok_inv in Ht as (ps & _ & Ht).
  eapply cut_right_stripes; eauto.
Qed.

(** Every ATU of the tree at [R] has a stripe in [Q]. *)
Lemma node_atus_stripes (R : Z) (n : Node F) :
  (forall l, atus (contig_descriptor n) !! R = Some l -> Forall Qa l) ->
  Forall Qa (node_atus R n).
Proof.
  intros Hn. unfold node_atus.
  destruct (atus (contig_descriptor n) !! R) as [l|]; [|constructor].
  specialize (Hn l eq_refl).
  destruct (node_direction n); [|exact Hn].
  apply Forall_fmap. rewrite rev_alt. apply Forall_reverse.
  eapply Forall_impl; [exact Hn|]. intros a Ha. exact Ha.
Qed.

Lemma seg_atus_stripes (ex : bool) (R : Z) (t : ContigTree F) :
  Forall (fun n => forall l, atus (contig_descriptor n) !! R = Some l -> Forall Qa l) t ->
  Forall Qa (seg_atus ex R t).
Proof.
  induction 1 as [|n t Hn _ IH]; [constructor|].
  rewrite seg_atus_cons. apply Forall_app. split; [|exact IH].
  destruct (node_shown ex R n); [now apply node_atus_stripes | constructor].
Qed.

(** Fusing keeps the ATUs inside their stripes, when a stripe id names one
    stripe. *)
Hypothesis Q_unique :
  forall s1 s2, Q s1 -> Q s2 -> stripe_id s1 = stripe_id s2 -> s1 = s2.

Lemma fuse_wf (a b : ATUDescriptor F) :
  wf_atu a -> wf_atu b -> Qa a -> Qa b -> fusible a b = true ->
  wf_atu (fuse a b) /\ Qa (fuse a b).
Proof.
  unfold wf_atu, fusible, fuse. simpl.
  rewrite !andb_true_iff, !Z.eqb_eq. intros Ha Hb Qa' Qb ((Hid & _) & Hadj).
  rewrite (Q_unique _ _ Qa' Qb Hid). split; [lia | exact Qb].
Qed.

Lemma reduce_from_wf (a : ATUDescriptor F) (l : list (ATUDescriptor F)) :
  wf_atu a -> Qa a -> Forall (fun x => wf_atu x /\ Qa x) l ->
  Forall (fun x => wf_atu x /\ Qa x) (reduce_from a l).
Proof.
  revert a. induction l as [|b l IH]; intros a Ha Hq Hl; simpl.
  - now apply Forall_singleton.
  - apply Forall_cons in Hl as [[Hb Hqb] Hl].
    destruct (fusible a b) eqn:E.
    + destruct (fuse_wf a b Ha Hb Hq Hqb E) as [Hf Hqf]. now apply IH.
    + apply Forall_cons. split; [now split|]. now apply IH.
Qed.

Lemma ATUDescriptor_reduce_wf (l : list (ATUDescriptor F)) :
  Forall (fun x => wf_atu x /\ Qa x) l ->
  Forall (fun x => wf_atu x /\ Qa x) (ATUDescriptor_reduce l).
Proof.
  destruct l as [|a l]; intros Hl; [constructor|].
  apply Forall_cons in Hl as [[Ha Hq] Hl]. now apply reduce_from_wf.
Qed.

End StripeFacts.

Section ResolverTotal.
Context {F : Type} `{Dtype F}.
Implicit Types (n : Node F) (t : ContigTree F) (a b : ATUDescriptor F).

Lemma wf_file_inv (f : ChunkedFile F) (R : Z) :
  wf_file f R = true ->
  exists t, state f = OPENED /\ contig_tree f = Some t /\ wf_tree R t = true.
Proof.
  unfold wf_file. destruct (state f); try discriminate.
  destruct (contig_tree f) as [t|]; [|discriminate]. eauto.
Qed.

Lemma get_atus_for_range_wf (f : ChunkedFile F) (R start_ end_ : Z) (ex : bool)
    (t : ContigTree F) :
  state f = OPENED -> contig_tree f = Some t -> wf_tree R t = true ->
  let total := tree_size ex R t in
  exists atus_,
    get_atus_for_range f R start_ end_ ex = Ok atus_
    /\ atus_length atus_ = Z.max 0 (Z.min end_ total - Z.max 0 start_)
    /\ forallb atu_nonempty atus_ = true
    /\ (atus_ = [] <-> Z.min end_ total <= Z.max 0 start_)
    /\ forall Q : StripeDescriptor F -> Prop,
         (forall s1 s2, Q s1 -> Q s2 -> stripe_id s1 = stripe_id s2 -> s1 = s2) ->
         Forall (fun n => forall l, atus (contig_descriptor n) !! R = Some l ->
                   Forall (fun a => Q (stripe_descriptor a)) l) t ->
         Forall (fun a => wf_atu a /\ Q (stripe_descriptor a)) atus_.
Proof.
  intros Hst Ht Hwf total.
  assert (HT : 0 <= total) by now apply tree_size_nonneg.
  unfold get_atus_for_range. rewrite Hst, Ht.
  rewrite (get_sizes_at_wf ex R t Hwf). py_step. fold total.
  set (s' := constrain_coordinate start_ 0 total).
  set (e' := constrain_coordinate end_ 0 total).
  assert (Hs' : s' = Z.max (Z.min start_ total) 0) by reflexivity.
  assert (He' : e' = Z.max (Z.min end_ total) 0) by reflexivity.
  destruct (e' - s' <=? 0) eqn:Eq.
  - apply Z.leb_le in Eq.
    destruct (expose_segment_total ex R s' e' t Hwf) as [es Hes].
    rewrite Hes. py_step. exists []. split; [reflexivity|].
    split; [change (atus_length []) with 0; lia|].
    split; [reflexivity|]. split; [split; [lia | reflexivity]|].
    intros Q _ _. constructor.
  - apply Z.leb_gt in Eq.
    destruct (expose_segment_spec ex R s' e' t Hwf)
      as (l & n1 & sg1 & sg2 & n2 & g & Hes & Htree & Hsnoc & Hfirst & Hl1 & Hl2);
      try lia.
    rewrite Hes. py_step. cbn [segment less].
    assert (Hwfs : wf_tree R (n1 :: sg1) = true /\ wf_tree R l = true).
    { rewrite Htree, !wf_tree_app in Hwf.
      apply andb_true_iff in Hwf as [Hl Hr]. apply andb_true_iff in Hr as [Hr _].
      auto. }
    destruct Hwfs as [Hwfs Hwfl].
    rewrite (get_sizes_at_wf ex R _ Hwfs). py_step.
    rewrite (sizes_or_zero_wf ex R _ Hwfl). py_step.
    rewrite (proj2 (Z.leb_le 0 (s' - tree_size ex R l))) by lia.
    change (py_assert true ?m ≫= ?k) with (k tt). cbv beta. py_step.
    rewrite (traverse_wf ex R _ Hwfs). py_step.
    rewrite (traverse_atus_wf ex R _ Hwfs). py_step.
    fold (seg_atus ex R (n1 :: sg1)).
    destruct (seg_atus_spec ex R _ Hwfs) as [_ Hlen].
    rewrite Hlen, Z.eqb_refl.
    change (py_assert true ?m ≫= ?k) with (k tt). cbv beta.
    change (leftmost (n1 :: sg1)) with (Some n1). cbv beta iota. py_step.
    destruct (trims_total ex R l sg1 sg2 n1 n2 s' e' Hwfs Hsnoc Hfirst Hl1 Hl2)
      as (l1 & l2 & Htl & Htr & Hwf2 & Hne & Hsum); [lia|].
    rewrite Htl. py_step.
    replace (rightmost (n1 :: sg1)) with (Some n2)
      by (rewrite Hsnoc; symmetry; apply rightmost_snoc).
    cbv beta iota. py_step.
    rewrite Htr. py_step.
    pose proof (forallb_atu_nonempty l2 Hwf2) as Hnon.
    rewrite Hnon.
    change (py_assert true ?m ≫= ?k) with (k tt). cbv beta.
    rewrite Hsum.
    rewrite (proj2 (Z.eqb_eq (e' - s') (Z.min e' total - Z.max 0 s'))) by lia.
    change (py_assert true ?m ≫= ?k) with (k tt). cbv beta.
    destruct (ATUDescriptor_reduce_spec l2 Hnon) as (Hr1 & Hr2 & Hr3).
    rewrite Hr1.
    change (py_assert true ?m ≫= ?k) with (k tt). cbv beta.
    py_step. cbv iota beta.
    specialize (Hr3 Hne).
    assert (Hlenr : (length (ATUDescriptor_reduce l2) <=? 0)%nat = false).
    { destruct (ATUDescriptor_reduce l2); [congruence | reflexivity]. }
    rewrite Hlenr, (proj2 (Z.leb_gt e' s')) by lia.
    rewrite bool_decide_eq_true_2 by reflexivity.
    change (py_assert true ?m ≫= ?k) with (k tt). cbv beta.
    rewrite Hr2, Hsum.
    rewrite (proj2 (Z.eqb_eq (e' - s') (Z.min e' total - Z.max 0 s'))) by lia.
    change (py_assert true ?m ≫= ?k) with (k tt). cbv beta.
    eexists. split; [reflexivity|].
    split; [rewrite Hr2, Hsum; lia|]. split; [exact Hr1|].
    split; [split; [intros E; congruence | lia]|].
    intros Q Hunique HQ. apply ATUDescriptor_reduce_wf; [exact Hunique|].
    apply Forall_and. split; [exact Hwf2|].
    apply (trim_right_stripes Q _ _ _ _ _ Htr).
    apply (trim_left_stripes Q _ _ _ _ _ Htl).
    apply seg_atus_stripes.
    rewrite Htree, !Forall_app in HQ. tauto.
Qed.

End ResolverTotal.

(** ** Clamping and the resolver on well-formed files *)

(** X1: [constrain_coordinate] clamps: for [lower <= upper] the result lies in
    [[lower, upper]], is [x] itself when [x] lies there, [lower] when [x] is
    below and [upper] when [x] is above; clamping twice changes nothing. *)
Theorem constrain_coordinate_clamps (x lower upper : Z) :
  lower <= upper ->
  lower <= constrain_coordinate x lower upper <= upper
  /\ (lower <= x <= upper -> constrain_coordinate x lower upper = x)
  /\ (x < lower -> constrain_coordinate x lower upper = lower)
  /\ (upper < x -> constrain_coordinate x lower upper = upper)
  /\ constrain_coordinate (constrain_coordinate x lower upper) lower upper
     = constrain_coordinate x lower upper.
Proof. unfold constrain_coordinate. lia. Qed.

Lemma constrain_coordinate_clamps_witness :
  0 <= 10
  /\ 0 <= constrain_coordinate 25 0 10 <= 10
  /\ constrain_coordinate (-3) 0 10 = 0.
Proof.
  split; [lia|].
  destruct (constrain_coordinate_clamps 25 0 10 ltac:(lia)) as (Hr & _).
  destruct (constrain_coordinate_clamps (-3) 0 10 ltac:(lia)) as (_ & _ & Hl & _).
  split; [exact Hr | apply Hl; lia].
Defined.

(** X2: the orientation adjustment of a prefix-sum array
    ([ps[:-1] = ps[-1] - np.flip(ps)[1:]]) turns the cumulative sums of a
    non-empty list of lengths into the cumulative sums of the reversed list. *)
Theorem flip_prefix_sum_reverses (X : list Z) :
  X <> [] -> flip_prefix_sum (np_cumsum X) = Ok (np_cumsum (rev X)).
Proof. apply flip_prefix_sum_cumsum. Qed.

Lemma flip_prefix_sum_reverses_witness :
  [2; 3; 5] <> [] /\ flip_prefix_sum (np_cumsum [2; 3; 5]) = Ok [5; 8; 10].
Proof.
  split; [discriminate|].
  apply (flip_prefix_sum_reverses [2; 3; 5]). discriminate.
Defined.

(** X3: on an opened file whose contigs are well-formed at [R],
    [get_atus_for_range] fails on no query: it returns ATUs that are all
    non-empty and whose lengths add up to
    [max 0 (min end total - max 0 start)], [total] being the size the code
    reads from the tree; the list is empty exactly when the clamped range
    is. *)
Theorem get_atus_for_range_total {F : Type} `{Dtype F} (f : ChunkedFile F)
    (R start_ end_ : Z) (ex : bool) :
  wf_file f R = true ->
  exists t total atus_,
    contig_tree f = Some t
    /\ get_sizes_at ex R t = Ok total
    /\ get_atus_for_range f R start_ end_ ex = Ok atus_
    /\ atus_length atus_ = Z.max 0 (Z.min end_ total - Z.max 0 start_)
    /\ forallb atu_nonempty atus_ = true
    /\ (atus_ = [] <-> Z.min end_ total <= Z.max 0 start_).
Proof.
  intros Hwf. destruct (wf_file_inv f R Hwf) as (t & Hst & Ht & Hwt).
  destruct (get_atus_for_range_wf f R start_ end_ ex t Hst Ht Hwt)
    as (atus_ & Hok & Hsum & Hne & Hemp & _).
  exists t, (tree_size ex R t), atus_.
  split; [exact Ht|]. split; [now apply get_sizes_at_wf|]. auto.
Qed.

Lemma get_atus_for_range_total_witness :
  wf_file example_file 10 = true
  /\ exists t total atus_,
       contig_tree example_file = Some t
       /\ get_sizes_at false 10 t = Ok total
       /\ get_atus_for_range example_file 10 1 7 false = Ok atus_
       /\ atus_length atus_ = Z.max 0 (Z.min 7 total - Z.max 0 1)
       /\ forallb atu_nonempty atus_ = true
       /\ (atus_ = [] <-> Z.min 7 total <= Z.max 0 1).
Proof.
  split; [reflexivity|].
  apply (get_atus_for_range_total example_file 10 1 7 false). reflexivity.
Defined.

(** X4: [get_atus_for_range] clamps its coordinates itself: a query and the
    query with both coordinates clamped to [[0, total]] have the same
    outcome, result or error. *)
Theorem get_atus_for_range_clamped {F : Type} `{Dtype F} (f : ChunkedFile F)
    (R start_ end_ : Z) (ex : bool) (t : ContigTree F) (total : Z) :
  contig_tree f = Some t -> get_sizes_at ex R t = Ok total ->
  get_atus_for_range f R (constrain_coordinate start_ 0 total)
    (constrain_coordinate end_ 0 total) ex
  = get_atus_for_range f R start_ end_ ex.
Proof.
  intros Ht Htot. unfold get_atus_for_range. rewrite Ht.
  destruct (state f); try reflexivity.
  rewrite Htot. py_step.
  replace (constrain_coordinate (constrain_coordinate start_ 0 total) 0 total)
    with (constrain_coordinate start_ 0 total) by (unfold constrain_coordinate; lia).
  replace (constrain_coordinate (constrain_coordinate end_ 0 total) 0 total)
    with (constrain_coordinate end_ 0 total) by (unfold constrain_coordinate; lia).
  reflexivity.
Qed.

Lemma get_atus_for_range_clamped_witness :
  get_atus_for_range example_file 10 (constrain_coordinate (-5) 0 4)
    (constrain_coordinate 9 0 4) false
  = get_atus_for_range example_file 10 (-5) 9 false.
Proof.
  apply (get_atus_for_range_clamped example_file 10 (-5) 9 false
           [make_new_node_from_descriptor example_contig CTG_FORWARD] 4);
    reflexivity.
Defined.

(** ** The dense query *)

(** Splits a hypothesis [m ≫= f = Ok b] into the two steps. *)
Ltac py_inv H :=
  let x := fresh "x" in
  let E := fresh "E" in
  apply bind_Ok_inv in H as (x & E & H).

Section SubmatrixFacts.
Context {F : Type} `{Dtype F}.

(** X5: whatever [get_submatrix] returns has the clamped query's dimensions:
    the matrix is [h] by [w] and the weight vectors have [h] and [w] entries,
    [h] and [w] being the differences of the clamped coordinates. *)
Theorem get_submatrix_shape (f : ChunkedFile F) (R r0 c0 r1 c1 : Z) (ex : bool)
    (M : ndarray F) (wr wc : list F) :
  get_submatrix f R r0 c0 r1 c1 ex = Ok (M, wr, wc) ->
  exists t total,
    contig_tree f = Some t /\ get_sizes_at ex R t = Ok total
    /\ Z.of_nat (shape0 M)
       = constrain_coordinate r1 0 total - constrain_coordinate r0 0 total
    /\ Z.of_nat (shape1 M)
       = constrain_coordinate c1 0 total - constrain_coordinate c0 0 total
    /\ Z.of_nat (length wr)
       = constrain_coordinate r1 0 total - constrain_coordinate r0 0 total
    /\ Z.of_nat (length wc)
       = constrain_coordinate c1 0 total - constrain_coordinate c0 0 total.
Proof.
  unfold get_submatrix. intros Hget.
  destruct (contig_tree f) as [t|]; [|discriminate].
  py_inv Hget. rename x into total. exists t, total.
  split; [reflexivity|]. split; [exact E|].
  do 9 py_inv Hget.
  apply py_assert_Ok_inv, Z.eqb_eq in E8.
  py_inv Hget. apply py_assert_Ok_inv, Z.eqb_eq in E9.
  py_inv Hget. apply py_assert_Ok_inv, Z.eqb_eq in E10.
  py_inv Hget. apply py_assert_Ok_inv, Z.eqb_eq in E11.
  injection Hget as -> -> ->. auto.
Qed.

End SubmatrixFacts.

Lemma get_submatrix_shape_witness :
  exists M wr wc,
    get_submatrix example_file 10 1 0 3 4 false = Ok (M, wr, wc)
    /\ shape0 M = 2%nat /\ shape1 M = 4%nat.
Proof.
  eexists _, _, _. split; [vm_compute; reflexivity|].
  destruct (@get_submatrix_shape Z int64_dtype example_file 10 1 0 3 4 false
              (mk_ndarray 2 4 [[7; 0; 3; 4]; [1; 3; 0; 0]]) [2; 3] [1; 2; 3; 4]
              ltac:(vm_compute; reflexivity))
    as (t & total & Ht & Htot & H0 & H1 & _).
  injection Ht as <-. vm_compute in Htot. injection Htot as <-.
  split; reflexivity.
Defined.

Lemma bind_Ok_eq {A B} (x : A) (k : A -> result B) : Ok x ≫= k = k x.
Proof. reflexivity. Qed.

Section SubmatrixEdges.
Context {F : Type} `{Dtype F}.

(** The loop over the rows when there is no column ATU: every row is an
    array without columns and nothing is read from the store. *)
Lemma row_loop_no_cols (f : ChunkedFile F) (R qc : Z) (st : row_loop_state)
    (row_atus : list (ATUDescriptor F)) :
  qc <= 0 -> forallb atu_nonempty row_atus = true ->
  exists st',
    row_loop f R [] qc st row_atus = Ok st'
    /\ row_subweights st' = row_subweights st
    /\ (row_atus <> [] -> row_subtotals st' = [])
    /\ (row_atus = [] -> st' = st).
Proof.
  intros Hqc. revert st. induction row_atus as [|a l IH]; intros st Hne.
  - exists st. repeat split; auto. congruence.
  - simpl in Hne. apply andb_true_iff in Hne as [Ha Hl].
    simpl. unfold row_loop_body at 1. simpl.
    rewrite (proj2 (Z.leb_le qc 0)) by lia. simpl.
    unfold np_zeros.
    assert (Hlen : 0 <= atu_length a).
    { unfold atu_nonempty in Ha. apply Z.ltb_lt in Ha. unfold atu_length. lia. }
    rewrite (proj2 (Z.ltb_ge (atu_length a) 0)) by lia. simpl.
    destruct (IH (mk_row_loop (row_matrices st ++ [mk_ndarray (Z.to_nat (atu_length a)) 0
                                 (replicate (Z.to_nat (atu_length a)) [])])
                   (row_subweights st) []) Hl) as (st' & Hst' & Hw & Hs & He).
    exists st'. split; [exact Hst'|]. split; [exact Hw|]. split; [|congruence].
    intros _. destruct l as [|b l].
    + now rewrite (He eq_refl).
    + apply Hs. discriminate.
Qed.

(** X6: a reversed range makes [get_submatrix] fail.  On an opened file with
    well-formed contigs, when the clamped row range is reversed the call
    raises the assertion on the row count; when only the clamped column
    range is reversed, the one on the column count. *)
Theorem get_submatrix_reversed (f : ChunkedFile F) (R r0 c0 r1 c1 : Z) (ex : bool)
    (t : ContigTree F) :
  wf_file f R = true -> contig_tree f = Some t ->
  let total := tree_size ex R t in
  let r0' := constrain_coordinate r0 0 total in
  let r1' := constrain_coordinate r1 0 total in
  let c0' := constrain_coordinate c0 0 total in
  let c1' := constrain_coordinate c1 0 total in
  (r1' < r0' ->
   get_submatrix f R r0 c0 r1 c1 ex
   = Raise (AssertionError "Row count is not as queried??"))
  /\ (r0' <= r1' -> c1' < c0' ->
      get_submatrix f R r0 c0 r1 c1 ex
      = Raise (AssertionError "Column count is not as queried??")).
Proof.
  intros Hwf Ht total r0' r1' c0' c1'.
  destruct (wf_file_inv f R Hwf) as (t' & Hst & Ht' & Hwt).
  rewrite Ht in Ht'. injection Ht' as <-.
  assert (HT : 0 <= total) by now apply tree_size_nonneg.
  destruct (get_atus_for_range_wf f R r0' r1' ex t Hst Ht Hwt)
    as (rows_ & Hrows & Hrsum & Hrne & Hremp & _).
  destruct (get_atus_for_range_wf f R c0' c1' ex t Hst Ht Hwt)
    as (cols_ & Hcols & Hcsum & Hcne & Hcemp & _).
  fold total in Hrsum, Hremp, Hcsum, Hcemp.
  assert (Hr0 : r0' = Z.max (Z.min r0 total) 0) by reflexivity.
  assert (Hr1 : r1' = Z.max (Z.min r1 total) 0) by reflexivity.
  assert (Hc0 : c0' = Z.max (Z.min c0 total) 0) by reflexivity.
  assert (Hc1 : c1' = Z.max (Z.min c1 total) 0) by reflexivity.
  assert (Hstart :
    get_submatrix f R r0 c0 r1 c1 ex
    = (_ ← (if (r0' <? r1') && (0 <=? r0') && (r0' <? total)
            then py_assert (0 <? length rows_)%nat
                   "Query is correct but no rows were found??"
            else Ok tt);
       _ ← (if (c0' <? c1') && (0 <=? c0') && (c0' <? total)
            then py_assert (0 <? length cols_)%nat
                   "Query is correct but no columns were found??"
            else Ok tt);
       st ← row_loop f R cols_ (c1' - c0') (mk_row_loop [] [] []) rows_;
       row_weights ←
         (if (0 <? length (row_subweights st))%nat then np_hstack1 (row_subweights st)
          else np_ones (Z.max 0 (r1' - r0')));
       let col_subweights := map (fun t => t.2) (row_subtotals st) in
       col_weights ←
         (if (0 <? length col_subweights)%nat then np_hstack1 col_subweights
          else np_ones (Z.max 0 (c1' - c0')));
       res ←
         (if (0 <? r1' - r0') && (0 <? c1' - c0') then
            r ← np_vstack (row_matrices st);
            _ ← py_assert (0 <? length (row_subweights st))%nat
                  "No row weights were fetched, but query is non-trivial for rows??";
            _ ← py_assert (0 <? length col_subweights)%nat
                  "No column weights were fetched, but query is non-trivial for columns??";
            Ok r
          else np_zeros (Z.max 0 (r1' - r0')) (Z.max 0 (c1' - c0')));
       _ ← py_assert (Z.of_nat (shape0 res) =? r1' - r0')
             "Row count is not as queried??";
       _ ← py_assert (Z.of_nat (shape1 res) =? c1' - c0')
             "Column count is not as queried??";
       _ ← py_assert (Z.of_nat (length row_weights) =? r1' - r0')
             "Row weights count is not as queried??";
       _ ← py_assert (Z.of_nat (length col_weights) =? c1' - c0')
             "Column weights count is not as queried??";
       Ok (res, row_weights, col_weights))).
  { unfold get_submatrix. rewrite Ht.
    rewrite (get_sizes_at_wf ex R t Hwt). py_step. fold total.
    fold r0' r1' c0' c1'. rewrite Hrows. py_step. rewrite Hcols. py_step.
    reflexivity. }
  rewrite Hstart. clear Hstart.
  clearbody r0' r1' c0' c1'. clearbody total.
  assert (Hb0 : 0 <= r0' <= total) by (clear - HT Hr0; lia).
  assert (Hb1 : 0 <= r1' <= total) by (clear - HT Hr1; lia).
  assert (Hb2 : 0 <= c0' <= total) by (clear - HT Hc0; lia).
  assert (Hb3 : 0 <= c1' <= total) by (clear - HT Hc1; lia).
  assert (Hremp' : rows_ = [] <-> r1' <= r0').
  { clear - Hremp Hb0 Hb1. rewrite Hremp. lia. }
  assert (Hcemp' : cols_ = [] <-> c1' <= c0').
  { clear - Hcemp Hb2 Hb3. rewrite Hcemp. lia. }
  clear Hr0 Hr1 Hc0 Hc1 Hrsum Hcsum Hremp Hcemp.
  assert (Hcols_ne : c0' < c1' -> (0 <? length cols_)%nat = true).
  { intros Hlt. destruct cols_; [|reflexivity].
    destruct Hcemp' as [Hemp _]. specialize (Hemp eq_refl). lia. }
  assert (Hcolcheck :
    (if (c0' <? c1') && (0 <=? c0') && (c0' <? total)
     then py_assert (0 <? length cols_)%nat
            "Query is correct but no columns were found??"
     else Ok tt) = Ok tt).
  { destruct (c0' <? c1') eqn:E; [|reflexivity].
    apply Z.ltb_lt in E. rewrite (Hcols_ne E). cbn [andb].
    now destruct ((0 <=? c0') && (c0' <? total)). }
  assert (Hzr : (Z.max 0 (r1' - r0') <? 0) = false) by (apply Z.ltb_ge; lia).
  assert (Hzc : (Z.max 0 (c1' - c0') <? 0) = false) by (apply Z.ltb_ge; lia).
  split.
  - intros Hrev.
    assert (rows_ = []) as -> by (apply Hremp'; lia).
    replace (r0' <? r1') with false by (symmetry; apply Z.ltb_ge; lia).
    change (false && (0 <=? r0') && (r0' <? total)) with false.
    cbv beta iota. rewrite bind_Ok_eq.
    rewrite Hcolcheck, bind_Ok_eq.
    replace (row_loop f R cols_ (c1' - c0') (mk_row_loop [] [] []) [])
      with (Ok (mk_row_loop (F:=F) [] [] [])) by reflexivity.
    rewrite bind_Ok_eq. cbv beta zeta.
    replace (0 <? length (row_subweights (mk_row_loop (F:=F) [] [] [])))%nat
      with false by reflexivity.
    replace (0 <? length (map (fun t0 : ndarray F * list F * list F => t0.2)
                            (row_subtotals (mk_row_loop (F:=F) [] [] []))))%nat
      with false by reflexivity.
    cbv beta iota. unfold np_ones. rewrite Hzr, Hzc. cbv beta iota.
    rewrite !bind_Ok_eq.
    replace (0 <? r1' - r0') with false by (symmetry; apply Z.ltb_ge; lia).
    change (false && (0 <? c1' - c0')) with false.
    cbv beta iota. unfold np_zeros. rewrite Hzr, Hzc.
    change (false || false) with false. cbv beta iota.
    rewrite bind_Ok_eq.
    replace (Z.of_nat (shape0 (mk_ndarray (Z.to_nat (Z.max 0 (r1' - r0')))
                                (Z.to_nat (Z.max 0 (c1' - c0')))
                                (replicate (Z.to_nat (Z.max 0 (r1' - r0')))
                                   (replicate (Z.to_nat (Z.max 0 (c1' - c0'))) dzero))))
             =? r1' - r0') with false
      by (symmetry; apply Z.eqb_neq; cbn [shape0]; lia).
    reflexivity.
  - intros Hrows_ok Hrev.
    assert (cols_ = []) as -> by (apply Hcemp'; lia).
    assert (Hrowcheck :
      (if (r0' <? r1') && (0 <=? r0') && (r0' <? total)
       then py_assert (0 <? length rows_)%nat
              "Query is correct but no rows were found??"
       else Ok tt) = Ok tt).
    { destruct (r0' <? r1') eqn:E; [|reflexivity].
      apply Z.ltb_lt in E. destruct rows_ as [|a l].
      - destruct Hremp' as [Hemp _]. specialize (Hemp eq_refl). lia.
      - cbn [andb]. now destruct ((0 <=? r0') && (r0' <? total)). }
    rewrite Hrowcheck, bind_Ok_eq. rewrite Hcolcheck, bind_Ok_eq.
    destruct (row_loop_no_cols f R (c1' - c0') (mk_row_loop [] [] []) rows_
                ltac:(lia) Hrne) as (st' & Hloop & Hw & Hs & He).
    rewrite Hloop, bind_Ok_eq. cbv beta zeta.
    assert (Hsub : row_subtotals st' = []).
    { destruct rows_ as [|a l]; [now rewrite (He eq_refl) | apply Hs; discriminate]. }
    rewrite Hw, Hsub.
    replace (0 <? length (row_subweights (mk_row_loop (F:=F) [] [] [])))%nat
      with false by reflexivity.
    replace (0 <? length (map (fun t0 : ndarray F * list F * list F => t0.2) []))%nat
      with false by reflexivity.
    cbv beta iota. unfold np_ones. rewrite Hzr, Hzc. cbv beta iota.
    rewrite !bind_Ok_eq.
    replace (0 <? c1' - c0') with false by (symmetry; apply Z.ltb_ge; lia).
    rewrite andb_false_r.
    cbv beta iota. unfold np_zeros. rewrite Hzr, Hzc.
    change (false || false) with false. cbv beta iota.
    rewrite bind_Ok_eq.
    replace (Z.of_nat (shape0 (mk_ndarray (Z.to_nat (Z.max 0 (r1' - r0')))
                                (Z.to_nat (Z.max 0 (c1' - c0')))
                                (replicate (Z.to_nat (Z.max 0 (r1' - r0')))
                                   (replicate (Z.to_nat (Z.max 0 (c1' - c0'))) dzero))))
             =? r1' - r0') with true
      by (symmetry; apply Z.eqb_eq; cbn [shape0]; lia).
    replace (Z.of_nat (shape1 (mk_ndarray (Z.to_nat (Z.max 0 (r1' - r0')))
                                (Z.to_nat (Z.max 0 (c1' - c0')))
                                (replicate (Z.to_nat (Z.max 0 (r1' - r0')))
                                   (replicate (Z.to_nat (Z.max 0 (c1' - c0'))) dzero))))
             =? c1' - c0') with false
      by (symmetry; apply Z.eqb_neq; cbn [shape1]; lia).
    reflexivity.
Qed.

(** X7: [get_submatrix] clamps its four coordinates itself: the query with
    the coordinates clamped to [[0, total]] has the same outcome as the
    query with the raw ones. *)
Theorem get_submatrix_clamped (f : ChunkedFile F) (R r0 c0 r1 c1 : Z) (ex : bool)
    (t : ContigTree F) (total : Z) :
  contig_tree f = Some t -> get_sizes_at ex R t = Ok total ->
  get_submatrix f R (constrain_coordinate r0 0 total) (constrain_coordinate c0 0 total)
    (constrain_coordinate r1 0 total) (constrain_coordinate c1 0 total) ex
  = get_submatrix f R r0 c0 r1 c1 ex.
Proof.
  intros Ht Htot. unfold get_submatrix. rewrite Ht, Htot. py_step.
  assert (Hidem : forall x, constrain_coordinate (constrain_coordinate x 0 total) 0 total
                            = constrain_coordinate x 0 total).
  { intros x. unfold constrain_coordinate. lia. }
  now rewrite !Hidem.
Qed.

End SubmatrixEdges.

Lemma get_submatrix_reversed_witness :
  get_submatrix example_file 10 3 0 1 4 false
  = Raise (AssertionError "Row count is not as queried??").
Proof.
  destruct (@get_submatrix_reversed Z int64_dtype example_file 10 3 0 1 4 false
              [make_new_node_from_descriptor example_contig CTG_FORWARD]
              ltac:(reflexivity) ltac:(reflexivity)) as [Hrow _].
  apply Hrow. vm_compute. reflexivity.
Defined.

Lemma get_submatrix_clamped_witness :
  get_submatrix example_file 10 (constrain_coordinate (-2) 0 4)
    (constrain_coordinate 0 0 4) (constrain_coordinate 9 0 4)
    (constrain_coordinate 3 0 4) false
  = get_submatrix example_file 10 (-2) 0 9 3 false.
Proof.
  apply (@get_submatrix_clamped Z int64_dtype example_file 10 (-2) 0 9 3 false
           [make_new_node_from_descriptor example_contig CTG_FORWARD] 4);
    reflexivity.
Defined.

(** ** The AGP parser on any file *)

Lemma mapM_Ok_In {A B} (f : A -> result B) (l : list A) (ys : list B) (x : A) :
  mapM f l = Ok ys -> In x l -> exists y, f x = Ok y.
Proof.
  revert ys. induction l as [|a l IH]; intros ys Hm Hin; [destruct Hin|].
  simpl in Hm. apply bind_Ok_inv in Hm as (y & Hy & Hm).
  apply bind_Ok_inv in Hm as (ys' & Hys & _).
  destruct Hin as [->|Hin]; eauto.
Qed.

(** One iteration of the loop: the line parses, and a component line appends
    its record. *)
Lemma parseAGP_step_contigs (i : nat) (line : string) (st st' : agp_state) :
  parseAGP_step i line st = Ok st' ->
  exists p,
    parseAGPLine line = Ok p
    /\ contig_records_list st'
       = contig_records_list st ++ (if agp_component p then [agp_contig_of p] else []).
Proof.
  unfold parseAGP_step. intros Hstep.
  apply bind_Ok_inv in Hstep as (p & Hp & Hstep).
  exists p. split; [exact Hp|].
  destruct p as [[[[scaf ctg] dir] b] e]. unfold agp_component, agp_contig_of. simpl.
  destruct (String.eqb scaf "N_spacer").
  - injection Hstep as <-. simpl. now rewrite app_nil_r.
  - simpl. destruct (String.eqb dir "+") eqn:Ep; simpl in Hstep.
    + destruct (i =? 0)%nat.
      * injection Hstep as <-. reflexivity.
      * apply bind_Ok_inv in Hstep as (cur & _ & Hstep).
        destruct (String.eqb scaf cur).
        -- injection Hstep as <-. reflexivity.
        -- apply bind_Ok_inv in Hstep as (s & _ & Hstep).
           apply bind_Ok_inv in Hstep as (e' & _ & Hstep).
           injection Hstep as <-. reflexivity.
    + destruct (String.eqb dir "-") eqn:Em; simpl in Hstep.
      * destruct (i =? 0)%nat.
        -- injection Hstep as <-. reflexivity.
        -- apply bind_Ok_inv in Hstep as (cur & _ & Hstep).
           destruct (String.eqb scaf cur).
           ++ injection Hstep as <-. reflexivity.
           ++ apply bind_Ok_inv in Hstep as (s & _ & Hstep).
              apply bind_Ok_inv in Hstep as (e' & _ & Hstep).
              injection Hstep as <-. reflexivity.
      * apply bind_Ok_inv in Hstep as (d & _ & Hstep). discriminate.
Qed.

Lemma parseAGP_loop_contigs (i : nat) (lines : list string) (st st' : agp_state) :
  parseAGP_loop i lines st = Ok st' ->
  exists ps,
    mapM parseAGPLine lines = Ok ps
    /\ contig_records_list st'
       = contig_records_list st ++ map agp_contig_of (List.filter agp_component ps).
Proof.
  revert i st. induction lines as [|line lines IH]; intros i st Hloop.
  - injection Hloop as <-. exists []. split; [reflexivity|]. simpl. now rewrite app_nil_r.
  - simpl in Hloop. apply bind_Ok_inv in Hloop as (st1 & Hstep & Hloop).
    destruct (parseAGP_step_contigs i line st st1 Hstep) as (p & Hp & Hc1).
    destruct (IH (S i) st1 Hloop) as (ps & Hps & Hc).
    exists (p :: ps). simpl. rewrite Hp, Hps. split; [reflexivity|].
    rewrite Hc, Hc1, <- app_assoc. destruct (agp_component p); reflexivity.
Qed.

Lemma parseAGP_Ok_inv (lines : list string)
    (cs : list AGPContigRecord) (ss : list AGPScaffoldRecord) :
  parseAGP lines = Ok (cs, ss) ->
  exists st ps cur s e,
    parseAGP_loop 0 lines (mk_agp_state [] [] None None None None) = Ok st
    /\ mapM parseAGPLine lines = Ok ps
    /\ cs = map agp_contig_of (List.filter agp_component ps)
    /\ cur_scaf_name st = Some cur /\ cur_start_ctg st = Some s
    /\ cur_end_ctg st = Some e
    /\ ss = scaffold_records_list st ++ [mk_agp_scaffold cur s e].
Proof.
  unfold parseAGP. intros Hp.
  apply bind_Ok_inv in Hp as (st & Hloop & Hp).
  destruct (cur_scaf_name st) as [cur|] eqn:Ecur; [|discriminate].
  destruct (cur_start_ctg st) as [s|] eqn:Es; [|discriminate].
  destruct (cur_end_ctg st) as [e|] eqn:Ee; [|discriminate].
  simpl in Hp. injection Hp as <- <-.
  destruct (parseAGP_loop_contigs 0 lines _ st Hloop) as (ps & Hps & Hc).
  exists st, ps, cur, s, e. repeat split; auto.
Qed.

(** X9: a line with fewer than five fields anywhere in the file (a blank
    line, a short comment or header line) makes [parseAGP] fail: the line
    parser reads the fifth field first and raises [IndexError]. *)
Theorem parseAGP_short_line (lines : list string) (line : string) :
  In line lines -> (length (py_split line) < 5)%nat ->
  parseAGPLine line = Raise IndexError
  /\ exists e, parseAGP lines = Raise e.
Proof.
  intros Hin Hshort.
  assert (Hline : parseAGPLine line = Raise IndexError).
  { unfold parseAGPLine, py_index.
    destruct (4 <? 0) eqn:E; [lia|].
    rewrite (proj2 (Z.ltb_ge 4 (Z.of_nat (length (py_split line))))) by lia.
    rewrite andb_false_r. reflexivity. }
  split; [exact Hline|].
  destruct (parseAGP lines) as [[cs ss]|e] eqn:Hp; [|eauto].
  destruct (parseAGP_Ok_inv lines cs ss Hp) as (st & ps & cur & s & e & _ & Hps & _).
  destruct (mapM_Ok_In _ _ _ line Hps Hin) as (y & Hy). congruence.
Qed.

Lemma parseAGP_short_line_witness :
  parseAGPLine "##agp-version 2.0" = Raise IndexError
  /\ exists e, parseAGP ["##agp-version 2.0"; agp_w1] = Raise e.
Proof.
  apply (parseAGP_short_line ["##agp-version 2.0"; agp_w1] "##agp-version 2.0").
  - left. reflexivity.
  - vm_compute. lia.
Defined.

(** A gap line leaves the state of the parser as it is. *)
Lemma parseAGP_step_gap (i : nat) (line : string) (st : agp_state)
    (p : string * string * string * Z * Z) :
  parseAGPLine line = Ok p -> agp_component p = false ->
  parseAGP_step i line st = Ok st.
Proof.
  intros Hp Hc. unfold parseAGP_step. rewrite Hp.
  destruct p as [[[[scaf ctg] dir] b] e]. unfold agp_component in Hc. simpl in *.
  apply negb_false_iff in Hc. now rewrite Hc.
Qed.

Lemma parseAGP_loop_gaps (i : nat) (lines : list string) (st : agp_state) :
  Forall (fun line => exists p, parseAGPLine line = Ok p /\ agp_component p = false)
    lines ->
  parseAGP_loop i lines st = Ok st.
Proof.
  intros Hall. revert i. induction Hall as [|line lines (p & Hp & Hc) _ IH]; intros i.
  - reflexivity.
  - simpl. rewrite (parseAGP_step_gap i line st p Hp Hc). apply IH.
Qed.

(** X10: a file without a component line, be it empty or made of gap lines
    only, makes [parseAGP] raise [UnboundLocalError]: the final append reads
    [cur_scaf_name], which no line has assigned. *)
Theorem parseAGP_no_component (lines : list string) :
  Forall (fun line => exists p, parseAGPLine line = Ok p /\ agp_component p = false)
    lines ->
  parseAGP lines = Raise (UnboundLocalError "cur_scaf_name").
Proof.
  intros Hall. unfold parseAGP. now rewrite (parseAGP_loop_gaps 0 lines _ Hall).
Qed.

Lemma parseAGP_no_component_witness :
  parseAGP [agp_gap; agp_gap] = Raise (UnboundLocalError "cur_scaf_name")
  /\ parseAGP [] = Raise (UnboundLocalError "cur_scaf_name").
Proof.
  split.
  - apply (parseAGP_no_component [agp_gap; agp_gap]).
    repeat constructor; eexists; split; vm_compute; reflexivity.
  - apply (parseAGP_no_component []). constructor.
Defined.

(** The locals of the parser are bound only by a component line, and never
    unbound again. *)
Lemma parseAGP_step_cur (i : nat) (line : string) (st st' : agp_state) :
  parseAGP_step i line st = Ok st' ->
  cur_scaf_name st = None -> cur_scaf_name st' <> None ->
  i = 0%nat /\ exists p, parseAGPLine line = Ok p /\ agp_component p = true.
Proof.
  unfold parseAGP_step. intros Hstep Hnone Hsome.
  apply bind_Ok_inv in Hstep as (p & Hp & Hstep).
  destruct p as [[[[scaf ctg] dir] b] e].
  destruct (String.eqb scaf "N_spacer") eqn:En.
  - injection Hstep as <-. congruence.
  - destruct (negb (String.eqb dir "+" || String.eqb dir "-")).
    + apply bind_Ok_inv in Hstep as (d & _ & Hstep). discriminate.
    + apply bind_Ok_inv in Hstep as (d & _ & Hstep).
      destruct (i =? 0)%nat eqn:Ei.
      * apply Nat.eqb_eq in Ei. split; [exact Ei|].
        eexists. split; [exact Hp|]. unfold agp_component. simpl. now rewrite En.
      * rewrite Hnone in Hstep. discriminate.
Qed.

Lemma parseAGP_loop_cur (i : nat) (lines : list string) (st st' : agp_state) :
  parseAGP_loop i lines st = Ok st' ->
  cur_scaf_name st = None -> cur_scaf_name st' <> None ->
  i = 0%nat
  /\ exists line rest p,
       lines = line :: rest /\ parseAGPLine line = Ok p /\ agp_component p = true.
Proof.
  revert i st. induction lines as [|line lines IH]; intros i st Hloop Hnone Hsome.
  - injection Hloop as <-. congruence.
  - simpl in Hloop. apply bind_Ok_inv in Hloop as (st1 & Hstep & Hloop).
    destruct (cur_scaf_name st1) as [c|] eqn:E1.
    + destruct (parseAGP_step_cur i line st st1 Hstep Hnone) as (Hi & p & Hp & Hc);
        [congruence|].
      split; [exact Hi|]. exists line, lines, p. auto.
    + destruct (IH (S i) st1 Hloop E1 Hsome) as (Hi & _). discriminate.
Qed.

(** X11: [parseAGP] succeeds only on a file whose first line is a component
    line: the run of the first scaffold is opened under [if i == 0], [i]
    counting all lines, so a file that begins with a gap line is never
    parsed. *)
Theorem parseAGP_first_line (lines : list string)
    (cs : list AGPContigRecord) (ss : list AGPScaffoldRecord) :
  parseAGP lines = Ok (cs, ss) ->
  exists line rest p,
    lines = line :: rest /\ parseAGPLine line = Ok p /\ agp_component p = true.
Proof.
  intros Hp.
  destruct (parseAGP_Ok_inv lines cs ss Hp)
    as (st & ps & cur & s & e & Hloop & _ & _ & Hcur & _).
  destruct (parseAGP_loop_cur 0 lines _ st Hloop eq_refl) as (_ & Hfirst); [congruence|].
  exact Hfirst.
Qed.

Lemma parseAGP_first_line_witness :
  exists line rest p,
    [agp_w1; agp_gap; agp_w2] = line :: rest
    /\ parseAGPLine line = Ok p /\ agp_component p = true.
Proof.
  apply (parseAGP_first_line [agp_w1; agp_gap; agp_w2]
           [mk_agp_contig "ctg1" CTG_FORWARD 1 100; mk_agp_contig "ctg2" CTG_REVERSED 1 100]
           [mk_agp_scaffold "scaf1" "ctg1" "ctg2"]).
  vm_compute. reflexivity.
Defined.

Lemma adjacent_distinct_snoc {A} (l : list A) (y : A) :
  adjacent_distinct l -> (forall x, last l = Some x -> x <> y) ->
  adjacent_distinct (l ++ [y]).
Proof.
  intros Hl Hlast i a b Ha Hb.
  assert (Hi : (S i < length (l ++ [y]))%nat) by (eapply lookup_lt_Some; eauto).
  rewrite length_app in Hi. simpl in Hi.
  rewrite lookup_app_l in Ha by lia.
  destruct (decide (S i < length l)%nat) as [Hlt|Hge].
  - rewrite lookup_app_l in Hb by lia. eapply Hl; eauto.
  - assert (Hil : S i = length l) by lia.
    rewrite lookup_app_r in Hb by lia.
    replace (S i - length l)%nat with 0%nat in Hb by lia. injection Hb as <-.
    apply Hlast. rewrite last_lookup. rewrite <- Hil. exact Ha.
Qed.

Lemma parseAGP_step_runs (i : nat) (line : string) (st st' : agp_state) :
  parseAGP_step i line st = Ok st' ->
  agp_runs_inv st -> (i = 0%nat -> scaffold_records_list st = []) ->
  agp_runs_inv st'.
Proof.
  unfold parseAGP_step. intros Hstep [Hadj Hlast] H0.
  apply bind_Ok_inv in Hstep as (p & Hp & Hstep).
  destruct p as [[[[scaf ctg] dir] b] e].
  destruct (String.eqb scaf "N_spacer").
  { injection Hstep as <-. now split. }
  destruct (negb (String.eqb dir "+" || String.eqb dir "-")).
  { apply bind_Ok_inv in Hstep as (d & _ & Hstep). discriminate. }
  apply bind_Ok_inv in Hstep as (d & _ & Hstep).
  destruct (i =? 0)%nat eqn:Ei.
  - apply Nat.eqb_eq in Ei. injection Hstep as <-. split; simpl.
    + exact Hadj.
    + intros cur x _. rewrite (H0 Ei). discriminate.
  - apply bind_Ok_inv in Hstep as (cur & Hcur & Hstep).
    destruct (cur_scaf_name st) as [cur'|] eqn:Ecur; [|discriminate].
    injection Hcur as ->.
    destruct (String.eqb scaf cur) eqn:Es.
    + injection Hstep as <-. split; simpl; [exact Hadj|].
      intros c x Hc Hx. injection Hc as <-. now apply (Hlast cur x eq_refl).
    + apply bind_Ok_inv in Hstep as (s & _ & Hstep).
      apply bind_Ok_inv in Hstep as (e' & _ & Hstep).
      injection Hstep as <-. split; simpl.
      * rewrite map_app. simpl. apply adjacent_distinct_snoc; [exact Hadj|].
        intros x Hx. rewrite last_lookup, length_map in Hx.
        rewrite list_lookup_fmap in Hx.
        destruct (scaffold_records_list st !! pred (length (scaffold_records_list st)))
          as [r|] eqn:Er; [|discriminate].
        simpl in Hx. injection Hx as <-.
        apply (Hlast cur r eq_refl). now rewrite last_lookup.
      * intros c x Hc Hx. injection Hc as <-. rewrite last_snoc in Hx.
        injection Hx as <-. simpl. apply String.eqb_neq in Es. congruence.
Qed.

Lemma parseAGP_loop_runs (i : nat) (lines : list string) (st st' : agp_state) :
  parseAGP_loop i lines st = Ok st' ->
  agp_runs_inv st -> (i = 0%nat -> scaffold_records_list st = []) ->
  agp_runs_inv st'.
Proof.
  revert i st. induction lines as [|line lines IH]; intros i st Hloop Hinv H0.
  - now injection Hloop as <-.
  - simpl in Hloop. apply bind_Ok_inv in Hloop as (st1 & Hstep & Hloop).
    apply (IH (S i) st1 Hloop).
    + eapply parseAGP_step_runs; eauto.
    + discriminate.
Qed.

(** There is a scaffold record, and neighbouring records have different
    names: a record is closed only when the object name changes. *)
Lemma parseAGP_runs_distinct (lines : list string)
    (cs : list AGPContigRecord) (ss : list AGPScaffoldRecord) :
  parseAGP lines = Ok (cs, ss) ->
  ss <> [] /\ adjacent_distinct (map agp_scaffold_name ss).
Proof.
  intros Hp.
  destruct (parseAGP_Ok_inv lines cs ss Hp)
    as (st & ps & cur & s & e & Hloop & _ & _ & Hcur & _ & _ & ->).
  split; [now destruct (scaffold_records_list st)|].
  destruct (parseAGP_loop_runs 0 lines _ st Hloop) as [Hadj Hlast].
  - split; simpl.
    + intros i a b Ha. destruct i; discriminate.
    + intros c x _. discriminate.
  - reflexivity.
  - rewrite map_app. simpl. apply adjacent_distinct_snoc; [exact Hadj|].
    intros x Hx. rewrite last_lookup, length_map, list_lookup_fmap in Hx.
    destruct (scaffold_records_list st !! pred (length (scaffold_records_list st)))
      as [r|] eqn:Er; [|discriminate].
    simpl in Hx. injection Hx as <-.
    apply (Hlast cur r Hcur). now rewrite last_lookup.
Qed.

(** ** Unit conversion *)

Section ConvertFacts.
Context {F : Type} `{Dtype F}.

(** X13: converting a position into the unit and resolution it is given in
    returns the position: whenever [convert_units] returns for equal source
    and target, the result is the position itself; the file is then opened
    and the unit is base pairs exactly when the resolution is 0. *)
Theorem convert_units_same (f : ChunkedFile F) (position R : Z)
    (units : QueryLengthUnit) (v : Z) :
  convert_units f position R units R units = Ok v ->
  v = position /\ state f = OPENED /\ (units = BASE_PAIRS <-> R = 0).
Proof.
  unfold convert_units. intros Hc.
  destruct (state f); try discriminate.
  destruct (contig_tree f) as [t|]; [|discriminate].
  apply bind_Ok_inv in Hc as (u1 & Ha1 & Hc).
  apply py_assert_Ok_inv in Ha1. apply bool_decide_eq_true in Ha1.
  apply bind_Ok_inv in Hc as (u2 & _ & Hc).
  apply bind_Ok_inv in Hc as (es & _ & Hc).
  apply bind_Ok_inv in Hc as ([a b] & Hab & Hc).
  apply bind_Ok_inv in Hc as (d & Hd & Hc).
  injection Hc as <-.
  assert (Hiff : units = BASE_PAIRS <-> R = 0).
  { destruct (bool_decide (units = BASE_PAIRS)) eqn:E.
    - apply bool_decide_eq_true in E. symmetry in Ha1. apply Z.eqb_eq in Ha1. tauto.
    - apply bool_decide_eq_false in E. symmetry in Ha1. apply Z.eqb_neq in Ha1. tauto. }
  assert (Hba : b = a).
  { destruct (less es).
    - now injection Hab as <- <-.
    - apply bind_Ok_inv in Hab as (a' & Ea & Hab).
      apply bind_Ok_inv in Hab as (b' & Eb & Hab).
      injection Hab as <- <-. congruence. }
  subst b. split; [|split; [reflexivity | exact Hiff]].
  destruct (bool_decide (units = BASE_PAIRS)) eqn:E.
  - injection Hd as <-. lia.
  - apply bool_decide_eq_false in E.
    assert (HR : R <> 0) by tauto.
    unfold py_floordiv in Hd. rewrite (proj2 (Z.eqb_neq R 0) HR) in Hd.
    injection Hd as <-. rewrite Z.div_mul by exact HR. lia.
Qed.

End ConvertFacts.

Lemma convert_units_same_witness :
  convert_units example_file 3 10 PIXELS 10 PIXELS = Ok 3
  /\ 3 = 3 /\ state example_file = OPENED /\ (PIXELS = BASE_PAIRS <-> 10 = 0).
Proof.
  split; [vm_compute; reflexivity|].
  apply (convert_units_same example_file 3 10 PIXELS 3).
  vm_compute. reflexivity.
Defined.

(** ** [IncorrectResolution] is raised by the facade only *)

Lemma no_IR_Ok {A} (x : A) : no_IR (Ok x).
Proof. discriminate. Qed.

Lemma no_IR_bind {A B} (m : result A) (k : A -> result B) :
  no_IR m -> (forall x, no_IR (k x)) -> no_IR (m ≫= k).
Proof.
  unfold no_IR. intros Hm Hk. destruct m as [x|e]; simpl; [apply Hk|].
  intros E. apply Hm. injection E as ->. reflexivity.
Qed.

Lemma no_IR_assert (c : bool) (msg : string) : no_IR (py_assert c msg).
Proof. destruct c; discriminate. Qed.

Create HintDb no_IR.
#[export] Hint Resolve no_IR_Ok no_IR_assert : no_IR.

(** One step through a Python body. *)
Ltac no_IR_step :=
  match goal with
  | |- no_IR (Ok _) => apply no_IR_Ok
  | |- no_IR (Raise _) => discriminate
  | |- no_IR (py_assert _ _) => apply no_IR_assert
  | |- no_IR (_ ≫= _) => apply no_IR_bind; [|intros]
  | |- no_IR (if ?b then _ else _) => destruct b
  | |- no_IR (match ?x with _ => _ end) => destruct x
  | |- no_IR _ => solve [auto with no_IR]
  end.
Ltac no_IR_auto := repeat no_IR_step.

Lemma no_IR_mapM {A B} (f : A -> result B) (l : list A) :
  (forall x, no_IR (f x)) -> no_IR (mapM f l).
Proof. intros Hf. induction l as [|x l IH]; simpl; no_IR_auto; auto. Qed.

Lemma no_IR_getitem `{Countable K} {V} (d : gmap K V) (k : K) : no_IR (py_getitem d k).
Proof. unfold py_getitem. no_IR_auto. Qed.

Lemma no_IR_index {A} (l : list A) (i : Z) : no_IR (py_index l i).
Proof. unfold py_index. no_IR_auto. Qed.

Lemma no_IR_setitem {A} (l : list A) (i : Z) (x : A) : no_IR (py_setitem l i x).
Proof. unfold py_setitem. no_IR_auto. Qed.

Lemma no_IR_as_int (v : pyval) : no_IR (py_as_int v).
Proof. unfold py_as_int. no_IR_auto. Qed.

Lemma no_IR_flip_prefix_sum (ps : list Z) : no_IR (flip_prefix_sum ps).
Proof. unfold flip_prefix_sum. no_IR_auto; try apply no_IR_index. Qed.

Lemma no_IR_floordiv (a b : Z) : no_IR (py_floordiv a b).
Proof. unfold py_floordiv. no_IR_auto. Qed.

#[export] Hint Resolve no_IR_getitem no_IR_index no_IR_setitem no_IR_as_int
  no_IR_flip_prefix_sum no_IR_floordiv : no_IR.

Section NoIRFacts.
Context {F : Type} `{Dtype F}.

Lemma no_IR_np_zeros (r c : Z) : no_IR (np_zeros (F:=F) r c).
Proof. unfold np_zeros. no_IR_auto. Qed.

Lemma no_IR_np_ones (n : Z) : no_IR (np_ones (F:=F) n).
Proof. unfold np_ones. no_IR_auto. Qed.

Lemma no_IR_np_where (c x y : ndarray F) : no_IR (np_where c x y).
Proof. unfold np_where. no_IR_auto. Qed.

Lemma no_IR_np_hstack (ms : list (ndarray F)) : no_IR (np_hstack ms).
Proof.
  induction ms as [|m ms IH]; simpl; [discriminate|].
  destruct ms as [|m' ms]; [apply no_IR_Ok|]. no_IR_auto; try exact IH.
Qed.

Lemma no_IR_np_vstack (ms : list (ndarray F)) : no_IR (np_vstack ms).
Proof.
  induction ms as [|m ms IH]; simpl; [discriminate|].
  destruct ms as [|m' ms]; [apply no_IR_Ok|]. no_IR_auto; try exact IH.
Qed.

Lemma no_IR_np_hstack1 (vs : list (list F)) : no_IR (np_hstack1 vs).
Proof. unfold np_hstack1. no_IR_auto. Qed.

Lemma no_IR_flip_direction (d : ATUDirection) : no_IR (flip_direction d).
Proof. unfold flip_direction, ATUDirection_of_value. no_IR_auto. Qed.

#[local] Hint Resolve no_IR_np_zeros no_IR_np_ones no_IR_np_where no_IR_np_hstack
  no_IR_np_vstack no_IR_np_hstack1 no_IR_flip_direction : no_IR.

Lemma no_IR_node_length (units : QueryLengthUnit) (R : Z) (n : Node F) :
  no_IR (node_length units R n).
Proof.
  unfold node_length, node_length_px, node_length_bins. no_IR_auto.
Qed.

Lemma no_IR_subtree_length (units : QueryLengthUnit) (R : Z) (t : ContigTree F) :
  no_IR (subtree_length units R t).
Proof.
  unfold subtree_length. no_IR_auto; try apply no_IR_mapM, no_IR_node_length.
Qed.

Lemma no_IR_get_sizes_at (ex : bool) (R : Z) (t : ContigTree F) :
  no_IR (get_sizes_at ex R t).
Proof. apply no_IR_subtree_length. Qed.

Lemma no_IR_sizes_or_zero (ex : bool) (R : Z) (t : ContigTree F) :
  no_IR (sizes_or_zero ex R t).
Proof. unfold sizes_or_zero. destruct t; [apply no_IR_Ok | apply no_IR_get_sizes_at]. Qed.

Lemma no_IR_expose_segment (t : ContigTree F) (R s e : Z) (units : QueryLengthUnit) :
  no_IR (expose_segment t R s e units).
Proof.
  unfold expose_segment. apply no_IR_bind; [apply no_IR_mapM, no_IR_node_length|].
  intros sizes. no_IR_auto.
Qed.

Lemma no_IR_traverse (t : ContigTree F) (R : Z) (ex : bool) :
  no_IR (traverse_nodes_at_resolution t R ex).
Proof.
  induction t as [|n t IH]; simpl; [apply no_IR_Ok|].
  apply no_IR_bind; [unfold node_visited; no_IR_auto|].
  intros keep. apply no_IR_bind; [exact IH|]. intros rest. apply no_IR_Ok.
Qed.

Lemma no_IR_traverse_fn (R : Z) (n : Node F) : no_IR (traverse_fn R n).
Proof.
  unfold traverse_fn. no_IR_auto; try apply no_IR_mapM. intros a. no_IR_auto.
Qed.

Lemma no_IR_cut_left (ps : list Z) (delta : Z) (l : list (ATUDescriptor F)) :
  no_IR (cut_left ps delta l).
Proof. unfold cut_left. no_IR_auto. Qed.

Lemma no_IR_cut_right (ps : list Z) (delta : Z) (l : list (ATUDescriptor F)) :
  no_IR (cut_right ps delta l).
Proof. unfold cut_right. no_IR_auto. Qed.

Lemma no_IR_trim_left (R : Z) (n : Node F) (delta : Z) (l : list (ATUDescriptor F)) :
  no_IR (trim_left R n delta l).
Proof.
  unfold trim_left, first_contig_prefix_sum. no_IR_auto; try apply no_IR_cut_left.
Qed.

Lemma no_IR_trim_right (R : Z) (n : Node F) (delta : Z) (l : list (ATUDescriptor F)) :
  no_IR (trim_right R n delta l).
Proof.
  unfold trim_right, last_contig_prefix_sum. no_IR_auto; try apply no_IR_cut_right.
Qed.

#[local] Hint Resolve no_IR_get_sizes_at no_IR_sizes_or_zero no_IR_expose_segment
  no_IR_traverse no_IR_traverse_fn no_IR_trim_left no_IR_trim_right
  no_IR_mapM : no_IR.

Lemma no_IR_get_atus_for_range (f : ChunkedFile F) (R s e : Z) (ex : bool) :
  no_IR (get_atus_for_range f R s e ex).
Proof. unfold get_atus_for_range. no_IR_auto. Qed.

Lemma no_IR_coo_fill (m : ndarray F) (triples : list (F * (Z * Z))) :
  no_IR (coo_fill m triples).
Proof.
  revert m. induction triples as [|[v [i j]] rest IH]; intros m; simpl;
    [apply no_IR_Ok|].
  destruct (_ && _); [apply IH | discriminate].
Qed.

Lemma no_IR_coo_todense (vals : list F) (rows_ cols_ : list Z) (shape : Z * Z) :
  no_IR (coo_todense vals rows_ cols_ shape).
Proof. unfold coo_todense. no_IR_auto; try apply no_IR_coo_fill. Qed.

Lemma no_IR_fetch_block (d : TreapCOO F) (sr sc : StripeDescriptor F) :
  no_IR (fetch_block d sr sc).
Proof. unfold fetch_block. no_IR_auto; try apply no_IR_coo_todense. Qed.

Lemma no_IR_stripe_intersection (f : ChunkedFile F) (R : Z)
    (row_atu col_atu : ATUDescriptor F) :
  no_IR (get_stripe_intersection_for_atus_as_raw_dense_matrix f R row_atu col_atu).
Proof.
  unfold get_stripe_intersection_for_atus_as_raw_dense_matrix, symmetrize.
  destruct (_ <? _); no_IR_auto; try apply no_IR_fetch_block.
Qed.

Lemma no_IR_atu_intersection (f : ChunkedFile F) (R : Z)
    (row_atu col_atu : ATUDescriptor F) :
  no_IR (get_atu_intersection f R row_atu col_atu).
Proof. unfold get_atu_intersection. no_IR_auto; try apply no_IR_stripe_intersection. Qed.

Lemma no_IR_row_loop_body (f : ChunkedFile F) (R : Z) (cols_ : list (ATUDescriptor F))
    (qc : Z) (st : row_loop_state) (a : ATUDescriptor F) :
  no_IR (row_loop_body f R cols_ qc st a).
Proof.
  unfold row_loop_body. apply no_IR_bind.
  - apply no_IR_mapM. intros c. apply no_IR_atu_intersection.
  - intros subtotals. no_IR_auto.
Qed.

Lemma no_IR_row_loop (f : ChunkedFile F) (R : Z) (cols_ : list (ATUDescriptor F))
    (qc : Z) (st : row_loop_state) (rows_ : list (ATUDescriptor F)) :
  no_IR (row_loop f R cols_ qc st rows_).
Proof.
  revert st. induction rows_ as [|a l IH]; intros st; simpl; [apply no_IR_Ok|].
  apply no_IR_bind; [apply no_IR_row_loop_body | intros st'; apply IH].
Qed.

#[local] Hint Resolve no_IR_get_atus_for_range no_IR_row_loop : no_IR.

Lemma no_IR_get_submatrix (f : ChunkedFile F) (R r0 c0 r1 c1 : Z) (ex : bool) :
  no_IR (get_submatrix f R r0 c0 r1 c1 ex).
Proof. unfold get_submatrix. no_IR_auto. Qed.

(** X14: [get_dense_submatrix] raises [IncorrectResolution] exactly when
    the requested resolution is not among the stored ones: the facade checks
    it first, and nothing it calls afterwards raises this error (for base
    pairs, as long as the tree's [expose_segment_by_length] does not). *)
Theorem get_dense_submatrix_resolution
    (expose_segment_by_length : ContigTree F -> Z -> Z -> Z -> result (ExposedSegment F))
    (f : ChunkedFile F) (R x0 y0 x1 y1 : Z) (units : QueryLengthUnit) (ex : bool) :
  (forall t a b c, no_IR (expose_segment_by_length t a b c)) ->
  get_dense_submatrix expose_segment_by_length f R x0 y0 x1 y1 units ex
  = Raise IncorrectResolution
  <-> R ∉ resolutions f.
Proof.
  intros Hes. unfold get_dense_submatrix, resolution_stored.
  destruct (bool_decide (R ∈ resolutions f)) eqn:E; simpl.
  - apply bool_decide_eq_true in E. split; [|tauto].
    intros Hraise. exfalso. revert Hraise.
    assert (Hpx : forall g x, no_IR (get_px_by_bp expose_segment_by_length g x R)).
    { intros g x. unfold get_px_by_bp. no_IR_auto; try apply Hes. }
    change (no_IR
      match units with
      | BASE_PAIRS =>
          '(x0_px, f0) ← get_px_by_bp expose_segment_by_length f x0 R;
          '(x1_px, f1) ← get_px_by_bp expose_segment_by_length f0 x1 R;
          '(y0_px, f2) ← get_px_by_bp expose_segment_by_length f1 y0 R;
          '(y1_px, f3) ← get_px_by_bp expose_segment_by_length f2 y1 R;
          r ← get_submatrix f3 R x0_px y0_px (1 + x1_px) (1 + y1_px) ex;
          Ok (r, f3)
      | _ =>
          r ← get_submatrix f R x0 y0 x1 y1 (ex || bool_decide (units = PIXELS));
          Ok (r, f)
      end).
    destruct units; no_IR_auto; try apply Hpx; try apply no_IR_get_submatrix.
  - apply bool_decide_eq_false in E. tauto.
Qed.

End NoIRFacts.

Lemma get_dense_submatrix_resolution_witness :
  get_dense_submatrix (fun t _ s e => expose_segment t 0 s e BASE_PAIRS)
    example_file 20 0 0 2 2 BINS false
  = Raise IncorrectResolution
  <-> 20 ∉ resolutions example_file.
Proof.
  apply (@get_dense_submatrix_resolution Z int64_dtype
           (fun t _ s e => expose_segment t 0 s e BASE_PAIRS) example_file 20 0 0 2 2
           BINS false).
  intros t a b c. apply no_IR_expose_segment.
Defined.

(** ** Slices and flips of arrays *)

Section SliceFacts.
Context {F : Type} `{Dtype F}.

Lemma py_slice_lookup {A} (l : list A) (a b : Z) (i : nat) :
  0 <= a <= b -> b <= Z.of_nat (length l) -> (i < Z.to_nat (b - a))%nat ->
  py_slice l a b !! i = l !! (Z.to_nat a + i)%nat.
Proof.
  intros Hab Hb Hi. destruct (py_slice_exact l a b Hab Hb) as [-> _].
  rewrite lookup_take. destruct (decide (i < Z.to_nat (b - a))%nat); [|lia].
  now rewrite lookup_drop.
Qed.

Lemma slice2_spec (m : ndarray F) (r0 r1 c0 c1 : Z) :
  wf_ndarray m ->
  0 <= r0 <= r1 -> r1 <= Z.of_nat (shape0 m) ->
  0 <= c0 <= c1 -> c1 <= Z.of_nat (shape1 m) ->
  wf_ndarray (slice2 m r0 r1 c0 c1)
  /\ shape0 (slice2 m r0 r1 c0 c1) = Z.to_nat (r1 - r0)
  /\ shape1 (slice2 m r0 r1 c0 c1) = Z.to_nat (c1 - c0)
  /\ forall i j, (i < Z.to_nat (r1 - r0))%nat -> (j < Z.to_nat (c1 - c0))%nat ->
       entry (slice2 m r0 r1 c0 c1) i j
       = entry m (Z.to_nat r0 + i) (Z.to_nat c0 + j).
Proof.
  intros [Hl Hrows] Hr Hr1 Hc Hc1.
  assert (Hrl : r1 <= Z.of_nat (length (rows m))) by (rewrite Hl; exact Hr1).
  destruct (py_slice_exact (rows m) r0 r1 Hr Hrl) as [Hrs Hlen].
  assert (Hs1 : shape1 (slice2 m r0 r1 c0 c1) = Z.to_nat (c1 - c0)).
  { unfold slice2, py_bound. simpl.
    destruct (c0 <? 0) eqn:E0; [lia|]. destruct (c1 <? 0) eqn:E1; [lia|]. lia. }
  assert (Hin : forall r, r ∈ py_slice (rows m) r0 r1 -> length r = shape1 m).
  { assert (Hall : Forall (fun r => length r = shape1 m) (py_slice (rows m) r0 r1)).
    { rewrite Hrs. now apply Forall_take, Forall_drop. }
    intros r Hin. rewrite Forall_forall in Hall. now apply Hall. }
  split; [|split; [|split]].
  - split.
    + unfold slice2. simpl. now rewrite length_map.
    + rewrite Hs1. unfold slice2. simpl. apply Forall_forall. intros r Hr'.
      apply list_elem_of_In, in_map_iff in Hr'. destruct Hr' as (r' & <- & Hr').
      apply list_elem_of_In in Hr'.
      destruct (py_slice_exact r' c0 c1 Hc) as [_ Hl']; [rewrite (Hin r' Hr'); lia|].
      exact Hl'.
  - unfold slice2. simpl. exact Hlen.
  - exact Hs1.
  - intros i j Hi Hj. unfold entry, slice2. simpl.
    rewrite list_lookup_fmap.
    rewrite (py_slice_lookup (rows m) r0 r1 i Hr Hrl Hi).
    destruct (rows m !! (Z.to_nat r0 + i)%nat) as [r|] eqn:Er; simpl; [|reflexivity].
    assert (Hlr : length r = shape1 m).
    { rewrite Forall_forall in Hrows. apply Hrows.
      eapply list_elem_of_lookup_2; eauto. }
    rewrite (py_slice_lookup r c0 c1 j Hc) by (rewrite ?Hlr; lia). reflexivity.
Qed.

Lemma rev_lookup {A} (l : list A) (i : nat) :
  (i < length l)%nat -> rev l !! i = l !! (length l - S i)%nat.
Proof. intros Hi. rewrite rev_alt. fold (reverse l). now apply reverse_lookup. Qed.

Lemma flip0_spec (m : ndarray F) :
  wf_ndarray m ->
  wf_ndarray (flip0 m)
  /\ forall i j, (i < shape0 m)%nat ->
       entry (flip0 m) i j = entry m (shape0 m - S i) j.
Proof.
  intros [Hl Hrows]. split.
  - split; simpl; [now rewrite length_rev|].
    rewrite rev_alt. now apply Forall_reverse.
  - intros i j Hi. unfold entry, flip0. simpl.
    rewrite rev_lookup by lia. now rewrite Hl.
Qed.

Lemma flip1_spec (m : ndarray F) :
  wf_ndarray m ->
  wf_ndarray (flip1 m)
  /\ forall i j, (i < shape0 m)%nat -> (j < shape1 m)%nat ->
       entry (flip1 m) i j = entry m i (shape1 m - S j).
Proof.
  intros [Hl Hrows]. split.
  - split; simpl; [now rewrite length_map|].
    apply Forall_fmap. eapply Forall_impl; [exact Hrows|].
    intros r Hr. simpl. now rewrite length_rev.
  - intros i j Hi Hj. unfold entry, flip1. simpl.
    rewrite list_lookup_fmap.
    destruct (rows m !! i) as [r|] eqn:Er; simpl; [|reflexivity].
    assert (Hlr : length r = shape1 m).
    { rewrite Forall_forall in Hrows. apply Hrows.
      eapply list_elem_of_lookup_2; eauto. }
    rewrite rev_lookup by lia. now rewrite Hlr.
Qed.

(** The row a flip by [d] reads for row [i] of [n]. *)
Lemma process_flips_spec (m : ndarray F) (row_atu col_atu : ATUDescriptor F) :
  wf_ndarray m ->
  wf_ndarray (process_flips m row_atu col_atu)
  /\ shape0 (process_flips m row_atu col_atu) = shape0 m
  /\ shape1 (process_flips m row_atu col_atu) = shape1 m
  /\ forall i j, (i < shape0 m)%nat -> (j < shape1 m)%nat ->
       entry (process_flips m row_atu col_atu) i j
       = entry m
           (match direction row_atu with
            | ATU_REVERSED => shape0 m - S i | ATU_FORWARD => i end)%nat
           (match direction col_atu with
            | ATU_REVERSED => shape1 m - S j | ATU_FORWARD => j end)%nat.
Proof.
  intros Hm. unfold process_flips.
  destruct (flip0_spec m Hm) as [Hf0 He0].
  destruct (direction row_atu), (direction col_atu).
  - destruct (flip1_spec (flip0 m) Hf0) as [Hf1 He1].
    repeat split; try apply Hf1.
    intros i j Hi Hj. rewrite He1 by assumption. simpl. now rewrite He0.
  - repeat split; try apply Hf0. intros i j Hi Hj. now rewrite He0.
  - destruct (flip1_spec m Hm) as [Hf1 He1].
    repeat split; try apply Hf1. intros i j Hi Hj. now rewrite He1.
  - repeat split; try apply Hm. 
Qed.

End SliceFacts.

Section TransposeFacts.
Context {F : Type} `{Dtype F}.

Lemma transpose_process_flips_slice2 (m : ndarray F) (row_atu col_atu : ATUDescriptor F) :
  wf_ndarray m ->
  0 <= start_index_in_stripe_incl row_atu <= end_index_in_stripe_excl row_atu ->
  end_index_in_stripe_excl row_atu <= Z.of_nat (shape0 m) ->
  0 <= start_index_in_stripe_incl col_atu <= end_index_in_stripe_excl col_atu ->
  end_index_in_stripe_excl col_atu <= Z.of_nat (shape1 m) ->
  transpose (process_flips
               (slice2 m (start_index_in_stripe_incl row_atu)
                  (end_index_in_stripe_excl row_atu)
                  (start_index_in_stripe_incl col_atu)
                  (end_index_in_stripe_excl col_atu)) row_atu col_atu)
  = process_flips
      (slice2 (transpose m) (start_index_in_stripe_incl col_atu)
         (end_index_in_stripe_excl col_atu)
         (start_index_in_stripe_incl row_atu)
         (end_index_in_stripe_excl row_atu)) col_atu row_atu.
Proof.
  intros Hm Hr Hr1 Hc Hc1.
  set (rs := start_index_in_stripe_incl row_atu) in *.
  set (re := end_index_in_stripe_excl row_atu) in *.
  set (cs := start_index_in_stripe_incl col_atu) in *.
  set (ce := end_index_in_stripe_excl col_atu) in *.
  destruct (slice2_spec m rs re cs ce Hm Hr Hr1 Hc Hc1) as (Hs & Hs0 & Hs1 & Hse).
  assert (Hmt : wf_ndarray (transpose m)) by now apply wf_transpose.
  destruct (slice2_spec (transpose m) cs ce rs re Hmt Hc Hc1 Hr Hr1)
    as (Ht & Ht0 & Ht1 & Hte).
  destruct (process_flips_spec (slice2 m rs re cs ce) row_atu col_atu Hs)
    as (Hp & Hp0 & Hp1 & Hpe).
  destruct (process_flips_spec (slice2 (transpose m) cs ce rs re) col_atu row_atu Ht)
    as (Hq & Hq0 & Hq1 & Hqe).
  apply ndarray_ext.
  - now apply wf_transpose.
  - exact Hq.
  - simpl. congruence.
  - simpl. congruence.
  - intros i j Hi Hj. simpl in Hi, Hj. rewrite Hp1, Hs1 in Hi. rewrite Hp0, Hs0 in Hj.
    rewrite entry_transpose by (auto; lia).
    rewrite Hpe by lia. rewrite Hqe by lia.
    rewrite Hs0, Hs1, Ht0, Ht1.
    assert (Hix : forall (d : ATUDirection) (n k : nat), (k < n)%nat ->
              (match d with ATU_REVERSED => n - S k | ATU_FORWARD => k end < n)%nat).
    { intros d n k Hk. destruct d; lia. }
    rewrite Hse by (apply Hix; lia). rewrite Hte by (apply Hix; lia).
    rewrite entry_transpose; [reflexivity | exact Hm | |].
    + pose proof (Hix (direction col_atu) _ _ Hi). simpl. lia.
    + pose proof (Hix (direction row_atu) _ _ Hj). simpl. lia.
Qed.

Lemma np_zeros_transpose (r c : Z) (z : ndarray F) :
  np_zeros r c = Ok z -> np_zeros c r = Ok (transpose z) /\ wf_ndarray z.
Proof.
  unfold np_zeros. rewrite (orb_comm (c <? 0)).
  destruct ((r <? 0) || (c <? 0)); [discriminate|].
  intros [= <-].
  assert (Hwf : wf_ndarray (mk_ndarray (Z.to_nat r) (Z.to_nat c)
                              (replicate (Z.to_nat r) (replicate (Z.to_nat c) dzero)))).
  { split; simpl; [now rewrite length_replicate|].
    apply Forall_replicate. now rewrite length_replicate. }
  split; [|exact Hwf]. f_equal. symmetry. apply ndarray_ext.
  - now apply wf_transpose.
  - split; simpl; [now rewrite length_replicate|].
    apply Forall_replicate. now rewrite length_replicate.
  - reflexivity.
  - reflexivity.
  - intros i j Hi Hj. simpl in Hi, Hj.
    rewrite entry_transpose by (auto; simpl; lia).
    unfold entry. simpl.
    rewrite !lookup_replicate_2 by lia. simpl.
    now rewrite !lookup_replicate_2 by lia.
Qed.

End TransposeFacts.

(** ** The intersection of two ATUs *)

Section IntersectionFacts.
Context {F : Type} `{Dtype F}.

Lemma symmetrize_Ok (mx : ndarray F) :
  wf_ndarray mx -> shape0 mx = shape1 mx -> fixup_symmetric mx = true ->
  exists s, symmetrize mx = Ok s /\ wf_ndarray s
    /\ shape0 s = shape0 mx /\ shape1 s = shape1 mx /\ transpose s = s.
Proof.
  intros Hmx Hsq Hsym.
  assert (Hs : exists s, symmetrize mx = Ok s).
  { unfold symmetrize, np_where. simpl.
    rewrite !Nat.eqb_refl. simpl.
    rewrite (proj2 (Nat.eqb_eq _ _)) by congruence.
    rewrite (proj2 (Nat.eqb_eq _ _)) by congruence. simpl. eauto. }
  destruct Hs as [s Hs]. exists s. split; [exact Hs|].
  destruct (symmetrize_entries mx s Hmx Hs) as (Hwf & H0 & H1 & _ & He).
  repeat split; try apply Hwf; auto.
  apply ndarray_ext; auto using wf_transpose.
  - simpl. congruence.
  - simpl. congruence.
  - intros i j Hi Hj. simpl in Hi, Hj.
    rewrite entry_transpose by (auto; lia).
    rewrite (He j i) by lia. rewrite (He i j) by lia.
    unfold fixup_symmetric in Hsym. rewrite forallb_forall in Hsym.
    assert (Hrow := Hsym j). rewrite forallb_forall in Hrow.
    specialize (Hrow ltac:(apply in_seq; lia) i ltac:(apply in_seq; lia)).
    now apply bool_decide_eq_true in Hrow.
Qed.

(** The intersection of two ATUs inside their stripes, on a readable block:
    the call returns an array of the two ATU lengths, and the call with the
    ATUs swapped returns its transpose. *)
Lemma stripe_intersection_ok (f : ChunkedFile F) (R : Z) (d : TreapCOO F)
    (row_atu col_atu : ATUDescriptor F) :
  opened_hdf_file f !! R = Some d ->
  wf_atu row_atu -> wf_atu col_atu ->
  (stripe_id (stripe_descriptor row_atu) = stripe_id (stripe_descriptor col_atu) ->
   stripe_descriptor row_atu = stripe_descriptor col_atu) ->
  block_ok d (ordered_stripes row_atu col_atu).1 (ordered_stripes row_atu col_atu).2 = true ->
  exists M,
    get_stripe_intersection_for_atus_as_raw_dense_matrix f R row_atu col_atu = Ok M
    /\ wf_ndarray M
    /\ Z.of_nat (shape0 M) = atu_length row_atu
    /\ Z.of_nat (shape1 M) = atu_length col_atu
    /\ get_stripe_intersection_for_atus_as_raw_dense_matrix f R col_atu row_atu
       = Ok (transpose M).
Proof.
  intros Hd (Hr0 & Hr1 & Hr2) (Hc0 & Hc1 & Hc2) Hsame Hok.
  unfold get_stripe_intersection_for_atus_as_raw_dense_matrix, py_getitem.
  rewrite Hd. unfold ordered_stripes, block_ok in Hok.
  set (sr := stripe_descriptor row_atu) in *.
  set (sc := stripe_descriptor col_atu) in *.
  assert (Hflips : forall m, wf_ndarray m ->
            Z.of_nat (shape0 m) = stripe_length_bins sr ->
            Z.of_nat (shape1 m) = stripe_length_bins sc ->
            let M := process_flips
                       (slice2 m (start_index_in_stripe_incl row_atu)
                          (end_index_in_stripe_excl row_atu)
                          (start_index_in_stripe_incl col_atu)
                          (end_index_in_stripe_excl col_atu)) row_atu col_atu in
            wf_ndarray M /\ Z.of_nat (shape0 M) = atu_length row_atu
            /\ Z.of_nat (shape1 M) = atu_length col_atu
            /\ process_flips
                 (slice2 (transpose m) (start_index_in_stripe_incl col_atu)
                    (end_index_in_stripe_excl col_atu)
                    (start_index_in_stripe_incl row_atu)
                    (end_index_in_stripe_excl row_atu)) col_atu row_atu
               = transpose M).
  { intros m Hm H0 H1 M.
    destruct (slice2_spec m (start_index_in_stripe_incl row_atu)
                (end_index_in_stripe_excl row_atu)
                (start_index_in_stripe_incl col_atu)
                (end_index_in_stripe_excl col_atu) Hm) as (Hs & Hs0 & Hs1 & _);
      try lia.
    destruct (process_flips_spec _ row_atu col_atu Hs) as (Hp & Hp0 & Hp1 & _).
    split; [exact Hp|]. unfold M, atu_length. rewrite Hp0, Hp1, Hs0, Hs1.
    split; [lia|]. split; [lia|].
    symmetry. apply transpose_process_flips_slice2; auto; lia. }
  assert (Hzeros : exists z,
            np_zeros (end_index_in_stripe_excl row_atu - start_index_in_stripe_incl row_atu)
              (end_index_in_stripe_excl col_atu - start_index_in_stripe_incl col_atu)
            = Ok z
            /\ wf_ndarray z /\ Z.of_nat (shape0 z) = atu_length row_atu
            /\ Z.of_nat (shape1 z) = atu_length col_atu
            /\ np_zeros (end_index_in_stripe_excl col_atu
                         - start_index_in_stripe_incl col_atu)
                 (end_index_in_stripe_excl row_atu - start_index_in_stripe_incl row_atu)
               = Ok (transpose z)).
  { destruct (np_zeros (F:=F)
                (end_index_in_stripe_excl row_atu - start_index_in_stripe_incl row_atu)
                (end_index_in_stripe_excl col_atu - start_index_in_stripe_incl col_atu))
      as [z|e] eqn:Ez.
    - destruct (np_zeros_transpose _ _ z Ez) as [Ht Hwf].
      exists z. split; [reflexivity|]. split; [exact Hwf|].
      unfold np_zeros in Ez. destruct (_ || _); [discriminate|].
      injection Ez as <-. simpl. unfold atu_length. repeat split; try lia. exact Ht.
    - exfalso. unfold np_zeros in Ez.
      rewrite (proj2 (Z.ltb_ge _ 0)), (proj2 (Z.ltb_ge _ 0)) in Ez by lia.
      discriminate. }
  destruct (Z.lt_trichotomy (stripe_id sr) (stripe_id sc)) as [Hlt|[Heq|Hgt]].
  - (* the stripes are in order *)
    rewrite (proj2 (Z.ltb_ge (stripe_id sc) (stripe_id sr))) in * by lia.
    rewrite (proj2 (Z.ltb_lt (stripe_id sr) (stripe_id sc))) by lia.
    rewrite (proj2 (Z.eqb_neq (stripe_id sr) (stripe_id sc))) in * by lia.
    rewrite (proj2 (Z.eqb_neq (stripe_id sc) (stripe_id sr))) by lia.
    simpl in *.
    destruct (fetch_block d sr sc) as [[mx|]|e]; [| |discriminate]; simpl.
    + rewrite !andb_true_iff, !Z.eqb_eq in Hok. destruct Hok as (((Hwf & H0) & H1) & _).
      apply wf_ndarrayb_spec in Hwf.
      destruct (Hflips mx Hwf H0 H1) as (HM & HM0 & HM1 & HMt).
      eexists. split; [reflexivity|]. repeat split; try apply HM; auto.
      now rewrite HMt.
    + destruct Hzeros as (z & -> & Hz & Hz0 & Hz1 & ->). exists z. auto.
  - (* the same stripe *)
    specialize (Hsame Heq). 
    rewrite (proj2 (Z.ltb_ge (stripe_id sc) (stripe_id sr))) in * by lia.
    rewrite (proj2 (Z.ltb_ge (stripe_id sr) (stripe_id sc))) by lia.
    rewrite (proj2 (Z.eqb_eq (stripe_id sr) (stripe_id sc))) in * by lia.
    rewrite (proj2 (Z.eqb_eq (stripe_id sc) (stripe_id sr))) by lia.
    simpl in *. rewrite <- Hsame in *.
    destruct (fetch_block d sr sr) as [[mx|]|e]; [| |discriminate]; simpl.
    + rewrite !andb_true_iff, !Z.eqb_eq in Hok.
      destruct Hok as (((Hwf & H0) & H1) & Hsym).
      rewrite Z.eqb_refl in Hsym. simpl in Hsym.
      apply wf_ndarrayb_spec in Hwf.
      rewrite bool_decide_eq_true_2 by reflexivity. simpl.
      destruct (symmetrize_Ok mx Hwf ltac:(lia) Hsym) as (s & -> & Hs & Hs0 & Hs1 & Hst).
      simpl.
      destruct (Hflips s Hs ltac:(lia) ltac:(lia)) as (HM & HM0 & HM1 & HMt).
      eexists. split; [reflexivity|]. repeat split; try apply HM; auto.
      rewrite <- HMt, Hst. reflexivity.
    + destruct Hzeros as (z & -> & Hz & Hz0 & Hz1 & ->). exists z. auto.
  - (* the stripes are swapped by the call *)
    rewrite (proj2 (Z.ltb_lt (stripe_id sc) (stripe_id sr))) in * by lia.
    rewrite (proj2 (Z.ltb_ge (stripe_id sr) (stripe_id sc))) by lia.
    rewrite (proj2 (Z.eqb_neq (stripe_id sr) (stripe_id sc))) by lia.
    rewrite (proj2 (Z.eqb_neq (stripe_id sc) (stripe_id sr))) in * by lia.
    simpl in *.
    destruct (fetch_block d sc sr) as [[mx|]|e]; [| |discriminate]; simpl.
    + rewrite !andb_true_iff, !Z.eqb_eq in Hok. destruct Hok as (((Hwf & H0) & H1) & _).
      apply wf_ndarrayb_spec in Hwf.
      assert (Hwt : wf_ndarray (transpose mx)) by now apply wf_transpose.
      destruct (Hflips (transpose mx) Hwt H1 H0) as (HM & HM0 & HM1 & HMt).
      eexists. split; [reflexivity|]. repeat split; try apply HM; auto.
      rewrite <- HMt, transpose_involutive by exact Hwf. reflexivity.
    + destruct Hzeros as (z & -> & Hz & Hz0 & Hz1 & ->). exists z. auto.
Qed.

End IntersectionFacts.

Section IntersectionProperties.
Context {F : Type} `{Dtype F}.

(** X15: [process_flips] keeps the shape of the array and mirrors it: the
    entry at [(i, j)] of the result is the entry of the argument in row
    [h - 1 - i] when the row ATU is Reversed (row [i] when it is Forward) and
    in column [w - 1 - j] when the column ATU is Reversed (column [j] when it
    is Forward). *)
Theorem process_flips_entries (m : ndarray F) (row_atu col_atu : ATUDescriptor F) :
  wf_ndarray m ->
  wf_ndarray (process_flips m row_atu col_atu)
  /\ shape0 (process_flips m row_atu col_atu) = shape0 m
  /\ shape1 (process_flips m row_atu col_atu) = shape1 m
  /\ forall i j, (i < shape0 m)%nat -> (j < shape1 m)%nat ->
       entry (process_flips m row_atu col_atu) i j
       = entry m
           (match direction row_atu with
            | ATU_REVERSED => shape0 m - S i | ATU_FORWARD => i end)%nat
           (match direction col_atu with
            | ATU_REVERSED => shape1 m - S j | ATU_FORWARD => j end)%nat.
Proof. apply process_flips_spec. Qed.

(** X16: for two ATUs inside their stripes and a readable block of the
    store, [get_stripe_intersection_for_atus_as_raw_dense_matrix] returns an
    array with as many rows as the row ATU has bins and as many columns as
    the column ATU has, and the call with the two ATUs swapped returns the
    transpose of that array. *)
Theorem stripe_intersection_transpose (f : ChunkedFile F) (R : Z) (d : TreapCOO F)
    (row_atu col_atu : ATUDescriptor F) :
  opened_hdf_file f !! R = Some d ->
  wf_atu row_atu -> wf_atu col_atu ->
  (stripe_id (stripe_descriptor row_atu) = stripe_id (stripe_descriptor col_atu) ->
   stripe_descriptor row_atu = stripe_descriptor col_atu) ->
  block_ok d (ordered_stripes row_atu col_atu).1 (ordered_stripes row_atu col_atu).2 = true ->
  exists M,
    get_stripe_intersection_for_atus_as_raw_dense_matrix f R row_atu col_atu = Ok M
    /\ wf_ndarray M
    /\ Z.of_nat (shape0 M) = atu_length row_atu
    /\ Z.of_nat (shape1 M) = atu_length col_atu
    /\ get_stripe_intersection_for_atus_as_raw_dense_matrix f R col_atu row_atu
       = Ok (transpose M).
Proof. apply stripe_intersection_ok. Qed.

End IntersectionProperties.

Lemma process_flips_entries_witness :
  wf_ndarray (mk_ndarray 2 2 [[1; 2]; [3; 4]])
  /\ entry (process_flips (mk_ndarray 2 2 [[1; 2]; [3; 4]])
              (make_atu_descriptor example_stripe_0 0 2 ATU_REVERSED)
              (make_atu_descriptor example_stripe_1 0 2 ATU_FORWARD)) 0 1
     = entry (mk_ndarray 2 2 [[1; 2]; [3; 4]]) 1 1.
Proof.
  assert (Hwf : wf_ndarray (mk_ndarray 2 2 [[1; 2]; [3; 4]])).
  { apply wf_ndarrayb_spec. reflexivity. }
  split; [exact Hwf|].
  destruct (@process_flips_entries Z int64_dtype (mk_ndarray 2 2 [[1; 2]; [3; 4]])
              (make_atu_descriptor example_stripe_0 0 2 ATU_REVERSED)
              (make_atu_descriptor example_stripe_1 0 2 ATU_FORWARD) Hwf)
    as (_ & _ & _ & He).
  apply (He 0%nat 1%nat); simpl; lia.
Defined.

Lemma stripe_intersection_transpose_witness :
  exists M,
    get_stripe_intersection_for_atus_as_raw_dense_matrix example_file 10
      (make_atu_descriptor example_stripe_1 0 2 ATU_REVERSED)
      (make_atu_descriptor example_stripe_0 1 2 ATU_FORWARD) = Ok M
    /\ wf_ndarray M
    /\ Z.of_nat (shape0 M) = 2
    /\ Z.of_nat (shape1 M) = 1
    /\ get_stripe_intersection_for_atus_as_raw_dense_matrix example_file 10
         (make_atu_descriptor example_stripe_0 1 2 ATU_FORWARD)
         (make_atu_descriptor example_stripe_1 0 2 ATU_REVERSED)
       = Ok (transpose M).
Proof.
  apply (@stripe_intersection_transpose Z int64_dtype example_file 10 example_store
           (make_atu_descriptor example_stripe_1 0 2 ATU_REVERSED)
           (make_atu_descriptor example_stripe_0 1 2 ATU_FORWARD)).
  - reflexivity.
  - apply wf_atub_spec. reflexivity.
  - apply wf_atub_spec. reflexivity.
  - simpl. discriminate.
  - vm_compute. reflexivity.
Defined.

(** ** Stacking blocks *)

Section StackFacts.
Context {F : Type} `{Dtype F}.

Lemma happ_wf (a b : ndarray F) :
  wf_ndarray a -> wf_ndarray b -> shape0 a = shape0 b -> wf_ndarray (happ a b).
Proof.
  intros [Ha0 Ha1] [Hb0 Hb1] Hh. split; simpl.
  - rewrite length_zip_with. lia.
  - apply Forall_forall. intros r Hr.
    apply list_elem_of_lookup in Hr as [i Hi].
    apply lookup_zip_with_Some in Hi as (x & y & -> & Hx & Hy).
    rewrite length_app.
    rewrite Forall_forall in Ha1, Hb1.
    rewrite (Ha1 x) by (eapply list_elem_of_lookup_2; eauto).
    rewrite (Hb1 y) by (eapply list_elem_of_lookup_2; eauto). reflexivity.
Qed.

Lemma vapp_wf (a b : ndarray F) :
  wf_ndarray a -> wf_ndarray b -> shape1 a = shape1 b -> wf_ndarray (vapp a b).
Proof.
  intros [Ha0 Ha1] [Hb0 Hb1] Hw. split; simpl.
  - rewrite length_app. lia.
  - apply Forall_app. split; [exact Ha1|]. now rewrite Hw.
Qed.

(** [np.hstack] of blocks of one height. *)
Lemma np_hstack_ok (ms : list (ndarray F)) (h : nat) :
  ms <> [] -> Forall (fun m => wf_ndarray m /\ shape0 m = h) ms ->
  exists r, np_hstack ms = Ok r /\ wf_ndarray r /\ shape0 r = h
    /\ Z.of_nat (shape1 r) = py_sum (map (fun m => Z.of_nat (shape1 m)) ms).
Proof.
  induction ms as [|m ms IH]; intros Hne Hall; [congruence|].
  apply Forall_cons in Hall as [[Hm Hh] Hall].
  destruct ms as [|m' ms].
  - exists m. simpl. repeat split; try apply Hm; auto.
    change (py_sum [?x]) with (x + 0). lia.
  - destruct (IH ltac:(discriminate) Hall) as (r & Hr & Hwf & H0 & H1).
    change (np_hstack (m :: m' :: ms))
      with (np_hstack (m' :: ms) ≫= fun r =>
              if (shape0 m =? shape0 r)%nat then Ok (happ m r) else Raise ValueError).
    rewrite Hr. simpl. rewrite (proj2 (Nat.eqb_eq _ _)) by congruence.
    eexists. split; [reflexivity|]. split; [apply happ_wf; auto; congruence|].
    split; [exact Hh|]. simpl shape1. rewrite Nat2Z.inj_add, H1.
    now rewrite (py_sum_cons (Z.of_nat (shape1 m))).
Qed.

(** [np.vstack] of blocks of one width. *)
Lemma np_vstack_ok (ms : list (ndarray F)) (w : nat) :
  ms <> [] -> Forall (fun m => wf_ndarray m /\ shape1 m = w) ms ->
  exists r, np_vstack ms = Ok r /\ wf_ndarray r /\ shape1 r = w
    /\ Z.of_nat (shape0 r) = py_sum (map (fun m => Z.of_nat (shape0 m)) ms).
Proof.
  induction ms as [|m ms IH]; intros Hne Hall; [congruence|].
  apply Forall_cons in Hall as [[Hm Hh] Hall].
  destruct ms as [|m' ms].
  - exists m. simpl. repeat split; try apply Hm; auto.
    change (py_sum [?x]) with (x + 0). lia.
  - destruct (IH ltac:(discriminate) Hall) as (r & Hr & Hwf & H0 & H1).
    change (np_vstack (m :: m' :: ms))
      with (np_vstack (m' :: ms) ≫= fun r =>
              if (shape1 m =? shape1 r)%nat then Ok (vapp m r) else Raise ValueError).
    rewrite Hr. simpl. rewrite (proj2 (Nat.eqb_eq _ _)) by congruence.
    eexists. split; [reflexivity|]. split; [apply vapp_wf; auto; congruence|].
    split; [exact Hh|]. simpl shape0. rewrite Nat2Z.inj_add, H1.
    now rewrite (py_sum_cons (Z.of_nat (shape0 m))).
Qed.

(** The weights of an ATU inside a stripe that has a weight per bin. *)
Lemma atu_weights_length (a : ATUDescriptor F) :
  wf_atu a ->
  Z.of_nat (length (bin_weights (stripe_descriptor a)))
  = stripe_length_bins (stripe_descriptor a) ->
  Z.of_nat (length (atu_weights a)) = atu_length a.
Proof.
  intros (H0 & H1 & H2) Hw. unfold atu_weights, atu_length.
  destruct (py_slice_exact (bin_weights (stripe_descriptor a))
              (start_index_in_stripe_incl a) (end_index_in_stripe_excl a))
    as [_ Hl]; [lia | lia |].
  destruct (direction a); rewrite ?length_rev, Hl; lia.
Qed.

End StackFacts.

(** ** The loop over the rows *)

Lemma mapM_Forall2 {A B} (f : A -> result B) (P : A -> B -> Prop) (l : list A) :
  Forall (fun x => exists y, f x = Ok y /\ P x y) l ->
  exists ys, mapM f l = Ok ys /\ Forall2 P l ys.
Proof.
  induction 1 as [|x l (y & Hy & HP) _ (ys & Hys & Hall)].
  - exists []. split; [reflexivity | constructor].
  - exists (y :: ys). simpl. rewrite Hy, Hys. split; [reflexivity|].
    now constructor.
Qed.

Section RowLoopFacts.
Context {F : Type} `{Dtype F}.

Lemma wf_store_inv (f : ChunkedFile F) (R : Z) :
  wf_store f R = true ->
  exists d t,
    opened_hdf_file f !! R = Some d /\ contig_tree f = Some t
    /\ (forall s, s ∈ tree_stripes R t ->
          Z.of_nat (length (bin_weights s)) = stripe_length_bins s)
    /\ (forall s1 s2, s1 ∈ tree_stripes R t -> s2 ∈ tree_stripes R t ->
          stripe_id s1 = stripe_id s2 -> s1 = s2)
    /\ (forall s1 s2, s1 ∈ tree_stripes R t -> s2 ∈ tree_stripes R t ->
          stripe_id s1 <= stripe_id s2 -> block_ok d s1 s2 = true).
Proof.
  unfold wf_store.
  destruct (opened_hdf_file f !! R) as [d|]; [|discriminate].
  destruct (contig_tree f) as [t|]; [|discriminate].
  intros Hall. exists d, t. split; [reflexivity|]. split; [reflexivity|].
  rewrite forallb_forall in Hall.
  assert (Hpair : forall s1 s2, s1 ∈ tree_stripes R t -> s2 ∈ tree_stripes R t ->
            (negb (stripe_id s1 =? stripe_id s2) || bool_decide (s1 = s2)) = true
            /\ (negb (stripe_id s1 <=? stripe_id s2) || block_ok d s1 s2) = true).
  { intros s1 s2 H1 H2. apply list_elem_of_In in H1, H2.
    specialize (Hall s1 H1). apply andb_true_iff in Hall as [_ Hall].
    rewrite forallb_forall in Hall. specialize (Hall s2 H2).
    now apply andb_true_iff in Hall. }
  split; [|split].
  - intros s Hs. apply list_elem_of_In in Hs. specialize (Hall s Hs).
    apply andb_true_iff in Hall as [Hw _]. now apply Z.eqb_eq in Hw.
  - intros s1 s2 H1 H2 Hid. destruct (Hpair s1 s2 H1 H2) as [Hu _].
    rewrite (proj2 (Z.eqb_eq _ _) Hid) in Hu. simpl in Hu.
    now apply bool_decide_eq_true in Hu.
  - intros s1 s2 H1 H2 Hle. destruct (Hpair s1 s2 H1 H2) as [_ Hb].
    rewrite (proj2 (Z.leb_le _ _) Hle) in Hb. exact Hb.
Qed.

Lemma tree_stripes_Forall (R : Z) (t : ContigTree F) :
  Forall (fun n => forall l, atus (contig_descriptor n) !! R = Some l ->
            Forall (fun a => stripe_descriptor a ∈ tree_stripes R t) l) t.
Proof.
  apply Forall_forall. intros n Hn l Hl. apply Forall_forall. intros a Ha.
  unfold tree_stripes. apply list_elem_of_In, in_concat.
  exists (contig_stripes R (contig_descriptor n)). split.
  - apply (in_map (fun n => contig_stripes R (contig_descriptor n))).
    now apply list_elem_of_In.
  - unfold contig_stripes. rewrite Hl. apply in_map. now apply list_elem_of_In.
Qed.

Section WithStore.
Variables (f : ChunkedFile F) (R : Z) (d : TreapCOO F) (t : ContigTree F).
Hypothesis Hd : opened_hdf_file f !! R = Some d.
Hypothesis Hweights : forall s, s ∈ tree_stripes R t ->
  Z.of_nat (length (bin_weights s)) = stripe_length_bins s.
Hypothesis Hunique : forall s1 s2, s1 ∈ tree_stripes R t -> s2 ∈ tree_stripes R t ->
  stripe_id s1 = stripe_id s2 -> s1 = s2.
Hypothesis Hblocks : forall s1 s2, s1 ∈ tree_stripes R t -> s2 ∈ tree_stripes R t ->
  stripe_id s1 <= stripe_id s2 -> block_ok d s1 s2 = true.

(** An ATU inside a stripe of the tree. *)
Local Abbreviation good :=
  (fun a : ATUDescriptor F => wf_atu a /\ stripe_descriptor a ∈ tree_stripes R t).

Lemma atu_intersection_ok (row_atu col_atu : ATUDescriptor F) :
  good row_atu -> good col_atu ->
  exists M,
    get_atu_intersection f R row_atu col_atu
    = Ok (M, atu_weights row_atu, atu_weights col_atu)
    /\ wf_ndarray M
    /\ Z.of_nat (shape0 M) = atu_length row_atu
    /\ Z.of_nat (shape1 M) = atu_length col_atu.
Proof.
  intros [Hr Qr] [Hc Qc].
  destruct (stripe_intersection_ok f R d row_atu col_atu Hd Hr Hc)
    as (M & HM & Hwf & H0 & H1 & _).
  - now apply Hunique.
  - unfold ordered_stripes.
    destruct (_ <? _) eqn:E; simpl; apply Hblocks; auto.
    + apply Z.ltb_lt in E. lia.
    + apply Z.ltb_ge in E. lia.
  - exists M. unfold get_atu_intersection. rewrite HM. auto.
Qed.

Lemma row_loop_body_ok (cols_ : list (ATUDescriptor F)) (qc : Z)
    (st : row_loop_state) (a : ATUDescriptor F) :
  cols_ <> [] -> Forall good cols_ -> good a ->
  exists row subtotals,
    row_loop_body f R cols_ qc st a
    = Ok (mk_row_loop (row_matrices st ++ [row])
            (row_subweights st ++ [atu_weights a]) subtotals)
    /\ wf_ndarray row
    /\ Z.of_nat (shape0 row) = atu_length a
    /\ Z.of_nat (shape1 row) = atus_length cols_
    /\ map (fun x => x.2) subtotals = map atu_weights cols_.
Proof.
  intros Hne Hcols Ha. unfold row_loop_body.
  assert (Hex : Forall (fun c => exists y, get_atu_intersection f R a c = Ok y
                          /\ (y.1.2 = atu_weights a /\ y.2 = atu_weights c
                              /\ wf_ndarray y.1.1
                              /\ Z.of_nat (shape0 y.1.1) = atu_length a
                              /\ Z.of_nat (shape1 y.1.1) = atu_length c)) cols_).
  { eapply Forall_impl; [exact Hcols|]. intros c Hc.
    destruct (atu_intersection_ok a c Ha Hc) as (M & HM & Hwf & H0 & H1).
    exists (M, atu_weights a, atu_weights c). simpl.
    repeat (split; [first [assumption | reflexivity]|]). assumption. }
  destruct (mapM_Forall2 _ _ _ Hex) as (subtotals & Hsub & Hall).
  rewrite Hsub. rewrite bind_Ok_eq. cbv zeta.
  assert (Hlen : length subtotals = length cols_).
  { symmetry. eapply Forall2_length; eauto. }
  set (subs := map (fun t0 : ndarray F * list F * list F => t0.1.1) subtotals).
  assert (Hsubs : Forall (fun m => wf_ndarray m
                            /\ shape0 m = Z.to_nat (atu_length a)) subs).
  { unfold subs. apply Forall_fmap. apply Forall_forall. intros y Hy.
    apply list_elem_of_lookup in Hy as [i Hi].
    destruct (Forall2_lookup_r _ _ _ _ _ Hall Hi) as (c & _ & _ & _ & Hwf & H0 & _).
    simpl. split; [exact Hwf | lia]. }
  assert (Hwidth : py_sum (map (fun m => Z.of_nat (shape1 m)) subs) = atus_length cols_).
  { unfold subs, atus_length. clear -Hall.
    induction Hall as [|c y cs ys (_ & _ & _ & _ & H1) _ IH]; [reflexivity|].
    simpl. rewrite !py_sum_cons. simpl in IH. now rewrite IH, H1. }
  assert (Hweights' : map (fun x : ndarray F * list F * list F => x.2) subtotals
                      = map atu_weights cols_).
  { clear -Hall. induction Hall as [|c y cs ys (_ & H2 & _) _ IH]; [reflexivity|].
    simpl. now rewrite IH, H2. }
  destruct cols_ as [|c0 cols']; [congruence|].
  destruct subtotals as [|s0 subtotals']; [discriminate|].
  apply Forall2_cons in Hall as [(Hw0 & Hc0 & Hwf0 & Hs0 & Hs1) Hall'].
  destruct (np_hstack_ok subs (Z.to_nat (atu_length a)) ltac:(discriminate) Hsubs)
    as (row & Hrow & Hwfrow & Hrow0 & Hrow1).
  exists row, (s0 :: subtotals').
  change (0 <? length (c0 :: cols'))%nat with true. cbv iota.
  change (0 <? length (s0 :: subtotals'))%nat with true.
  change (py_assert true ?m ≫= ?k) with (k tt). cbv beta.
  assert (Hfirst : py_index subs 0 = Ok s0.1.1) by apply (py_index_nat subs 0 _ eq_refl).
  assert (Hfirst' : py_index (s0 :: subtotals') 0 = Ok s0)
    by apply (py_index_nat (s0 :: subtotals') 0 _ eq_refl).
  rewrite Hfirst, bind_Ok_eq.
  assert (Hsame : forallb (fun sbm => (shape0 sbm =? shape0 s0.1.1)%nat) subs = true).
  { apply forallb_forall. intros m Hm. apply list_elem_of_In in Hm.
    rewrite Forall_forall in Hsubs. destruct (Hsubs m Hm) as [_ ->].
    apply Nat.eqb_eq. lia. }
  rewrite Hsame.
  change (py_assert true ?m ≫= ?k) with (k tt). cbv beta.
  rewrite (proj2 (Z.eqb_eq _ _) Hs0).
  change (py_assert true ?m ≫= ?k) with (k tt). cbv beta.
  rewrite Hrow, bind_Ok_eq.
  rewrite Hfirst', bind_Ok_eq.
  rewrite Hw0. split; [reflexivity|]. split; [exact Hwfrow|].
  destruct Ha as [(Ha0 & Ha1 & Ha2) _]. unfold atu_length in *.
  split; [lia|]. split; [|exact Hweights'].
  rewrite Hrow1. exact Hwidth.
Qed.

(** The loop with column ATUs: one row of blocks per row ATU. *)
Lemma row_loop_ok (cols_ : list (ATUDescriptor F)) (qc : Z)
    (st : row_loop_state) (rows_ : list (ATUDescriptor F)) :
  cols_ <> [] -> Forall good cols_ -> Forall good rows_ ->
  exists st' new_rows,
    row_loop f R cols_ qc st rows_ = Ok st'
    /\ row_matrices st' = row_matrices st ++ new_rows
    /\ Forall2 (fun a m => wf_ndarray m /\ Z.of_nat (shape0 m) = atu_length a
                            /\ Z.of_nat (shape1 m) = atus_length cols_) rows_ new_rows
    /\ row_subweights st' = row_subweights st ++ map atu_weights rows_
    /\ (rows_ <> [] ->
          map (fun x => x.2) (row_subtotals st') = map atu_weights cols_).
Proof.
  intros Hne Hcols Hrows. revert st.
  induction Hrows as [|a rows_ Ha _ IH]; intros st.
  - exists st, []. simpl. rewrite !app_nil_r. repeat split; auto. congruence.
  - destruct (row_loop_body_ok cols_ qc st a Hne Hcols Ha)
      as (row & subtotals & Hbody & Hwf & H0 & H1 & Hsub).
    destruct (IH (mk_row_loop (row_matrices st ++ [row])
                    (row_subweights st ++ [atu_weights a]) subtotals))
      as (st' & new_rows & Hloop & Hm & Hall & Hw & Hs).
    exists st', (row :: new_rows). simpl. rewrite Hbody, bind_Ok_eq, Hloop.
    split; [reflexivity|]. simpl in Hm, Hw. rewrite <- app_assoc in Hm, Hw.
    split; [exact Hm|]. split; [constructor; auto|]. split; [exact Hw|].
    intros _. destruct rows_ as [|b rows_].
    + simpl in Hloop. injection Hloop as <-. exact Hsub.
    + apply Hs. discriminate.
Qed.

End WithStore.
End RowLoopFacts.

(** ** The dense query on a well-formed file *)

Section SubmatrixTotal.
Context {F : Type} `{Dtype F}.

(** [get_submatrix] once both lists of ATUs are there. *)
Lemma get_submatrix_unfold (f : ChunkedFile F) (R r0 c0 r1 c1 : Z) (ex : bool)
    (t : ContigTree F) (total : Z) (rows_ cols_ : list (ATUDescriptor F)) :
  contig_tree f = Some t -> get_sizes_at ex R t = Ok total ->
  let r0' := constrain_coordinate r0 0 total in
  let r1' := constrain_coordinate r1 0 total in
  let c0' := constrain_coordinate c0 0 total in
  let c1' := constrain_coordinate c1 0 total in
  get_atus_for_range f R r0' r1' ex = Ok rows_ ->
  get_atus_for_range f R c0' c1' ex = Ok cols_ ->
  get_submatrix f R r0 c0 r1 c1 ex
  = (_ ← (if (r0' <? r1') && (0 <=? r0') && (r0' <? total)
          then py_assert (0 <? length rows_)%nat
                 "Query is correct but no rows were found??"
          else Ok tt);
     _ ← (if (c0' <? c1') && (0 <=? c0') && (c0' <? total)
          then py_assert (0 <? length cols_)%nat
                 "Query is correct but no columns were found??"
          else Ok tt);
     st ← row_loop f R cols_ (c1' - c0') (mk_row_loop [] [] []) rows_;
     row_weights ←
       (if (0 <? length (row_subweights st))%nat then np_hstack1 (row_subweights st)
        else np_ones (Z.max 0 (r1' - r0')));
     let col_subweights := map (fun t => t.2) (row_subtotals st) in
     col_weights ←
       (if (0 <? length col_subweights)%nat then np_hstack1 col_subweights
        else np_ones (Z.max 0 (c1' - c0')));
     res ←
       (if (0 <? r1' - r0') && (0 <? c1' - c0') then
          r ← np_vstack (row_matrices st);
          _ ← py_assert (0 <? length (row_subweights st))%nat
                "No row weights were fetched, but query is non-trivial for rows??";
          _ ← py_assert (0 <? length col_subweights)%nat
                "No column weights were fetched, but query is non-trivial for columns??";
          Ok r
        else np_zeros (Z.max 0 (r1' - r0')) (Z.max 0 (c1' - c0')));
     _ ← py_assert (Z.of_nat (shape0 res) =? r1' - r0')
           "Row count is not as queried??";
     _ ← py_assert (Z.of_nat (shape1 res) =? c1' - c0')
           "Column count is not as queried??";
     _ ← py_assert (Z.of_nat (length row_weights) =? r1' - r0')
           "Row weights count is not as queried??";
     _ ← py_assert (Z.of_nat (length col_weights) =? c1' - c0')
           "Column weights count is not as queried??";
     Ok (res, row_weights, col_weights)).
Proof.
  intros Ht Htot r0' r1' c0' c1' Hrows Hcols.
  unfold get_submatrix. rewrite Ht, Htot, bind_Ok_eq.
  fold r0' r1' c0' c1'. rewrite Hrows, bind_Ok_eq, Hcols, bind_Ok_eq.
  reflexivity.
Qed.

(** The four final assertions on a result of the queried dimensions. *)
Lemma submatrix_asserts (res : ndarray F) (wr wc : list F) (qr qc : Z) :
  Z.of_nat (shape0 res) = qr -> Z.of_nat (shape1 res) = qc ->
  Z.of_nat (length wr) = qr -> Z.of_nat (length wc) = qc ->
  (_ ← py_assert (Z.of_nat (shape0 res) =? qr) "Row count is not as queried??";
   _ ← py_assert (Z.of_nat (shape1 res) =? qc) "Column count is not as queried??";
   _ ← py_assert (Z.of_nat (length wr) =? qr) "Row weights count is not as queried??";
   _ ← py_assert (Z.of_nat (length wc) =? qc)
         "Column weights count is not as queried??";
   Ok (res, wr, wc)) = Ok (res, wr, wc).
Proof.
  intros H0 H1 H2 H3.
  rewrite (proj2 (Z.eqb_eq _ _) H0), (proj2 (Z.eqb_eq _ _) H1),
    (proj2 (Z.eqb_eq _ _) H2), (proj2 (Z.eqb_eq _ _) H3).
  reflexivity.
Qed.

Lemma np_zeros_ok (r c : Z) :
  0 <= r -> 0 <= c ->
  exists z, np_zeros (F:=F) r c = Ok z /\ wf_ndarray z
    /\ Z.of_nat (shape0 z) = r /\ Z.of_nat (shape1 z) = c.
Proof.
  intros Hr Hc. unfold np_zeros.
  rewrite (proj2 (Z.ltb_ge r 0)), (proj2 (Z.ltb_ge c 0)) by lia. simpl.
  eexists. split; [reflexivity|]. split.
  - split; simpl; [now rewrite length_replicate|].
    apply Forall_replicate. now rewrite length_replicate.
  - simpl. lia.
Qed.

Lemma np_ones_ok (n : Z) :
  0 <= n -> exists v, np_ones (F:=F) n = Ok v /\ Z.of_nat (length v) = n.
Proof.
  intros Hn. unfold np_ones. rewrite (proj2 (Z.ltb_ge n 0)) by lia.
  eexists. split; [reflexivity|]. rewrite length_replicate. lia.
Qed.

Lemma concat_weights_length (l : list (ATUDescriptor F)) :
  Forall (fun a => wf_atu a
            /\ Z.of_nat (length (bin_weights (stripe_descriptor a)))
               = stripe_length_bins (stripe_descriptor a)) l ->
  Z.of_nat (length (concat (map atu_weights l))) = atus_length l.
Proof.
  induction 1 as [|a l [Ha Hw] _ IH]; [reflexivity|].
  simpl. rewrite length_app, Nat2Z.inj_add, IH, atus_length_cons.
  now rewrite (atu_weights_length a Ha Hw).
Qed.

End SubmatrixTotal.

Section SubmatrixTotalTheorem.
Context {F : Type} `{Dtype F}.

(** The dense query on a file whose contigs and store are well-formed, for
    ranges that are in order once clamped. *)
Lemma get_submatrix_wf (f : ChunkedFile F) (R r0 c0 r1 c1 : Z) (ex : bool)
    (t : ContigTree F) :
  wf_file f R = true -> wf_store f R = true -> contig_tree f = Some t ->
  let total := tree_size ex R t in
  let r0' := constrain_coordinate r0 0 total in
  let r1' := constrain_coordinate r1 0 total in
  let c0' := constrain_coordinate c0 0 total in
  let c1' := constrain_coordinate c1 0 total in
  r0' <= r1' -> c0' <= c1' ->
  exists M wr wc,
    get_submatrix f R r0 c0 r1 c1 ex = Ok (M, wr, wc)
    /\ wf_ndarray M
    /\ Z.of_nat (shape0 M) = r1' - r0' /\ Z.of_nat (shape1 M) = c1' - c0'
    /\ Z.of_nat (length wr) = r1' - r0' /\ Z.of_nat (length wc) = c1' - c0'
    /\ exists rows_ cols_,
         get_atus_for_range f R r0' r1' ex = Ok rows_
         /\ get_atus_for_range f R c0' c1' ex = Ok cols_
         /\ Forall (fun a => wf_atu a /\ stripe_descriptor a ∈ tree_stripes R t) rows_
         /\ Forall (fun a => wf_atu a /\ stripe_descriptor a ∈ tree_stripes R t) cols_
         /\ match rows_, cols_ with
            | _ :: _, _ :: _ =>
                exists st,
                  row_loop f R cols_ (c1' - c0') (mk_row_loop [] [] []) rows_ = Ok st
                  /\ np_vstack (row_matrices st) = Ok M
                  /\ wr = concat (map atu_weights rows_)
                  /\ wc = concat (map atu_weights cols_)
            | _, _ =>
                np_zeros (r1' - r0') (c1' - c0') = Ok M
                /\ np_ones (r1' - r0') = Ok wr /\ np_ones (c1' - c0') = Ok wc
            end.
Proof.
  intros Hwf Hstore Ht total r0' r1' c0' c1' Hr Hc.
  destruct (wf_file_inv f R Hwf) as (t' & Hst & Ht' & Hwt).
  rewrite Ht in Ht'. injection Ht' as <-.
  destruct (wf_store_inv f R Hstore) as (d & t' & Hd & Ht' & Hweights & Hunique & Hblocks).
  rewrite Ht in Ht'. injection Ht' as <-.
  assert (HT : 0 <= total) by now apply tree_size_nonneg.
  destruct (get_atus_for_range_wf f R r0' r1' ex t Hst Ht Hwt)
    as (rows_ & Hrows & Hrsum & _ & Hremp & Hrgood).
  destruct (get_atus_for_range_wf f R c0' c1' ex t Hst Ht Hwt)
    as (cols_ & Hcols & Hcsum & _ & Hcemp & Hcgood).
  specialize (Hrgood (fun s => s ∈ tree_stripes R t) Hunique (tree_stripes_Forall R t)).
  specialize (Hcgood (fun s => s ∈ tree_stripes R t) Hunique (tree_stripes_Forall R t)).
  fold total in Hrsum, Hremp, Hcsum, Hcemp.
  rewrite (get_submatrix_unfold f R r0 c0 r1 c1 ex t total rows_ cols_ Ht
             (get_sizes_at_wf ex R t Hwt) Hrows Hcols).
  fold r0' r1' c0' c1'.
  assert (Hr0 : r0' = Z.max (Z.min r0 total) 0) by reflexivity.
  assert (Hr1 : r1' = Z.max (Z.min r1 total) 0) by reflexivity.
  assert (Hc0 : c0' = Z.max (Z.min c0 total) 0) by reflexivity.
  assert (Hc1 : c1' = Z.max (Z.min c1 total) 0) by reflexivity.
  clearbody r0' r1' c0' c1'. clearbody total.
  assert (Hb0 : 0 <= r0' <= total) by (clear - HT Hr0; lia).
  assert (Hb1 : 0 <= r1' <= total) by (clear - HT Hr1; lia).
  assert (Hb2 : 0 <= c0' <= total) by (clear - HT Hc0; lia).
  assert (Hb3 : 0 <= c1' <= total) by (clear - HT Hc1; lia).
  assert (Hrlen : atus_length rows_ = r1' - r0') by (clear - Hrsum Hb0 Hb1 Hr; lia).
  assert (Hclen : atus_length cols_ = c1' - c0') by (clear - Hcsum Hb2 Hb3 Hc; lia).
  assert (Hremp' : rows_ = [] <-> r1' <= r0').
  { clear - Hremp Hb0 Hb1. rewrite Hremp. lia. }
  assert (Hcemp' : cols_ = [] <-> c1' <= c0').
  { clear - Hcemp Hb2 Hb3. rewrite Hcemp. lia. }
  clear Hr0 Hr1 Hc0 Hc1 Hrsum Hcsum Hremp Hcemp.
  set (qr := r1' - r0') in *. set (qc := c1' - c0') in *.
  assert (Hqr : 0 <= qr) by (unfold qr; lia).
  assert (Hqc : 0 <= qc) by (unfold qc; lia).
  assert (Hrowcheck :
    (if (r0' <? r1') && (0 <=? r0') && (r0' <? total)
     then py_assert (0 <? length rows_)%nat
            "Query is correct but no rows were found??"
     else Ok tt) = Ok tt).
  { destruct (r0' <? r1') eqn:E; [|reflexivity].
    apply Z.ltb_lt in E. destruct rows_ as [|a l].
    - destruct Hremp' as [Hemp _]. specialize (Hemp eq_refl). lia.
    - cbn [andb]. now destruct ((0 <=? r0') && (r0' <? total)). }
  assert (Hcolcheck :
    (if (c0' <? c1') && (0 <=? c0') && (c0' <? total)
     then py_assert (0 <? length cols_)%nat
            "Query is correct but no columns were found??"
     else Ok tt) = Ok tt).
  { destruct (c0' <? c1') eqn:E; [|reflexivity].
    apply Z.ltb_lt in E. destruct cols_ as [|a l].
    - destruct Hcemp' as [Hemp _]. specialize (Hemp eq_refl). lia.
    - cbn [andb]. now destruct ((0 <=? c0') && (c0' <? total)). }
  rewrite Hrowcheck, bind_Ok_eq, Hcolcheck, bind_Ok_eq.
  assert (Hmax_r : Z.max 0 qr = qr) by lia.
  assert (Hmax_c : Z.max 0 qc = qc) by lia.
  rewrite Hmax_r, Hmax_c.
  assert (Hrw : Forall (fun a => wf_atu a
                   /\ Z.of_nat (length (bin_weights (stripe_descriptor a)))
                      = stripe_length_bins (stripe_descriptor a)) rows_).
  { eapply Forall_impl; [exact Hrgood|]. intros a [Ha Hq]. split; auto. }
  assert (Hcw : Forall (fun a => wf_atu a
                   /\ Z.of_nat (length (bin_weights (stripe_descriptor a)))
                      = stripe_length_bins (stripe_descriptor a)) cols_).
  { eapply Forall_impl; [exact Hcgood|]. intros a [Ha Hq]. split; auto. }
  destruct (np_ones_ok (F:=F) qr Hqr) as (ones_r & Hones_r & Hlen_r).
  destruct (np_ones_ok (F:=F) qc Hqc) as (ones_c & Hones_c & Hlen_c).
  destruct (np_zeros_ok (F:=F) qr qc Hqr Hqc) as (z & Hz & Hzwf & Hz0 & Hz1).
  destruct cols_ as [|c cols'].
  - (* no column *)
    assert (Hqc0 : qc = 0) by (destruct Hcemp' as [Hemp _]; specialize (Hemp eq_refl); lia).
    assert (Hne : forallb atu_nonempty rows_ = true).
    { apply forallb_atu_nonempty. eapply Forall_impl; [exact Hrgood|]. now intros a [Ha _]. }
    destruct (row_loop_no_cols f R qc (mk_row_loop [] [] []) rows_ ltac:(lia) Hne)
      as (st' & Hloop & Hw & Hs & He).
    rewrite Hloop, bind_Ok_eq. cbv beta zeta.
    assert (Hsub : row_subtotals st' = []).
    { destruct rows_ as [|a l]; [now rewrite (He eq_refl) | apply Hs; discriminate]. }
    rewrite Hw, Hsub.
    replace (0 <? length (row_subweights (mk_row_loop (F:=F) [] [] [])))%nat
      with false by reflexivity.
    replace (0 <? length (map (fun t0 : ndarray F * list F * list F => t0.2) []))%nat
      with false by reflexivity.
    cbv beta iota. rewrite Hones_r, bind_Ok_eq, Hones_c, bind_Ok_eq.
    replace (0 <? qc) with false by (symmetry; apply Z.ltb_ge; lia).
    rewrite andb_false_r. cbv beta iota.
    rewrite Hz, bind_Ok_eq.
    rewrite (submatrix_asserts z ones_r ones_c qr qc Hz0 Hz1 Hlen_r Hlen_c).
    exists z, ones_r, ones_c. split; [reflexivity|]. split; [exact Hzwf|].
    repeat (split; [assumption|]).
    exists rows_, []. repeat (split; [assumption|]).
    now destruct rows_.
  - (* some columns *)
    assert (Hqcpos : 0 < qc).
    { destruct (Z_le_gt_dec qc 0) as [Hle|Hgt]; [|lia].
      assert (c :: cols' = []) by (apply Hcemp'; unfold qc in Hle; lia). discriminate. }
    destruct (row_loop_ok f R d t Hd Hunique Hblocks (c :: cols') qc
                (mk_row_loop [] [] []) rows_ ltac:(discriminate) Hcgood Hrgood)
      as (st' & new_rows & Hloop & Hm & Hall & Hw & Hs).
    rewrite Hloop, bind_Ok_eq. cbv beta zeta. simpl in Hm, Hw.
    destruct rows_ as [|a rows'].
    + (* no row *)
      assert (Hqr0 : qr = 0) by (destruct Hremp' as [Hemp _]; specialize (Hemp eq_refl); lia).
      simpl in Hloop. injection Hloop as <-.
      replace (0 <? length (row_subweights (mk_row_loop (F:=F) [] [] [])))%nat
        with false by reflexivity.
      replace (0 <? length (map (fun t0 : ndarray F * list F * list F => t0.2)
                              (row_subtotals (mk_row_loop (F:=F) [] [] []))))%nat
        with false by reflexivity.
      cbv beta iota. rewrite Hones_r, bind_Ok_eq, Hones_c, bind_Ok_eq.
      replace (0 <? qr) with false by (symmetry; apply Z.ltb_ge; lia).
      cbn [andb]. cbv beta iota.
      rewrite Hz, bind_Ok_eq.
      rewrite (submatrix_asserts z ones_r ones_c qr qc Hz0 Hz1 Hlen_r Hlen_c).
      exists z, ones_r, ones_c. split; [reflexivity|]. split; [exact Hzwf|].
      repeat (split; [assumption|]).
      exists [], (c :: cols'). repeat (split; [assumption|]). auto.
    + (* rows and columns *)
      assert (Hqrpos : 0 < qr).
      { destruct (Z_le_gt_dec qr 0) as [Hle|Hgt]; [|lia].
        assert (a :: rows' = []) by (apply Hremp'; unfold qr in Hle; lia). discriminate. }
      specialize (Hs ltac:(discriminate)).
      rewrite Hw, Hs, Hm.
      replace (0 <? length (map atu_weights (a :: rows')))%nat with true by reflexivity.
      replace (0 <? length (map atu_weights (c :: cols')))%nat with true by reflexivity.
      cbv beta iota.
      replace (np_hstack1 (map atu_weights (a :: rows')))
        with (Ok (concat (map atu_weights (a :: rows')))) by reflexivity.
      replace (np_hstack1 (map atu_weights (c :: cols')))
        with (Ok (concat (map atu_weights (c :: cols')))) by reflexivity.
      rewrite !bind_Ok_eq.
      replace (0 <? qr) with true by (symmetry; apply Z.ltb_lt; lia).
      replace (0 <? qc) with true by (symmetry; apply Z.ltb_lt; lia).
      cbn [andb]. cbv beta iota.
      assert (Hnew : Forall (fun m => wf_ndarray m
                               /\ shape1 m = Z.to_nat (atus_length (c :: cols'))) new_rows).
      { apply Forall_forall. intros m Hm'. apply list_elem_of_lookup in Hm' as [i Hi].
        destruct (Forall2_lookup_r _ _ _ _ _ Hall Hi) as (a' & _ & Hwfm & _ & H1).
        split; [exact Hwfm | lia]. }
      assert (Hheight : py_sum (map (fun m => Z.of_nat (shape0 m)) new_rows)
                        = atus_length (a :: rows')).
      { clear - Hall. unfold atus_length.
        induction Hall as [|x y xs ys (_ & H0 & _) _ IH]; [reflexivity|].
        simpl. rewrite !py_sum_cons. simpl in IH. now rewrite IH, H0. }
      assert (Hnne : new_rows <> []).
      { intros ->. apply Forall2_length in Hall. discriminate. }
      destruct (np_vstack_ok new_rows _ Hnne Hnew) as (res & Hres & Hwfres & Hres1 & Hres0).
      rewrite Hres, bind_Ok_eq.
      change (py_assert true ?m ≫= ?k) with (k tt). cbv beta.
      change (py_assert true ?m ≫= ?k) with (k tt). cbv beta.
      rewrite bind_Ok_eq.
      rewrite (submatrix_asserts res _ _ qr qc).
      * eexists _, _, _. split; [reflexivity|]. split; [exact Hwfres|].
        rewrite Hres0, Hheight, Hres1, Hrlen, Hclen.
        rewrite (concat_weights_length _ Hrw), (concat_weights_length _ Hcw).
        rewrite Hrlen, Hclen.
        repeat (split; [first [reflexivity | lia]|]).
        exists (a :: rows'), (c :: cols'). repeat (split; [assumption|]).
        exists st'. rewrite Hm. auto.
      * now rewrite Hres0, Hheight.
      * rewrite Hres1, Hclen. lia.
      * now rewrite (concat_weights_length _ Hrw).
      * now rewrite (concat_weights_length _ Hcw).
Qed.

End SubmatrixTotalTheorem.

(** X17: on an opened file whose contigs and store are well-formed at [R],
    [get_submatrix] answers every query whose clamped ranges are in order:
    none of its assertions fails, the matrix it returns is rectangular with
    [r1' - r0'] rows and [c1' - c0'] columns, and the weight vectors have
    these lengths. *)
Theorem get_submatrix_total {F : Type} `{Dtype F} (f : ChunkedFile F)
    (R r0 c0 r1 c1 : Z) (ex : bool) (t : ContigTree F) :
  wf_file f R = true -> wf_store f R = true -> contig_tree f = Some t ->
  let total := tree_size ex R t in
  let r0' := constrain_coordinate r0 0 total in
  let r1' := constrain_coordinate r1 0 total in
  let c0' := constrain_coordinate c0 0 total in
  let c1' := constrain_coordinate c1 0 total in
  r0' <= r1' -> c0' <= c1' ->
  exists M wr wc,
    get_submatrix f R r0 c0 r1 c1 ex = Ok (M, wr, wc)
    /\ wf_ndarray M
    /\ Z.of_nat (shape0 M) = r1' - r0' /\ Z.of_nat (shape1 M) = c1' - c0'
    /\ Z.of_nat (length wr) = r1' - r0' /\ Z.of_nat (length wc) = c1' - c0'.
Proof.
  intros Hwf Hstore Ht total r0' r1' c0' c1' Hr Hc.
  destruct (get_submatrix_wf f R r0 c0 r1 c1 ex t Hwf Hstore Ht Hr Hc)
    as (M & wr & wc & HM & Hwfm & H0 & H1 & H2 & H3 & _).
  exists M, wr, wc. repeat (split; [assumption|]). assumption.
Qed.

Lemma get_submatrix_total_witness :
  exists M wr wc,
    get_submatrix example_file 10 (-1) 1 3 9 true = Ok (M, wr, wc)
    /\ wf_ndarray M
    /\ Z.of_nat (shape0 M) = 3 /\ Z.of_nat (shape1 M) = 3
    /\ Z.of_nat (length wr) = 3 /\ Z.of_nat (length wc) = 3.
Proof.
  apply (@get_submatrix_total Z int64_dtype example_file 10 (-1) 1 3 9 true
           [make_new_node_from_descriptor example_contig CTG_FORWARD]).
  - reflexivity.
  - vm_compute. reflexivity.
  - reflexivity.
  - vm_compute. discriminate.
  - vm_compute. discriminate.
Defined.

(** ** Transposing rows and columns of blocks *)

Section BlockFacts.
Context {F : Type} `{Dtype F}.

Lemma entry_happ (a b : ndarray F) (i j : nat) :
  wf_ndarray a -> wf_ndarray b -> shape0 a = shape0 b -> (i < shape0 a)%nat ->
  entry (happ a b) i j
  = if decide (j < shape1 a)%nat then entry a i j else entry b i (j - shape1 a).
Proof.
  intros Ha Hb Hh Hi.
  destruct (wf_row a i Ha Hi) as (ra & Hra & Hla).
  destruct (wf_row b i Hb ltac:(lia)) as (rb & Hrb & Hlb).
  unfold entry at 1. simpl.
  rewrite (proj2 (lookup_zip_with_Some app (rows a) (rows b) i (ra ++ rb)))
    by (exists ra, rb; auto).
  simpl. destruct (decide (j < shape1 a)%nat) as [Hlt|Hge].
  - rewrite lookup_app_l by lia. unfold entry. now rewrite Hra.
  - rewrite lookup_app_r by lia. unfold entry. rewrite Hrb, Hla. reflexivity.
Qed.

Lemma entry_vapp (a b : ndarray F) (i j : nat) :
  wf_ndarray a ->
  entry (vapp a b) i j
  = if decide (i < shape0 a)%nat then entry a i j else entry b (i - shape0 a) j.
Proof.
  intros [Hl _]. unfold entry. simpl.
  destruct (decide (i < shape0 a)%nat) as [Hlt|Hge].
  - now rewrite lookup_app_l by lia.
  - rewrite lookup_app_r by lia. now rewrite Hl.
Qed.

Lemma transpose_happ (a b : ndarray F) :
  wf_ndarray a -> wf_ndarray b -> shape0 a = shape0 b ->
  transpose (happ a b) = vapp (transpose a) (transpose b).
Proof.
  intros Ha Hb Hh.
  assert (Hab : wf_ndarray (happ a b)) by now apply happ_wf.
  apply ndarray_ext.
  - now apply wf_transpose.
  - apply vapp_wf; auto using wf_transpose.
  - reflexivity.
  - reflexivity.
  - intros i j Hi Hj. simpl in Hi, Hj.
    rewrite entry_transpose by (auto; simpl; lia).
    rewrite entry_happ by auto.
    rewrite entry_vapp by now apply wf_transpose. simpl.
    destruct (decide (i < shape1 a)%nat) as [Hlt|Hge].
    + now rewrite entry_transpose by auto.
    + rewrite entry_transpose by (auto; lia). reflexivity.
Qed.

Lemma transpose_vapp (a b : ndarray F) :
  wf_ndarray a -> wf_ndarray b -> shape1 a = shape1 b ->
  transpose (vapp a b) = happ (transpose a) (transpose b).
Proof.
  intros Ha Hb Hw.
  rewrite <- (transpose_involutive (happ (transpose a) (transpose b))).
  - rewrite transpose_happ; auto using wf_transpose.
    now rewrite !transpose_involutive.
  - apply happ_wf; auto using wf_transpose.
Qed.

(** Two columns of two blocks are two rows of two blocks. *)
Lemma happ_vapp (a b c d : ndarray F) :
  length (rows a) = length (rows b) ->
  happ (vapp a c) (vapp b d) = vapp (happ a b) (happ c d).
Proof.
  intros Hl. unfold happ, vapp. simpl. f_equal.
  now rewrite zip_with_app.
Qed.

End BlockFacts.

Section BlockListFacts.
Context {F : Type} `{Dtype F}.

Lemma hcat_wf (m : ndarray F) (ms : list (ndarray F)) (h : nat) :
  Forall (fun x => wf_ndarray x /\ shape0 x = h) (m :: ms) ->
  wf_ndarray (hcat m ms) /\ shape0 (hcat m ms) = h.
Proof.
  revert m. induction ms as [|m' ms IH]; intros m Hall.
  - apply Forall_cons in Hall as [Hm _]. exact Hm.
  - apply Forall_cons in Hall as [[Hm Hh] Hall].
    destruct (IH m' Hall) as [Hwf H0]. simpl. split; [|exact Hh].
    apply happ_wf; auto. congruence.
Qed.

Lemma vcat_wf (m : ndarray F) (ms : list (ndarray F)) (w : nat) :
  Forall (fun x => wf_ndarray x /\ shape1 x = w) (m :: ms) ->
  wf_ndarray (vcat m ms) /\ shape1 (vcat m ms) = w.
Proof.
  revert m. induction ms as [|m' ms IH]; intros m Hall.
  - apply Forall_cons in Hall as [Hm _]. exact Hm.
  - apply Forall_cons in Hall as [[Hm Hh] Hall].
    destruct (IH m' Hall) as [Hwf H0]. simpl. split; [|exact Hh].
    apply vapp_wf; auto. congruence.
Qed.

Lemma transpose_hcat (m : ndarray F) (ms : list (ndarray F)) (h : nat) :
  Forall (fun x => wf_ndarray x /\ shape0 x = h) (m :: ms) ->
  transpose (hcat m ms) = vcat (transpose m) (map transpose ms).
Proof.
  revert m. induction ms as [|m' ms IH]; intros m Hall; [reflexivity|].
  apply Forall_cons in Hall as [[Hm Hh] Hall].
  destruct (hcat_wf m' ms h Hall) as [Hwf H0].
  simpl. rewrite transpose_happ by (auto; congruence).
  now rewrite (IH m' Hall).
Qed.

Lemma transpose_vcat (m : ndarray F) (ms : list (ndarray F)) (w : nat) :
  Forall (fun x => wf_ndarray x /\ shape1 x = w) (m :: ms) ->
  transpose (vcat m ms) = hcat (transpose m) (map transpose ms).
Proof.
  revert m. induction ms as [|m' ms IH]; intros m Hall; [reflexivity|].
  apply Forall_cons in Hall as [[Hm Hh] Hall].
  destruct (vcat_wf m' ms w Hall) as [Hwf H0].
  simpl. rewrite transpose_vapp by (auto; congruence).
  now rewrite (IH m' Hall).
Qed.

Lemma hcat_rows_length (m : ndarray F) (ms : list (ndarray F)) :
  Forall (fun x => length (rows x) = length (rows m)) ms ->
  length (rows (hcat m ms)) = length (rows m).
Proof.
  revert m. induction ms as [|m' ms IH]; intros m Hall; [reflexivity|].
  apply Forall_cons in Hall as [Hm' Hall]. simpl.
  rewrite length_zip_with, IH.
  - lia.
  - eapply Forall_impl; [exact Hall|]. intros x Hx. simpl in Hx. congruence.
Qed.

(** Two columns of blocks side by side are the column of the rows. *)
Lemma happ_vcat {C} (P Q : C -> ndarray F) (c : C) (cols_ : list C) :
  (forall c', c' ∈ c :: cols_ -> length (rows (P c')) = length (rows (Q c'))) ->
  happ (vcat (P c) (map P cols_)) (vcat (Q c) (map Q cols_))
  = vcat (happ (P c) (Q c)) (map (fun c' => happ (P c') (Q c')) cols_).
Proof.
  revert c. induction cols_ as [|c1 cols_ IH]; intros c Hl; [reflexivity|].
  simpl. rewrite happ_vapp by (apply Hl; constructor).
  rewrite IH; [reflexivity|]. intros c' Hc'. apply Hl. now constructor.
Qed.

(** A row of columns of blocks is the column of the rows of blocks. *)
Lemma hcat_vcat {A C} (X : A -> C -> ndarray F) (hgt : C -> nat)
    (a : A) (rows_ : list A) (c : C) (cols_ : list C) :
  (forall a' c', a' ∈ a :: rows_ -> c' ∈ c :: cols_ ->
     length (rows (X a' c')) = hgt c') ->
  hcat (vcat (X a c) (map (X a) cols_))
       (map (fun a' => vcat (X a' c) (map (X a') cols_)) rows_)
  = vcat (hcat (X a c) (map (fun a' => X a' c) rows_))
         (map (fun c' => hcat (X a c') (map (fun a' => X a' c') rows_)) cols_).
Proof.
  revert a. induction rows_ as [|a1 rows_ IH]; intros a Hh.
  - simpl. reflexivity.
  - simpl. rewrite IH by (intros a' c' Ha' Hc'; apply Hh; [now constructor | exact Hc']).
    rewrite (happ_vcat (X a)
               (fun c' => hcat (X a1 c') (map (fun a' => X a' c') rows_)) c cols_).
    + reflexivity.
    + intros c' Hc'. rewrite hcat_rows_length.
      * rewrite !Hh; auto; repeat constructor.
      * apply Forall_fmap. apply Forall_forall. intros a' Ha'. simpl.
        rewrite !Hh; auto; repeat constructor. exact Ha'.
Qed.

Lemma hcat_map_shape1 {C} (P : C -> ndarray F) (hc : C -> nat) (c : C) (cols_ : list C) :
  (forall c', c' ∈ c :: cols_ -> shape1 (P c') = hc c') ->
  shape1 (hcat (P c) (map P cols_)) = (hc c + sum_list (map hc cols_))%nat.
Proof.
  revert c. induction cols_ as [|c1 cols_ IH]; intros c Hl.
  - simpl. rewrite Hl by constructor. lia.
  - simpl. rewrite Hl by constructor. f_equal.
    apply IH. intros c' Hc'. apply Hl. now constructor.
Qed.

(** The transpose of a matrix of blocks is the matrix of the transposed
    blocks, rows and columns of blocks exchanged. *)
Lemma transpose_blocks {A C} (X : A -> C -> ndarray F) (hr : A -> nat) (hc : C -> nat)
    (a : A) (rows_ : list A) (c : C) (cols_ : list C) :
  (forall a' c', a' ∈ a :: rows_ -> c' ∈ c :: cols_ ->
     wf_ndarray (X a' c') /\ shape0 (X a' c') = hr a' /\ shape1 (X a' c') = hc c') ->
  transpose (vcat (hcat (X a c) (map (X a) cols_))
                  (map (fun a' => hcat (X a' c) (map (X a') cols_)) rows_))
  = vcat (hcat (transpose (X a c)) (map (fun a' => transpose (X a' c)) rows_))
         (map (fun c' => hcat (transpose (X a c'))
                           (map (fun a' => transpose (X a' c')) rows_)) cols_).
Proof.
  intros Hx.
  assert (Hrow : forall a', a' ∈ a :: rows_ ->
            (wf_ndarray (hcat (X a' c) (map (X a') cols_))
             /\ shape1 (hcat (X a' c) (map (X a') cols_))
                = (hc c + sum_list (map hc cols_))%nat)
            /\ transpose (hcat (X a' c) (map (X a') cols_))
               = vcat (transpose (X a' c)) (map (fun c' => transpose (X a' c')) cols_)).
  { intros a' Ha'.
    assert (Hall : Forall (fun x => wf_ndarray x /\ shape0 x = hr a')
                     (X a' c :: map (X a') cols_)).
    { change (X a' c :: map (X a') cols_) with (map (X a') (c :: cols_)).
      apply Forall_fmap. apply Forall_forall. intros c' Hc'. simpl.
      destruct (Hx a' c' Ha' Hc') as (Hwf & H0 & _). auto. }
    split; [split|].
    - apply (hcat_wf _ _ _ Hall).
    - apply hcat_map_shape1. intros c' Hc'. now destruct (Hx a' c' Ha' Hc') as (_ & _ & H1).
    - rewrite (transpose_hcat _ _ _ Hall). now rewrite map_map. }
  rewrite (transpose_vcat _ _ (hc c + sum_list (map hc cols_))).
  - rewrite (proj2 (Hrow a ltac:(constructor))). rewrite map_map.
    rewrite (map_ext_in _ (fun a' => vcat (transpose (X a' c))
                                       (map (fun c' => transpose (X a' c')) cols_))).
    + apply (hcat_vcat (fun a' c' => transpose (X a' c')) hc).
      intros a' c' Ha' Hc'. destruct (Hx a' c' Ha' Hc') as (_ & _ & H1).
      unfold transpose. simpl. now rewrite length_map, length_seq.
    + intros a' Ha'. apply Hrow. constructor. now apply list_elem_of_In.
  - change (hcat (X a c) (map (X a) cols_)
            :: map (fun a' => hcat (X a' c) (map (X a') cols_)) rows_)
      with (map (fun a' => hcat (X a' c) (map (X a') cols_)) (a :: rows_)).
    apply Forall_fmap. apply Forall_forall. intros a' Ha'. apply Hrow. exact Ha'.
Qed.

(** What [np.hstack] and [np.vstack] return. *)
Lemma np_hstack_inv (ms : list (ndarray F)) (r : ndarray F) :
  np_hstack ms = Ok r -> exists m ms', ms = m :: ms' /\ r = hcat m ms'.
Proof.
  revert r. induction ms as [|m ms IH]; intros r Hr; [discriminate|].
  exists m, ms. split; [reflexivity|].
  destruct ms as [|m' ms]; [now injection Hr as <-|].
  change (np_hstack (m :: m' :: ms))
    with (np_hstack (m' :: ms) ≫= fun r =>
            if (shape0 m =? shape0 r)%nat then Ok (happ m r) else Raise ValueError) in Hr.
  apply bind_Ok_inv in Hr as (r' & Hr' & Hr).
  destruct (IH r' Hr') as (m0 & ms0 & E & ->). injection E as <- <-.
  destruct (_ =? _)%nat; [|discriminate]. now injection Hr as <-.
Qed.

Lemma np_vstack_inv (ms : list (ndarray F)) (r : ndarray F) :
  np_vstack ms = Ok r -> exists m ms', ms = m :: ms' /\ r = vcat m ms'.
Proof.
  revert r. induction ms as [|m ms IH]; intros r Hr; [discriminate|].
  exists m, ms. split; [reflexivity|].
  destruct ms as [|m' ms]; [now injection Hr as <-|].
  change (np_vstack (m :: m' :: ms))
    with (np_vstack (m' :: ms) ≫= fun r =>
            if (shape1 m =? shape1 r)%nat then Ok (vapp m r) else Raise ValueError) in Hr.
  apply bind_Ok_inv in Hr as (r' & Hr' & Hr).
  destruct (IH r' Hr') as (m0 & ms0 & E & ->). injection E as <- <-.
  destruct (_ =? _)%nat; [|discriminate]. now injection Hr as <-.
Qed.

End BlockListFacts.

(** ** Exchanging the rows and the columns of a query *)

Section SubmatrixSwap.
Context {F : Type} `{Dtype F}.

(** The row of blocks one iteration of the loop appends. *)
Lemma row_loop_body_rows (f : ChunkedFile F) (R : Z)
    (X : ATUDescriptor F -> ATUDescriptor F -> ndarray F)
    (c : ATUDescriptor F) (cols' : list (ATUDescriptor F)) (qc : Z)
    (st st' : row_loop_state) (a : ATUDescriptor F) :
  Forall (fun c' => get_stripe_intersection_for_atus_as_raw_dense_matrix f R a c'
                    = Ok (X a c')) (c :: cols') ->
  row_loop_body f R (c :: cols') qc st a = Ok st' ->
  row_matrices st' = row_matrices st ++ [hcat (X a c) (map (X a) cols')].
Proof.
  intros HX Hbody. unfold row_loop_body in Hbody.
  rewrite (mapM_map _ (fun c' => (X a c', atu_weights a, atu_weights c'))) in Hbody.
  2:{ eapply Forall_impl; [exact HX|]. intros c' Hc'. simpl in Hc'.
      unfold get_atu_intersection. now rewrite Hc', bind_Ok_eq. }
  rewrite bind_Ok_eq in Hbody. cbv zeta in Hbody.
  change (0 <? length (c :: cols'))%nat with true in Hbody. cbv iota in Hbody.
  apply bind_Ok_inv in Hbody as (_ & _ & Hbody).
  apply bind_Ok_inv in Hbody as (first & _ & Hbody).
  apply bind_Ok_inv in Hbody as (_ & _ & Hbody).
  apply bind_Ok_inv in Hbody as (_ & _ & Hbody).
  apply bind_Ok_inv in Hbody as (row & Hrow & Hbody).
  apply bind_Ok_inv in Hbody as (ft & _ & Hbody).
  injection Hbody as <-. simpl. f_equal. f_equal.
  apply np_hstack_inv in Hrow as (m & ms & E & ->).
  simpl in E. injection E as <- <-. now rewrite map_map.
Qed.

(** The rows of blocks the loop appends. *)
Lemma row_loop_rows (f : ChunkedFile F) (R : Z)
    (X : ATUDescriptor F -> ATUDescriptor F -> ndarray F)
    (c : ATUDescriptor F) (cols' : list (ATUDescriptor F)) (qc : Z)
    (rows_ : list (ATUDescriptor F)) (st st' : row_loop_state) :
  Forall (fun a => Forall (fun c' =>
            get_stripe_intersection_for_atus_as_raw_dense_matrix f R a c'
            = Ok (X a c')) (c :: cols')) rows_ ->
  row_loop f R (c :: cols') qc st rows_ = Ok st' ->
  row_matrices st' = row_matrices st
                     ++ map (fun a => hcat (X a c) (map (X a) cols')) rows_.
Proof.
  intros HX. revert st. induction HX as [|a rows_ Ha _ IH]; intros st Hloop.
  - simpl in Hloop. injection Hloop as <-. now rewrite app_nil_r.
  - simpl in Hloop. apply bind_Ok_inv in Hloop as (st1 & Hbody & Hloop).
    rewrite (IH _ Hloop), (row_loop_body_rows f R X c cols' qc st st1 a Ha Hbody).
    now rewrite <- app_assoc.
Qed.

Lemma blocks_ext {A C} (X Y : A -> C -> ndarray F)
    (a : A) (rows_ : list A) (c : C) (cols_ : list C) :
  (forall a' c', a' ∈ a :: rows_ -> c' ∈ c :: cols_ -> X a' c' = Y a' c') ->
  vcat (hcat (X a c) (map (X a) cols_))
       (map (fun a' => hcat (X a' c) (map (X a') cols_)) rows_)
  = vcat (hcat (Y a c) (map (Y a) cols_))
         (map (fun a' => hcat (Y a' c) (map (Y a') cols_)) rows_).
Proof.
  intros Hxy.
  assert (Hrow : forall a', a' ∈ a :: rows_ ->
            hcat (X a' c) (map (X a') cols_) = hcat (Y a' c) (map (Y a') cols_)).
  { intros a' Ha'. f_equal.
    - apply Hxy; [exact Ha' | constructor].
    - apply map_ext_in. intros c' Hc'. apply Hxy; [exact Ha'|].
      constructor. now apply list_elem_of_In. }
  f_equal.
  - apply Hrow. constructor.
  - apply map_ext_in. intros a' Ha'. apply Hrow. constructor. now apply list_elem_of_In.
Qed.

(** The query with the row range and the column range exchanged. *)
Lemma get_submatrix_swap (f : ChunkedFile F) (R r0 c0 r1 c1 : Z) (ex : bool)
    (t : ContigTree F) :
  wf_file f R = true -> wf_store f R = true -> contig_tree f = Some t ->
  let total := tree_size ex R t in
  constrain_coordinate r0 0 total <= constrain_coordinate r1 0 total ->
  constrain_coordinate c0 0 total <= constrain_coordinate c1 0 total ->
  exists M wr wc,
    get_submatrix f R r0 c0 r1 c1 ex = Ok (M, wr, wc)
    /\ get_submatrix f R c0 r0 c1 r1 ex = Ok (transpose M, wc, wr).
Proof.
  intros Hwf Hstore Ht total Hr Hc.
  destruct (get_submatrix_wf f R r0 c0 r1 c1 ex t Hwf Hstore Ht Hr Hc)
    as (M & wr & wc & HM & HwfM & _ & _ & _ & _ & rows_ & cols_ & Hrows & Hcols
        & Hrg & Hcg & Hstruct).
  destruct (get_submatrix_wf f R c0 r0 c1 r1 ex t Hwf Hstore Ht Hc Hr)
    as (M' & wr' & wc' & HM' & _ & _ & _ & _ & _ & rows2 & cols2 & Hrows2 & Hcols2
        & _ & _ & Hstruct').
  fold total in Hrows, Hcols, Hrows2, Hcols2, Hstruct, Hstruct'.
  rewrite Hcols in Hrows2. injection Hrows2 as <-.
  rewrite Hrows in Hcols2. injection Hcols2 as <-.
  exists M, wr, wc. split; [exact HM|]. rewrite HM'.
  set (qr := constrain_coordinate r1 0 total - constrain_coordinate r0 0 total) in *.
  set (qc := constrain_coordinate c1 0 total - constrain_coordinate c0 0 total) in *.
  clearbody qr qc.
  assert (Hzeros : np_zeros qr qc = Ok M /\ np_ones qr = Ok wr /\ np_ones qc = Ok wc ->
                   np_zeros qc qr = Ok M' /\ np_ones qc = Ok wr' /\ np_ones qr = Ok wc' ->
                   Ok (M', wr', wc') = Ok (transpose M, wc, wr)).
  { intros (Hz & Hor & Hoc) (Hz' & Hor' & Hoc').
    apply np_zeros_transpose in Hz as [Hz _]. congruence. }
  destruct rows_ as [|a rows']; [destruct cols_; auto|].
  destruct cols_ as [|c cols']; [auto|]. clear Hzeros.
  destruct Hstruct as (st & Hloop & Hstack & -> & ->).
  destruct Hstruct' as (st' & Hloop' & Hstack' & -> & ->).
  f_equal. f_equal. f_equal.
  destruct (wf_store_inv f R Hstore) as (d & t' & Hd & Ht' & _ & Hunique & Hblocks).
  rewrite Ht in Ht'. injection Ht' as <-.
  set (X := fun a' c' : ATUDescriptor F =>
              match get_stripe_intersection_for_atus_as_raw_dense_matrix f R a' c' with
              | Ok m => m
              | Raise _ => mk_ndarray 0 0 []
              end).
  assert (HX : forall a' c',
             (wf_atu a' /\ stripe_descriptor a' ∈ tree_stripes R t) ->
             (wf_atu c' /\ stripe_descriptor c' ∈ tree_stripes R t) ->
             get_stripe_intersection_for_atus_as_raw_dense_matrix f R a' c' = Ok (X a' c')
             /\ wf_ndarray (X a' c')
             /\ shape0 (X a' c') = Z.to_nat (atu_length a')
             /\ shape1 (X a' c') = Z.to_nat (atu_length c')
             /\ X c' a' = transpose (X a' c')).
  { intros a' c' [Ha Qa] [Hc' Qc]. unfold X.
    destruct (stripe_intersection_ok f R d a' c' Hd Ha Hc')
      as (m & Hm & Hwfm & H0 & H1 & Hsw).
    - now apply Hunique.
    - unfold ordered_stripes.
      destruct (_ <? _) eqn:E; simpl; apply Hblocks; auto.
      + apply Z.ltb_lt in E. lia.
      + apply Z.ltb_ge in E. lia.
    - rewrite Hm, Hsw. repeat (split; [first [reflexivity | assumption | lia]|]).
      reflexivity. }
  rewrite Forall_forall in Hrg, Hcg.
  assert (E1 : row_matrices st
               = map (fun a' => hcat (X a' c) (map (X a') cols')) (a :: rows')).
  { refine (row_loop_rows f R X c cols' _ (a :: rows') _ st _ Hloop).
    apply Forall_forall. intros a' Ha'. apply Forall_forall. intros c' Hc'.
    apply HX; auto. }
  assert (E2 : row_matrices st'
               = map (fun c' => hcat (X c' a) (map (X c') rows')) (c :: cols')).
  { refine (row_loop_rows f R X a rows' _ (c :: cols') _ st' _ Hloop').
    apply Forall_forall. intros c' Hc'. apply Forall_forall. intros a' Ha'.
    apply HX; auto. }
  rewrite E1 in Hstack. rewrite E2 in Hstack'.
  apply np_vstack_inv in Hstack as (m & ms & E & ->). simpl in E. injection E as <- <-.
  apply np_vstack_inv in Hstack' as (m & ms & E & ->). simpl in E. injection E as <- <-.
  rewrite (transpose_blocks X (fun a' => Z.to_nat (atu_length a'))
             (fun c' => Z.to_nat (atu_length c')) a rows' c cols').
  - apply (blocks_ext (fun c' a' => X c' a') (fun c' a' => transpose (X a' c'))).
    intros c' a' Hc' Ha'. apply HX; auto.
  - intros a' c' Ha' Hc'. destruct (HX a' c') as (_ & Hw & H0 & H1 & _); auto.
Qed.

End SubmatrixSwap.

(** X18: on an opened file whose contigs and store are well-formed at [R],
    exchanging the row range and the column range of a [get_submatrix] query
    whose clamped ranges are in order returns the transposed matrix, with the
    two weight vectors exchanged. *)
Theorem get_submatrix_transpose {F : Type} `{Dtype F} (f : ChunkedFile F)
    (R r0 c0 r1 c1 : Z) (ex : bool) (t : ContigTree F) :
  wf_file f R = true -> wf_store f R = true -> contig_tree f = Some t ->
  let total := tree_size ex R t in
  constrain_coordinate r0 0 total <= constrain_coordinate r1 0 total ->
  constrain_coordinate c0 0 total <= constrain_coordinate c1 0 total ->
  exists M wr wc,
    get_submatrix f R r0 c0 r1 c1 ex = Ok (M, wr, wc)
    /\ get_submatrix f R c0 r0 c1 r1 ex = Ok (transpose M, wc, wr).
Proof. apply get_submatrix_swap. Qed.

Lemma get_submatrix_transpose_witness :
  exists M wr wc,
    get_submatrix example_file 10 (-1) 1 2 9 true = Ok (M, wr, wc)
    /\ get_submatrix example_file 10 1 (-1) 9 2 true = Ok (transpose M, wc, wr).
Proof.
  apply (@get_submatrix_transpose Z int64_dtype example_file 10 (-1) 1 2 9 true
           [make_new_node_from_descriptor example_contig CTG_FORWARD]).
  - reflexivity.
  - vm_compute. reflexivity.
  - reflexivity.
  - vm_compute. discriminate.
  - vm_compute. discriminate.
Defined.

(** X19: for a stored resolution and the units BINS or PIXELS, on a file
    whose contigs and store are well-formed, [get_dense_submatrix] called with
    [(y0, x0, y1, x1)] returns the transpose of the matrix it returns for
    [(x0, y0, x1, y1)], with the two weight vectors exchanged, whenever the
    clamped ranges are in order. *)
Theorem get_dense_submatrix_symmetric {F : Type} `{Dtype F}
    (expose_segment_by_length : ContigTree F -> Z -> Z -> Z -> result (ExposedSegment F))
    (f : ChunkedFile F) (R x0 y0 x1 y1 : Z) (units : QueryLengthUnit) (ex : bool)
    (t : ContigTree F) :
  units <> BASE_PAIRS -> R ∈ resolutions f ->
  wf_file f R = true -> wf_store f R = true -> contig_tree f = Some t ->
  let total := tree_size (ex || bool_decide (units = PIXELS)) R t in
  constrain_coordinate x0 0 total <= constrain_coordinate x1 0 total ->
  constrain_coordinate y0 0 total <= constrain_coordinate y1 0 total ->
  exists M wr wc,
    get_dense_submatrix expose_segment_by_length f R x0 y0 x1 y1 units ex
    = Ok (M, wr, wc, f)
    /\ get_dense_submatrix expose_segment_by_length f R y0 x0 y1 x1 units ex
       = Ok (transpose M, wc, wr, f).
Proof.
  intros Hu HR Hwf Hstore Ht total Hx Hy.
  destruct (get_submatrix_swap f R x0 y0 x1 y1 (ex || bool_decide (units = PIXELS)) t
              Hwf Hstore Ht Hx Hy) as (M & wr & wc & HM & HM').
  exists M, wr, wc. unfold get_dense_submatrix, resolution_stored.
  rewrite (bool_decide_eq_true_2 _ HR). simpl.
  destruct units; [congruence| |]; now rewrite HM, HM'.
Qed.

Lemma get_dense_submatrix_symmetric_witness :
  exists M wr wc,
    get_dense_submatrix (fun _ _ _ _ => Raise IndexError) example_file 10 0 1 3 4 BINS false
    = Ok (M, wr, wc, example_file)
    /\ get_dense_submatrix (fun _ _ _ _ => Raise IndexError) example_file 10 1 0 4 3 BINS false
       = Ok (transpose M, wc, wr, example_file).
Proof.
  apply (@get_dense_submatrix_symmetric Z int64_dtype (fun _ _ _ _ => Raise IndexError)
           example_file 10 0 1 3 4 BINS false
           [make_new_node_from_descriptor example_contig CTG_FORWARD]).
  - discriminate.
  - constructor.
  - reflexivity.
  - vm_compute. reflexivity.
  - reflexivity.
  - vm_compute. discriminate.
  - vm_compute. discriminate.
Defined.

(** ** The matrix sizes *)

Section MatrixSizeFacts.
Context {F : Type} `{Dtype F}.

Lemma node_size_px_le (R : Z) (n : Node F) :
  wf_contig R (contig_descriptor n) = true -> node_size true R n <= node_size false R n.
Proof.
  intros Hwf. pose proof (node_size_nonneg false R n Hwf) as Hnn.
  unfold node_size in *.
  destruct (atus (contig_descriptor n) !! R); [|lia].
  destruct (presence_in_resolution (contig_descriptor n) !! R); [|lia].
  simpl in *. destruct (is_hidden c); lia.
Qed.

Lemma tree_size_px_le (R : Z) (t : ContigTree F) :
  wf_tree R t = true -> tree_size true R t <= tree_size false R t.
Proof.
  induction t as [|n t IH]; intros Hwf; [reflexivity|].
  simpl in Hwf. apply andb_true_iff in Hwf as [Hn Ht].
  rewrite !tree_size_cons. pose proof (node_size_px_le R n Hn). specialize (IH Ht). lia.
Qed.

(** The sizes reported for a stored resolution of a well-formed file. *)
Lemma get_matrix_size_wf (f : ChunkedFile F) (R : Z) (t : ContigTree F) :
  wf_file f R = true -> R ∈ resolutions f -> contig_tree f = Some t ->
  get_matrix_size_bins f R = Ok (tree_size false R t)
  /\ get_matrix_size_px f R = Ok (tree_size true R t).
Proof.
  intros Hwf HR Ht. destruct (wf_file_inv f R Hwf) as (t' & Hst & Ht' & Hwt).
  rewrite Ht in Ht'. injection Ht' as <-.
  unfold get_matrix_size_bins, get_matrix_size_px, resolution_stored.
  rewrite Hst, Ht, (bool_decide_eq_true_2 _ HR). simpl.
  now rewrite !sizes_or_zero_wf.
Qed.

End MatrixSizeFacts.

(** X20: for a stored resolution of an opened file whose contigs are
    well-formed, [get_matrix_size_bins] and [get_matrix_size_px] both return,
    and the size in pixels is between 0 and the size in bins (hidden contigs
    count in bins, not in pixels). *)
Theorem get_matrix_size_px_le_bins {F : Type} `{Dtype F} (f : ChunkedFile F) (R : Z) :
  wf_file f R = true -> R ∈ resolutions f ->
  exists b p,
    get_matrix_size_bins f R = Ok b /\ get_matrix_size_px f R = Ok p /\ 0 <= p <= b.
Proof.
  intros Hwf HR. destruct (wf_file_inv f R Hwf) as (t & Hst & Ht & Hwt).
  destruct (get_matrix_size_wf f R t Hwf HR Ht) as [Hb Hp].
  exists (tree_size false R t), (tree_size true R t).
  split; [exact Hb|]. split; [exact Hp|]. split.
  - now apply tree_size_nonneg.
  - now apply tree_size_px_le.
Qed.

Lemma get_matrix_size_px_le_bins_witness :
  exists b p,
    get_matrix_size_bins example_file 10 = Ok b
    /\ get_matrix_size_px example_file 10 = Ok p /\ 0 <= p <= b.
Proof.
  apply (@get_matrix_size_px_le_bins Z int64_dtype example_file 10).
  - reflexivity.
  - constructor.
Defined.

(** X21: [get_matrix_size_bins] raises [IncorrectResolution] exactly on an
    opened file that does not store the resolution; [get_matrix_size_px]
    does so only if the file also has a contig tree, whose absence it
    reports first, by an assertion, whatever the state of the file. *)
Theorem get_matrix_size_incorrect_resolution {F : Type} `{Dtype F}
    (f : ChunkedFile F) (R : Z) :
  (get_matrix_size_bins f R = Raise IncorrectResolution
   <-> state f = OPENED /\ R ∉ resolutions f)
  /\ (get_matrix_size_px f R = Raise IncorrectResolution
      <-> contig_tree f <> None /\ state f = OPENED /\ R ∉ resolutions f)
  /\ (contig_tree f = None ->
      get_matrix_size_px f R = Raise (AssertionError "Contig tree is not present?")).
Proof.
  unfold get_matrix_size_bins, get_matrix_size_px, resolution_stored.
  destruct (bool_decide (R ∈ resolutions f)) eqn:E;
    [apply bool_decide_eq_true in E | apply bool_decide_eq_false in E]; simpl.
  - (* stored *)
    split; [|split].
    + split; [|tauto]. destruct (state f); try discriminate.
      destruct (contig_tree f) as [t|]; [|discriminate].
      intros Hs. exfalso. exact (no_IR_sizes_or_zero false R t Hs).
    + split; [|tauto]. destruct (contig_tree f) as [t|]; [|discriminate].
      destruct (state f); try discriminate.
      intros Hs. exfalso. exact (no_IR_sizes_or_zero true R t Hs).
    + now intros ->.
  - (* not stored *)
    split; [|split].
    + destruct (state f); split; try discriminate; try tauto;
        try (intros [Hs _]; discriminate).
    + destruct (contig_tree f) as [t|].
      * destruct (state f); split; try discriminate; try tauto;
          try (intros (_ & Hs & _); discriminate);
          try (intros _; repeat split; auto; discriminate).
      * split; [discriminate|]. intros [Hn _]. congruence.
    + now intros ->.
Qed.

(** X22: a dense query in BINS or PIXELS never returns more rows or columns
    than the matrix size the facade reports for the same resolution: the
    size in pixels when hidden contigs are excluded (always so for PIXELS),
    the size in bins otherwise. *)
Theorem get_dense_submatrix_within_size {F : Type} `{Dtype F}
    (expose_segment_by_length : ContigTree F -> Z -> Z -> Z -> result (ExposedSegment F))
    (f : ChunkedFile F) (R x0 y0 x1 y1 : Z) (units : QueryLengthUnit) (ex : bool)
    (t : ContigTree F) :
  units <> BASE_PAIRS -> R ∈ resolutions f ->
  wf_file f R = true -> wf_store f R = true -> contig_tree f = Some t ->
  let hidden_excluded := ex || bool_decide (units = PIXELS) in
  let total := tree_size hidden_excluded R t in
  constrain_coordinate x0 0 total <= constrain_coordinate x1 0 total ->
  constrain_coordinate y0 0 total <= constrain_coordinate y1 0 total ->
  exists M wr wc size,
    get_dense_submatrix expose_segment_by_length f R x0 y0 x1 y1 units ex
    = Ok (M, wr, wc, f)
    /\ (if hidden_excluded then get_matrix_size_px f R else get_matrix_size_bins f R)
       = Ok size
    /\ Z.of_nat (shape0 M) <= size /\ Z.of_nat (shape1 M) <= size.
Proof.
  intros Hu HR Hwf Hstore Ht hx total Hx Hy.
  destruct (get_submatrix_wf f R x0 y0 x1 y1 hx t Hwf Hstore Ht Hx Hy)
    as (M & wr & wc & HM & _ & H0 & H1 & _).
  destruct (get_matrix_size_wf f R t Hwf HR Ht) as [Hb Hp].
  destruct (wf_file_inv f R Hwf) as (t' & Hst & Ht' & Hwt).
  rewrite Ht in Ht'. injection Ht' as <-.
  pose proof (tree_size_nonneg hx R t Hwt) as HT.
  fold total in H0, H1, HT.
  exists M, wr, wc, total. split.
  - unfold get_dense_submatrix, resolution_stored.
    rewrite (bool_decide_eq_true_2 _ HR). simpl.
    fold hx. destruct units; [congruence| |]; now rewrite HM.
  - split; [unfold total; destruct hx; assumption|].
    unfold constrain_coordinate in *. clearbody total. clear - H0 H1 HT. lia.
Qed.

Lemma get_dense_submatrix_within_size_witness :
  exists M wr wc size,
    get_dense_submatrix (fun _ _ _ _ => Raise IndexError) example_file 10 0 1 3 9 PIXELS false
    = Ok (M, wr, wc, example_file)
    /\ get_matrix_size_px example_file 10 = Ok size
    /\ Z.of_nat (shape0 M) <= size /\ Z.of_nat (shape1 M) <= size.
Proof.
  apply (@get_dense_submatrix_within_size Z int64_dtype (fun _ _ _ _ => Raise IndexError)
           example_file 10 0 1 3 9 PIXELS false
           [make_new_node_from_descriptor example_contig CTG_FORWARD]).
  - discriminate.
  - constructor.
  - reflexivity.
  - vm_compute. reflexivity.
  - reflexivity.
  - vm_compute. discriminate.
  - vm_compute. discriminate.
Defined.

(** ** Contig borders around a range in base pairs *)

Section ExtendBordersFacts.
Context {F : Type} `{Dtype F}.

(** The segment exposed for a non-empty range inside the assembly, for any
    unit in which every node has a non-negative size. *)
Lemma expose_segment_sz (units : QueryLengthUnit) (R : Z) (sz : Node F -> Z)
    (start_ end_ : Z) (t : ContigTree F) :
  Forall (fun n => node_length units R n = Ok (sz n) /\ 0 <= sz n) t ->
  0 <= start_ -> start_ < end_ -> end_ <= py_sum (map sz t) ->
  exists l n1 sg1 sg2 n2 g,
    expose_segment t R start_ end_ units = Ok (mk_exposed l (n1 :: sg1) g)
    /\ t = l ++ (n1 :: sg1) ++ g
    /\ n1 :: sg1 = sg2 ++ [n2]
    /\ py_sum (map sz l) <= start_ < py_sum (map sz l) + sz n1
    /\ py_sum (map sz l) + py_sum (map sz sg2) < end_
    /\ end_ <= py_sum (map sz l) + py_sum (map sz (n1 :: sg1)).
Proof.
  intros Hall Hs Hse He. unfold expose_segment.
  rewrite (mapM_map _ sz) by (eapply Forall_impl; [exact Hall|]; now intros n [Hn _]).
  rewrite bind_Ok_eq.
  assert (Hsz : Forall (fun n => 0 <= sz n) t)
    by (eapply Forall_impl; [exact Hall|]; now intros n [_ Hn]).
  destruct (split_less_spec sz start_ 0 t Hsz Hs) as (l & r & Heq & Ht & Hle & Hr).
  rewrite Heq. rewrite (proj2 (Z.leb_gt _ _)) by lia.
  destruct (split_segment_spec sz end_ (0 + py_sum (map sz l)) r)
    as (s & g & Heq2 & Hr2 & Hlast & Hg & Hne).
  rewrite Heq2. rewrite Z.add_0_l in *.
  assert (Hrne : r <> []).
  { intros ->. rewrite app_nil_r in Ht. subst t. lia. }
  specialize (Hne ltac:(lia) Hrne).
  destruct s as [|n1 sg1]; [congruence|].
  destruct (exists_last Hne) as (sg2 & n2 & Hsnoc).
  exists l, n1, sg1, sg2, n2, g. split; [reflexivity|].
  split; [now rewrite Ht, Hr2|]. split; [exact Hsnoc|].
  split.
  - rewrite Hr2 in Hr. simpl in Hr. lia.
  - split; [now apply (Hlast sg2 n2)|].
    destruct g as [|x g].
    + rewrite Ht, Hr2, app_nil_r, map_app, py_sum_app in He. exact He.
    + apply Hg. discriminate.
Qed.

Lemma wf_bp_tree_Forall (units : QueryLengthUnit) (t : ContigTree F) :
  units <> PIXELS -> wf_bp_tree t = true ->
  Forall (fun n => node_length units 0 n = Ok (bp_length n) /\ 0 <= bp_length n) t.
Proof.
  intros Hu Hwf. unfold wf_bp_tree in Hwf. rewrite forallb_forall in Hwf.
  apply Forall_forall. intros n Hn. specialize (Hwf n ltac:(now apply list_elem_of_In)).
  unfold bp_length.
  assert (E : node_length units 0 n = node_length_bins 0 n) by now destruct units.
  rewrite E. unfold node_length_bins, py_getitem.
  destruct (contig_length_at_resolution (contig_descriptor n) !! 0) as [[v|]|];
    try discriminate.
  split; [reflexivity | now apply Z.leb_le].
Qed.

Lemma wf_bp_tree_app (t1 t2 : ContigTree F) :
  wf_bp_tree (t1 ++ t2) = wf_bp_tree t1 && wf_bp_tree t2.
Proof. apply forallb_app. Qed.

Lemma sizes_or_zero_bp (t : ContigTree F) :
  wf_bp_tree t = true -> sizes_or_zero false 0 t = Ok (bp_size t).
Proof.
  intros Hwf. destruct t as [|n t]; [reflexivity|].
  unfold sizes_or_zero, get_sizes_at, subtree_length.
  rewrite (mapM_map _ bp_length); [reflexivity|].
  eapply Forall_impl; [apply (wf_bp_tree_Forall BINS); [discriminate | exact Hwf]|].
  now intros x [Hx _].
Qed.

End ExtendBordersFacts.

(** X23: on a tree whose contigs all record a non-negative length in base
    pairs, [extend_bp_borders_to_contigs] answers a non-empty range inside
    the assembly with two contig borders that enclose it as tightly as
    contig borders can: the tree splits as [l ++ sg ++ g], the result is the
    size of [l] and the size of [l ++ sg], the first contig of [sg] holds
    the start of the range and its last contig holds the last base pair. *)
Theorem extend_bp_borders_enclose {F : Type} `{Dtype F} (f : ChunkedFile F)
    (t : ContigTree F) (start_bp end_bp : Z) :
  contig_tree f = Some t -> wf_bp_tree t = true ->
  0 <= start_bp -> start_bp < end_bp -> end_bp <= bp_size t ->
  exists l n1 sg1 sg2 n2 g,
    t = l ++ (n1 :: sg1) ++ g /\ n1 :: sg1 = sg2 ++ [n2]
    /\ extend_bp_borders_to_contigs f start_bp end_bp
       = Ok (bp_size l, bp_size l + bp_size (n1 :: sg1))
    /\ bp_size l <= start_bp < bp_size l + bp_length n1
    /\ bp_size l + bp_size sg2 < end_bp <= bp_size l + bp_size (n1 :: sg1).
Proof.
  intros Ht Hwf Hs Hse He.
  destruct (expose_segment_sz BASE_PAIRS 0 bp_length start_bp end_bp t
              (wf_bp_tree_Forall BASE_PAIRS t ltac:(discriminate) Hwf) Hs Hse He)
    as (l & n1 & sg1 & sg2 & n2 & g & Hes & Heq & Hsnoc & Hl & Hlast & Hr).
  exists l, n1, sg1, sg2, n2, g. split; [exact Heq|]. split; [exact Hsnoc|].
  rewrite Heq, !wf_bp_tree_app in Hwf.
  apply andb_true_iff in Hwf as [Hwl Hwf]. apply andb_true_iff in Hwf as [Hws _].
  split.
  - unfold extend_bp_borders_to_contigs. rewrite Ht, Hes, bind_Ok_eq.
    cbn [less segment]. now rewrite (sizes_or_zero_bp l Hwl), bind_Ok_eq,
      (sizes_or_zero_bp (n1 :: sg1) Hws), bind_Ok_eq.
  - unfold bp_size. split; [exact Hl | split; [exact Hlast | exact Hr]].
Qed.

Lemma extend_bp_borders_enclose_witness :
  exists l n1 sg1 sg2 n2 g,
    [make_new_node_from_descriptor example_contig CTG_FORWARD;
     make_new_node_from_descriptor (split_contig AUTO_SHOWN) CTG_REVERSED;
     make_new_node_from_descriptor example_contig CTG_FORWARD]
    = l ++ (n1 :: sg1) ++ g /\ n1 :: sg1 = sg2 ++ [n2]
    /\ extend_bp_borders_to_contigs
         (mk_chunked_file OPENED [10]
            (Some [make_new_node_from_descriptor example_contig CTG_FORWARD;
                   make_new_node_from_descriptor (split_contig AUTO_SHOWN) CTG_REVERSED;
                   make_new_node_from_descriptor example_contig CTG_FORWARD])
            None ∅ ∅) 45 50
       = Ok (bp_size l, bp_size l + bp_size (n1 :: sg1))
    /\ bp_size l <= 45 < bp_size l + bp_length n1
    /\ bp_size l + bp_size sg2 < 50 <= bp_size l + bp_size (n1 :: sg1).
Proof.
  apply (@extend_bp_borders_enclose Z int64_dtype).
  - reflexivity.
  - reflexivity.
  - lia.
  - lia.
  - vm_compute. discriminate.
Defined.

(** ** The records of the AGP parser, line by line *)

Lemma py_index_lookup {A} (l : list A) (i : nat) (x : A) :
  py_index l (Z.of_nat i) = Ok x -> l !! i = Some x.
Proof.
  unfold py_index. rewrite (proj2 (Z.ltb_ge (Z.of_nat i) 0)) by lia.
  destruct (_ && _); [|discriminate]. rewrite Nat2Z.id.
  destruct (l !! i); [|discriminate]. now intros [= ->].
Qed.

(** One iteration of the loop of [parseAGP]: a line that is not a record line
    leaves the state as it is; a record line appends its contig record and
    opens, continues or closes a run. *)
Lemma parseAGP_step_spec (i : nat) (line : string) (st st' : agp_state) :
  parseAGP_step i line st = Ok st' ->
  (agp_record_line line = false /\ st' = st)
  \/ (agp_record_line line = true
      /\ exists r,
           agp_line_record line = Some r
           /\ let scaf := (agp_line_names line).1 in
              let ctg := (agp_line_names line).2 in
              let contigs := contig_records_list st ++ [r] in
              let d := Some (agp_contig_direction r) in
              (i = 0%nat
               /\ st' = mk_agp_state contigs (scaffold_records_list st)
                          (Some scaf) (Some ctg) (Some ctg) d)
              \/ (i <> 0%nat
                  /\ exists cur,
                       cur_scaf_name st = Some cur
                       /\ (scaf = cur
                           /\ st' = mk_agp_state contigs (scaffold_records_list st)
                                      (cur_scaf_name st) (cur_start_ctg st) (Some ctg) d
                           \/ scaf <> cur
                              /\ exists s e,
                                   cur_start_ctg st = Some s /\ cur_end_ctg st = Some e
                                   /\ st' = mk_agp_state contigs
                                              (scaffold_records_list st
                                               ++ [mk_agp_scaffold cur s e])
                                              (Some scaf) (Some ctg) (Some ctg) d))).
Proof.
  unfold parseAGP_step, parseAGPLine. intros Hstep.
  apply bind_Ok_inv in Hstep as (p & Hp & Hstep).
  apply bind_Ok_inv in Hp as (ct & Hct & Hp).
  apply (py_index_lookup _ 4) in Hct.
  unfold agp_record_line, agp_line_record, agp_line_names, agp_field.
  rewrite Hct.
  destruct (String.eqb ct "N") eqn:EN.
  { apply String.eqb_eq in EN. subst ct.
    apply bind_Ok_inv in Hp as (gl & _ & Hp). injection Hp as <-.
    simpl in Hstep. injection Hstep as <-. left. split; reflexivity. }
  destruct (String.eqb ct "W") eqn:EW; [|discriminate].
  apply String.eqb_eq in EW. subst ct.
  apply bind_Ok_inv in Hp as (t0 & H0 & Hp). apply (py_index_lookup _ 0) in H0.
  apply bind_Ok_inv in Hp as (t5 & H5 & Hp). apply (py_index_lookup _ 5) in H5.
  apply bind_Ok_inv in Hp as (t8 & H8 & Hp). apply (py_index_lookup _ 8) in H8.
  apply bind_Ok_inv in Hp as (t6 & H6 & Hp). apply (py_index_lookup _ 6) in H6.
  apply bind_Ok_inv in Hp as (b & Hb & Hp).
  apply bind_Ok_inv in Hp as (t7 & H7 & Hp). apply (py_index_lookup _ 7) in H7.
  apply bind_Ok_inv in Hp as (e & He & Hp). injection Hp as <-.
  rewrite H0, H5, H6, H7, H8. cbn [mbind option_bind default]. rewrite Hb, He.
  rewrite (bool_decide_eq_true_2 _ eq_refl). cbn [andb].
  cbn beta iota in Hstep.
  destruct (String.eqb t0 "N_spacer") eqn:E0.
  { apply String.eqb_eq in E0. subst t0. injection Hstep as <-. left.
    rewrite (bool_decide_eq_true_2 _ eq_refl). split; reflexivity. }
  right. apply String.eqb_neq in E0.
  rewrite bool_decide_eq_false_2 by congruence. split; [reflexivity|].
  destruct (String.eqb t8 "+") eqn:Ep.
  - cbn [orb negb] in Hstep. cbn [ContigDirection_of_value] in Hstep.
    change (ContigDirection_of_value 1) with (Ok CTG_FORWARD) in Hstep.
    rewrite bind_Ok_eq in Hstep.
    exists (mk_agp_contig t5 CTG_FORWARD b e). split; [reflexivity|]. cbn zeta. simpl.
    destruct (i =? 0)%nat eqn:Ei.
    + apply Nat.eqb_eq in Ei. injection Hstep as <-. left. split; auto.
    + apply Nat.eqb_neq in Ei. right. split; [exact Ei|].
      apply bind_Ok_inv in Hstep as (cur & Hcur & Hstep).
      destruct (cur_scaf_name st) as [cur'|] eqn:Ecur; [|discriminate].
      injection Hcur as ->. exists cur. split; [reflexivity|].
      destruct (String.eqb t0 cur) eqn:Es.
      * apply String.eqb_eq in Es. injection Hstep as <-. left. split; auto.
      * apply String.eqb_neq in Es. right. split; [exact Es|].
        apply bind_Ok_inv in Hstep as (s & Hs & Hstep).
        apply bind_Ok_inv in Hstep as (e' & He' & Hstep).
        destruct (cur_start_ctg st) as [s'|]; [|discriminate]. injection Hs as ->.
        destruct (cur_end_ctg st) as [e''|]; [|discriminate]. injection He' as ->.
        injection Hstep as <-. exists s, e'. auto.
  - destruct (String.eqb t8 "-") eqn:Em.
    2:{ cbn [orb negb] in Hstep. apply bind_Ok_inv in Hstep as (d & _ & Hstep).
        discriminate. }
    cbn [orb negb] in Hstep.
    change (ContigDirection_of_value 0) with (Ok CTG_REVERSED) in Hstep.
    rewrite bind_Ok_eq in Hstep.
    exists (mk_agp_contig t5 CTG_REVERSED b e). split; [reflexivity|]. cbn zeta. simpl.
    destruct (i =? 0)%nat eqn:Ei.
    + apply Nat.eqb_eq in Ei. injection Hstep as <-. left. split; auto.
    + apply Nat.eqb_neq in Ei. right. split; [exact Ei|].
      apply bind_Ok_inv in Hstep as (cur & Hcur & Hstep).
      destruct (cur_scaf_name st) as [cur'|] eqn:Ecur; [|discriminate].
      injection Hcur as ->. exists cur. split; [reflexivity|].
      destruct (String.eqb t0 cur) eqn:Es.
      * apply String.eqb_eq in Es. injection Hstep as <-. left. split; auto.
      * apply String.eqb_neq in Es. right. split; [exact Es|].
        apply bind_Ok_inv in Hstep as (s & Hs & Hstep).
        apply bind_Ok_inv in Hstep as (e' & He' & Hstep).
        destruct (cur_start_ctg st) as [s'|]; [|discriminate]. injection Hs as ->.
        destruct (cur_end_ctg st) as [e''|]; [|discriminate]. injection He' as ->.
        injection Hstep as <-. exists s, e'. auto.
Qed.

Lemma parseAGP_loop_records (i : nat) (lines : list string) (st st' : agp_state) :
  parseAGP_loop i lines st = Ok st' ->
  exists rs,
    contig_records_list st' = contig_records_list st ++ rs
    /\ map Some rs = map agp_line_record (List.filter agp_record_line lines).
Proof.
  revert i st. induction lines as [|line lines IH]; intros i st Hloop.
  - injection Hloop as <-. exists []. now rewrite app_nil_r.
  - simpl in Hloop. apply bind_Ok_inv in Hloop as (st1 & Hstep & Hloop).
    destruct (IH (S i) st1 Hloop) as (rs & Hrs & Hmap).
    destruct (parseAGP_step_spec i line st st1 Hstep)
      as [[Hno ->]|(Hyes & r & Hr & Hst1)].
    + exists rs. simpl. rewrite Hno. auto.
    + exists (r :: rs). simpl. rewrite Hyes. simpl. rewrite Hr, <- Hmap. split; [|reflexivity].
      rewrite Hrs.
      assert (Hc : contig_records_list st1 = contig_records_list st ++ [r]).
      { cbn zeta in Hst1.
        destruct Hst1 as [[_ ->]|(_ & cur & _ & [[_ ->]|(_ & s & e & _ & _ & ->)])];
          reflexivity. }
      rewrite Hc, <- app_assoc. reflexivity.
Qed.

(** Once a run is open, the loop closes and opens runs as [agp_runs_from]
    does. *)
Lemma parseAGP_loop_runs_from (i : nat) (lines : list string) (st st' : agp_state)
    (cur s e : string) :
  parseAGP_loop i lines st = Ok st' -> i <> 0%nat ->
  cur_scaf_name st = Some cur -> cur_start_ctg st = Some s -> cur_end_ctg st = Some e ->
  exists cur' s' e',
    cur_scaf_name st' = Some cur' /\ cur_start_ctg st' = Some s'
    /\ cur_end_ctg st' = Some e'
    /\ scaffold_records_list st' ++ [mk_agp_scaffold cur' s' e']
       = scaffold_records_list st
         ++ agp_runs_from cur s e
              (map agp_line_names (List.filter agp_record_line lines)).
Proof.
  revert i st cur s e. induction lines as [|line lines IH];
    intros i st cur s e Hloop Hi Hcur Hs He.
  - injection Hloop as <-. exists cur, s, e. auto.
  - simpl in Hloop. apply bind_Ok_inv in Hloop as (st1 & Hstep & Hloop).
    destruct (parseAGP_step_spec i line st st1 Hstep)
      as [[Hno ->]|(Hyes & r & Hr & Hst1)].
    + cbn [List.filter]. rewrite Hno. apply (IH (S i) st cur s e Hloop); auto.
    + cbn [List.filter]. rewrite Hyes. cbn [map]. cbn zeta in Hst1.
      destruct (agp_line_names line) as [scaf ctg] eqn:En. cbn [fst snd] in Hst1.
      destruct Hst1 as [[Hi0 _]|(_ & cur0 & Hcur0 & Hst1)]; [congruence|].
      rewrite Hcur in Hcur0. injection Hcur0 as <-.
      cbn [agp_runs_from].
      destruct Hst1 as [[Heq ->]|(Hne & s0 & e0 & Hs0 & He0 & ->)].
      * rewrite Heq, String.eqb_refl.
        apply (IH (S i) _ cur s ctg Hloop); auto.
      * rewrite Hs in Hs0. injection Hs0 as <-. rewrite He in He0. injection He0 as <-.
        rewrite (proj2 (String.eqb_neq scaf cur) Hne).
        destruct (IH (S i) _ scaf ctg ctg Hloop ltac:(discriminate) eq_refl eq_refl eq_refl)
          as (cur' & s' & e' & H1 & H2 & H3 & H4).
        exists cur', s', e'. repeat (split; [assumption|]).
        rewrite H4. simpl. now rewrite <- app_assoc.
Qed.

(** The scaffold records of a file that is parsed. *)
Lemma parseAGP_runs (lines : list string)
    (cs : list AGPContigRecord) (ss : list AGPScaffoldRecord) :
  parseAGP lines = Ok (cs, ss) ->
  ss = agp_runs (map agp_line_names (List.filter agp_record_line lines)).
Proof.
  intros Hp.
  destruct (parseAGP_Ok_inv lines cs ss Hp)
    as (st & ps & cur & s & e & Hloop & _ & _ & Hcur & Hs & He & ->).
  destruct lines as [|line lines]; [injection Hloop as <-; discriminate|].
  simpl in Hloop. apply bind_Ok_inv in Hloop as (st1 & Hstep & Hloop).
  destruct (parseAGP_step_spec 0 line _ st1 Hstep)
    as [[Hno ->]|(Hyes & r & Hr & Hst1)].
  - destruct (parseAGP_loop_cur 1 lines _ st Hloop eq_refl) as (Hi & _);
      [congruence | discriminate].
  - cbn [List.filter]. rewrite Hyes. cbn [map]. cbn zeta in Hst1.
    destruct (agp_line_names line) as [scaf ctg] eqn:En. cbn [fst snd] in Hst1.
    cbn [agp_runs].
    destruct Hst1 as [[_ ->]|(Hi & _)]; [|congruence].
    destruct (parseAGP_loop_runs_from 1 lines _ st scaf ctg ctg Hloop
                ltac:(discriminate) eq_refl eq_refl eq_refl)
      as (cur' & s' & e' & H1 & H2 & H3 & H4).
    rewrite Hcur in H1. injection H1 as <-. rewrite Hs in H2. injection H2 as <-.
    rewrite He in H3. injection H3 as <-. exact H4.
Qed.

(** X8: when [parseAGP] succeeds, its contig records are, in file order, the
    records of the lines whose fifth field is [W] and whose first field is
    not [N_spacer], one record each: the sixth field as name, the seventh
    and the eighth read by [int] as begin and end, Forward for [+] and
    Reversed for [-] in the ninth.  A gap line gives no record, and neither
    does a [W] line of an object named [N_spacer]. *)
Theorem parseAGP_contig_records (lines : list string)
    (cs : list AGPContigRecord) (ss : list AGPScaffoldRecord) :
  parseAGP lines = Ok (cs, ss) ->
  map Some cs = map agp_line_record (List.filter agp_record_line lines).
Proof.
  intros Hp.
  destruct (parseAGP_Ok_inv lines cs ss Hp) as (st & ps & cur & s & e & Hloop & _).
  destruct (parseAGP_loop_records 0 lines _ st Hloop) as (rs & Hrs & Hmap).
  assert (Hcs : cs = contig_records_list st).
  { unfold parseAGP in Hp. rewrite Hloop, bind_Ok_eq in Hp.
    destruct (cur_scaf_name st); [|discriminate].
    destruct (cur_start_ctg st); [|discriminate].
    destruct (cur_end_ctg st); [|discriminate].
    simpl in Hp. now injection Hp as <- _. }
  rewrite Hcs, Hrs. exact Hmap.
Qed.

Lemma parseAGP_contig_records_witness :
  map Some [mk_agp_contig "ctg1" CTG_FORWARD 1 100; mk_agp_contig "ctg2" CTG_REVERSED 1 100]
  = map agp_line_record
      (List.filter agp_record_line [agp_w1; agp_gap; agp_w_spacer; agp_w2]).
Proof.
  apply (parseAGP_contig_records [agp_w1; agp_gap; agp_w_spacer; agp_w2] _
           [mk_agp_scaffold "scaf1" "ctg1" "ctg2"]).
  vm_compute. reflexivity.
Defined.

(** X12: when [parseAGP] succeeds, its scaffold records are exactly the
    maximal runs of equal object names among the lines that yield a contig
    record, in file order, each with the object name and the components of
    the first and of the last line of the run; the run open at the end of
    the file is closed too.  Lines without a record (gap lines, [W] lines of
    an object named [N_spacer]) do not end a run.  So there is a record, and
    neighbouring records have different names. *)
Theorem parseAGP_scaffold_runs (lines : list string)
    (cs : list AGPContigRecord) (ss : list AGPScaffoldRecord) :
  parseAGP lines = Ok (cs, ss) ->
  ss = agp_runs (map agp_line_names (List.filter agp_record_line lines))
  /\ ss <> [] /\ adjacent_distinct (map agp_scaffold_name ss).
Proof.
  intros Hp. split; [exact (parseAGP_runs lines cs ss Hp)|].
  exact (parseAGP_runs_distinct lines cs ss Hp).
Qed.

Lemma parseAGP_scaffold_runs_witness :
  [mk_agp_scaffold "scaf1" "ctg1" "ctg2"; mk_agp_scaffold "scaf2" "ctg3" "ctg3"]
  = agp_runs (map agp_line_names
                (List.filter agp_record_line
                   [agp_w1; agp_gap; agp_w_spacer; agp_w2; agp_w3]))
  /\ [mk_agp_scaffold "scaf1" "ctg1" "ctg2"; mk_agp_scaffold "scaf2" "ctg3" "ctg3"] <> []
  /\ adjacent_distinct
       (map agp_scaffold_name
          [mk_agp_scaffold "scaf1" "ctg1" "ctg2"; mk_agp_scaffold "scaf2" "ctg3" "ctg3"]).
Proof.
  apply (parseAGP_scaffold_runs [agp_w1; agp_gap; agp_w_spacer; agp_w2; agp_w3]
           [mk_agp_contig "ctg1" CTG_FORWARD 1 100; mk_agp_contig "ctg2" CTG_REVERSED 1 100;
            mk_agp_contig "ctg3" CTG_FORWARD 1 50]).
  vm_compute. reflexivity.
Defined.
